(** * picomni-rover-web: the BLE link of the rover controller

    A shallow embedding of [services/bluetoothService.ts] (the
    [BluetoothService] class: wire encoding, command loop, GATT session) and
    of the link-handling part of [App.tsx] ([decodeOdometry], [connect],
    [disconnectDevice], [handleDisconnected]), together with the properties
    of the link manager stated in the specification.  The two joysticks
    ([YawJoystick.tsx], [VelocityJoystick.tsx]) and the history of the
    odometry canvas are embedded as far as the command and the display
    depend on them.

    JavaScript numbers are IEEE-754 binary64 values; they are modelled with
    the [spec_float] type of the standard library, and the platform's
    [DataView.setFloat32]/[getFloat32] with the binary32 format built from
    the same library (round to nearest, ties to even). *)

From Stdlib Require Import ZArith List Bool String Ascii Lia.
From Stdlib Require Import Strings.Byte.
From Stdlib Require Import Floats.SpecFloat.
Import ListNotations.

Set Implicit Arguments.

Local Open Scope Z_scope.

(** ** IEEE-754 binary32 and binary64 *)

Module Float32.

(** A JavaScript [number]. *)
Definition number : Type := spec_float.

Definition prec32 : Z := 24.
Definition emax32 : Z := 128.
Definition prec64 : Z := 53.
Definition emax64 : Z := 1024.

Definition is_number (v : number) : bool := valid_binary prec64 emax64 v.
Definition is_float32 (f : spec_float) : bool := valid_binary prec32 emax32 f.

Definition is_finite (v : spec_float) : bool :=
  match v with
  | S754_zero _ | S754_finite _ _ _ => true
  | S754_infinity _ | S754_nan => false
  end.

(** [Number.isNaN] *)
Definition isNaN (v : number) : bool :=
  match v with
  | S754_nan => true
  | _ => false
  end.

(** Conversion of a number to binary32, as [setFloat32] performs it
    (roundTiesToEven; overflow gives an infinity). *)
Definition fround (v : number) : spec_float :=
  match v with
  | S754_finite s m e =>
      binary_normalize prec32 emax32 (cond_Zopp s (Zpos m)) e s
  | _ => v
  end.

(** The number that a binary32 value denotes (exact), as [getFloat32]
    returns it. *)
Definition widen (f : spec_float) : number :=
  match f with
  | S754_finite s m e =>
      binary_normalize prec64 emax64 (cond_Zopp s (Zpos m)) e s
  | _ => f
  end.

Definition sign_bit (s : bool) : Z := if s then 2 ^ 31 else 0.

(** A mantissa with no bits shifted out (a [shr_record] of [SpecFloat]). *)
Definition exact_record (m : positive) : shr_record :=
  Build_shr_record (Zpos m) false false.

(** The 32-bit pattern of a binary32 value: sign, 8 exponent bits with bias
    127, 23 fraction bits.  The pattern written for a NaN is chosen by the
    implementation; the canonical quiet NaN is taken here. *)
Definition bits_of_float32 (f : spec_float) : Z :=
  match f with
  | S754_zero s => sign_bit s
  | S754_infinity s => sign_bit s + 255 * 2 ^ 23
  | S754_nan => 255 * 2 ^ 23 + 2 ^ 22
  | S754_finite s m e =>
      if Zpos m <? 2 ^ 23
      then sign_bit s + Zpos m
      else sign_bit s + (e + 150) * 2 ^ 23 + (Zpos m - 2 ^ 23)
  end.

Definition float32_of_bits (x : Z) : spec_float :=
  let s := Z.odd (x / 2 ^ 31) in
  let ex := (x / 2 ^ 23) mod 256 in
  let mx := x mod 2 ^ 23 in
  if ex =? 0 then
    match mx with
    | Zpos m => S754_finite s m (-149)
    | _ => S754_zero s
    end
  else if ex =? 255 then
    (if mx =? 0 then S754_infinity s else S754_nan)
  else
    match mx + 2 ^ 23 with
    | Zpos m => S754_finite s m (ex - 150)
    | _ => S754_nan
    end.

End Float32.

Import Float32.


(** ** JavaScript completions: a value or a thrown exception *)

Module Js.

Record Exception : Type := { name : string; message : string }.

(** [new Error(message)] *)
Definition Error (msg : string) : Exception :=
  {| name := "Error"; message := msg |}.

(** The [RangeError] a [DataView] accessor throws out of bounds. *)
Definition RangeError (msg : string) : Exception :=
  {| name := "RangeError"; message := msg |}.

Inductive Completion (A : Type) : Type :=
| Normal (a : A)
| Throw (e : Exception).
Arguments Normal {A} a.
Arguments Throw {A} e.

Definition bind {A B : Type} (c : Completion A) (k : A -> Completion B)
  : Completion B :=
  match c with
  | Normal a => k a
  | Throw e => Throw e
  end.

Definition throws {A : Type} (c : Completion A) : bool :=
  match c with
  | Normal _ => false
  | Throw _ => true
  end.

End Js.

Import Js.

Declare Scope js_scope.
Delimit Scope js_scope with js.
Notation "x <- c ;; k" := (Js.bind c (fun x => k))
  (at level 61, c at next level, right associativity) : js_scope.

(** ** ArrayBuffer, Uint8Array and DataView *)

Module DataView.

(** The bytes a view (or a [Uint8Array]) covers. *)
Definition t : Type := list byte.

Definition byteLength (view : t) : nat := List.length view.

(** [new ArrayBuffer(n)]: [n] zero bytes. *)
Definition ArrayBuffer (n : nat) : t := repeat x00 n.

Definition byte_of_Z (z : Z) : byte :=
  match Byte.of_N (Z.to_N (z mod 256)) with
  | Some b => b
  | None => x00
  end.

Definition Z_of_byte (b : byte) : Z := Z.of_N (Byte.to_N b).

(** The four bytes of a 32-bit word, least significant first. *)
Definition bytes_le (x : Z) : list byte :=
  [byte_of_Z x; byte_of_Z (x / 2 ^ 8); byte_of_Z (x / 2 ^ 16);
   byte_of_Z (x / 2 ^ 24)].

Definition word_of_le (bs : list byte) : Z :=
  fold_right (fun b acc => Z_of_byte b + 256 * acc) 0 bs.

Definition in_bounds (view : t) (byteOffset size : nat) : bool :=
  (byteOffset + size <=? byteLength view)%nat.

Definition out_of_bounds : Exception :=
  RangeError "Offset is outside the bounds of the DataView".

(** [view.setFloat32(byteOffset, value, littleEndian)]; the updated
    contents of the underlying buffer are returned. *)
Definition setFloat32 (view : t) (byteOffset : nat) (value : number)
           (littleEndian : bool) : Completion t :=
  if in_bounds view byteOffset 4 then
    let le := bytes_le (bits_of_float32 (fround value)) in
    Normal (firstn byteOffset view
            ++ (if littleEndian then le else rev le)
            ++ skipn (byteOffset + 4) view)
  else Throw out_of_bounds.

(** [view.getFloat32(byteOffset, littleEndian)] *)
Definition getFloat32 (view : t) (byteOffset : nat) (littleEndian : bool)
  : Completion number :=
  if in_bounds view byteOffset 4 then
    let raw := firstn 4 (skipn byteOffset view) in
    Normal (widen (float32_of_bits
                     (word_of_le (if littleEndian then raw else rev raw))))
  else Throw out_of_bounds.

End DataView.

(** ** The wire codec *)

(** [types.ts] *)
Module Types.

Record Command : Type := { vx : number; vy : number; w : number }.

Record Odometry : Type := { x : number; y : number; yaw : number }.

End Types.

Import Types.

Module Codec.

Import DataView.
Local Open Scope js_scope.

(** [BluetoothService.#encodeCommand] *)
Definition encodeCommand (command : Command) : Completion DataView.t :=
  let buffer := ArrayBuffer 12 in
  view <- setFloat32 buffer 0 command.(vx) true ;;
  view <- setFloat32 view 4 command.(vy) true ;;
  view <- setFloat32 view 8 command.(w) true ;;
  Normal view.

(** The bytes of a number written as a little-endian binary32, and the
    number read as a little-endian binary32 at an offset of a view. *)
Definition float32_le (v : number) : list byte :=
  bytes_le (bits_of_float32 (fround v)).

Definition float32_at (view : DataView.t) (byteOffset : nat) : number :=
  widen (float32_of_bits (word_of_le (firstn 4 (skipn byteOffset view)))).

(** [decodeOdometry] of [App.tsx] *)
Definition decodeOdometry (view : DataView.t) : Completion Odometry :=
  if (byteLength view <? 12)%nat then
    Throw (Error "Notification payload shorter than 12 bytes.")
  else
    x <- getFloat32 view 0 true ;;
    y <- getFloat32 view 4 true ;;
    yaw <- getFloat32 view 8 true ;;
    Normal {| x := x; y := y; yaw := yaw |}.

End Codec.


(** ** The Web Bluetooth objects and the platform state *)

Definition TimerId : Type := nat.
Definition PromiseId : Type := nat.

Module Ble.

(** A [BluetoothDevice]; [hasGatt] tells whether [device.gatt] is defined. *)
Record Device : Type := { deviceId : nat; hasGatt : bool }.

(** The [BluetoothRemoteGATTServer] of a device. *)
Record Server : Type := { serverDevice : nat }.

(** A [BluetoothRemoteGATTService]. *)
Record GattService : Type := { serviceDevice : nat }.

(** A [BluetoothRemoteGATTCharacteristic]; [hasWriteValueWithoutResponse]
    tells whether that method exists on the object. *)
Record Characteristic : Type :=
  { characteristicId : nat;
    characteristicDevice : nat;
    hasWriteValueWithoutResponse : bool }.

(** What a platform promise is fulfilled with. *)
Inductive Value : Type :=
| VUndefined
| VDevice (d : Device)
| VServer (s : Server)
| VService (g : GattService)
| VCharacteristic (c : Characteristic).

Definition SERVICE_UUID : string := "69321c59-8017-488e-b5e2-b6d30c834bc5".
Definition CHARACTERISTIC_UUID : string :=
  "87bc2dc5-2207-408d-99f6-3d35573c4472".

End Ble.

Import Ble.

(** The calls the service makes to the platform and to its caller, and what
    it hands to [console]; kept as a trace, most recent first. *)
Inductive Call : Type :=
| CallRequestDevice (serviceUuid : string)
| CallGattConnect (device : nat)
| CallGetPrimaryService (device : nat) (serviceUuid : string)
| CallGetCharacteristic (device : nat) (characteristicUuid : string)
| CallStartNotifications (characteristic : nat)
| CallStopNotifications (characteristic : nat)
| CallServerDisconnect (device : nat)
| CallWriteValueWithoutResponse (characteristic : nat) (payload : DataView.t)
| CallWriteValueWithResponse (characteristic : nat) (payload : DataView.t)
| CallSetInterval (id : TimerId) (intervalMs : Z)
| CallClearInterval (id : TimerId)
| CallGetCommand
| CallEncodeCommand (command : Command)
| CallOnError (message : string)
| CallOnNotify (listener : nat)
| CallOnDisconnect (listener : nat)
| ConsoleError (error : Exception)
| ConsoleWarn (error : Exception).

Definition is_write (c : Call) : bool :=
  match c with
  | CallWriteValueWithoutResponse _ _ | CallWriteValueWithResponse _ _ => true
  | _ => false
  end.

Definition is_encode (c : Call) : bool :=
  match c with
  | CallEncodeCommand _ => true
  | _ => false
  end.

Definition is_onError (c : Call) : bool :=
  match c with
  | CallOnError _ => true
  | _ => false
  end.

Definition is_onDisconnect (c : Call) : bool :=
  match c with
  | CallOnDisconnect _ => true
  | _ => false
  end.

(** ** [BluetoothService] *)

Module Service.
Section Service.

(** The state of the code that calls the service (the callbacks given to
    [startCommandLoop] read and change it), the names of the [BleHandlers]
    objects given to [connect], and the names of the continuations of the
    callers that [await] a [connect] or a [disconnect]. *)
Variable Caller : Type.
Variable HandlersRef : Type.
Variable Awaiter : Type.

(** An event listener: a function object (identified by [listenerId])
    closed over the [handlers] argument of [connect]. *)
Record Listener : Type := { listenerId : nat; handlers : HandlersRef }.

(** The arguments of [startCommandLoop], captured by the timer callback. *)
Record LoopClosure : Type :=
  { getCommand : Caller -> Command;
    onError : string -> Caller -> Caller;
    intervalMs : Z }.

(** The private fields of the class. *)
Record BluetoothService : Type :=
  { device : option Device;
    server : option Server;
    writeChar : option Characteristic;
    notifyChar : option Characteristic;
    notifyHandler : option Listener;
    disconnectHandler : option Listener;
    writeLoopId : option TimerId;
    writeBusy : bool }.

Record Platform : Type :=
  { intervals : list (TimerId * LoopClosure);   (* active [setInterval] timers *)
    nextTimer : TimerId;
    nextPromise : PromiseId;
    nextListener : nat;
    deviceListeners : list (nat * Listener);    (* 'gattserverdisconnected' *)
    characteristicListeners : list (nat * Listener); (* 'characteristicvaluechanged' *)
    gattConnected : list nat;                   (* devices with [gatt.connected] *)
    calls : list Call }.

(** An invocation of the timer callback that is suspended at
    [await this.writeCommand(command)].  [issuedBy] records the timer whose
    callback it is (it is not data of the program). *)
Record PendingTick : Type :=
  { awaited : PromiseId;
    issuedBy : TimerId;
    reportTo : string -> Caller -> Caller }.

(** The [await]s of [connect], with the local variables that are live
    across each. *)
Inductive ConnectStage : Type :=
| AwaitRequestDevice
| AwaitGattConnect (device : Device)
| AwaitGetPrimaryService (device : Device) (server : Server)
| AwaitGetCharacteristic (device : Device) (server : Server)
| AwaitStartNotifications (device : Device) (server : Server)
                          (writeChar : Characteristic).

(** A suspended invocation of [connect]. *)
Record ConnectFrame : Type :=
  { connectAwaits : PromiseId;
    connectStage : ConnectStage;
    connectHandlers : HandlersRef;
    connectAwaiter : Awaiter }.

(** An invocation of [disconnect] suspended in [#stopNotifications], at
    [await this.#notifyChar.stopNotifications()]. *)
Record DisconnectFrame : Type :=
  { disconnectAwaits : PromiseId;
    disconnectAwaiter : Awaiter }.

Record World : Type :=
  { service : BluetoothService;
    platform : Platform;
    caller : Caller;
    sending : list PendingTick;
    connecting : list ConnectFrame;
    disconnecting : list DisconnectFrame }.

(** [export type BleHandlers] *)
Record BleHandlers : Type :=
  { onNotify : DataView.t -> World -> World;
    onDisconnect : World -> World }.

Variable handlersOf : HandlersRef -> BleHandlers.

(** How the caller that awaits a [connect] or a [disconnect] goes on when
    the promise settles. *)
Variable resume : Awaiter -> Completion unit -> World -> World.

(** *** Field updates *)

Definition with_service (f : BluetoothService -> BluetoothService)
           (st : World) : World :=
  {| service := f (service st); platform := platform st;
     caller := caller st; sending := sending st;
     connecting := connecting st; disconnecting := disconnecting st |}.

Definition with_platform (f : Platform -> Platform) (st : World) : World :=
  {| service := service st; platform := f (platform st);
     caller := caller st; sending := sending st;
     connecting := connecting st; disconnecting := disconnecting st |}.

Definition with_caller (f : Caller -> Caller) (st : World) : World :=
  {| service := service st; platform := platform st;
     caller := f (caller st); sending := sending st;
     connecting := connecting st; disconnecting := disconnecting st |}.

Definition with_sending (f : list PendingTick -> list PendingTick)
           (st : World) : World :=
  {| service := service st; platform := platform st;
     caller := caller st; sending := f (sending st);
     connecting := connecting st; disconnecting := disconnecting st |}.

Definition with_connecting (f : list ConnectFrame -> list ConnectFrame)
           (st : World) : World :=
  {| service := service st; platform := platform st;
     caller := caller st; sending := sending st;
     connecting := f (connecting st); disconnecting := disconnecting st |}.

Definition with_disconnecting
           (f : list DisconnectFrame -> list DisconnectFrame)
           (st : World) : World :=
  {| service := service st; platform := platform st;
     caller := caller st; sending := sending st;
     connecting := connecting st; disconnecting := f (disconnecting st) |}.

Definition set_writeLoopId (v : option TimerId) (s : BluetoothService) :=
  {| device := device s; server := server s; writeChar := writeChar s;
     notifyChar := notifyChar s; notifyHandler := notifyHandler s;
     disconnectHandler := disconnectHandler s;
     writeLoopId := v; writeBusy := writeBusy s |}.

Definition set_writeBusy (v : bool) (s : BluetoothService) :=
  {| device := device s; server := server s; writeChar := writeChar s;
     notifyChar := notifyChar s; notifyHandler := notifyHandler s;
     disconnectHandler := disconnectHandler s;
     writeLoopId := writeLoopId s; writeBusy := v |}.

Definition set_notifyHandler (v : option Listener) (s : BluetoothService) :=
  {| device := device s; server := server s; writeChar := writeChar s;
     notifyChar := notifyChar s; notifyHandler := v;
     disconnectHandler := disconnectHandler s;
     writeLoopId := writeLoopId s; writeBusy := writeBusy s |}.

Definition set_disconnectHandler (v : option Listener) (s : BluetoothService) :=
  {| device := device s; server := server s; writeChar := writeChar s;
     notifyChar := notifyChar s; notifyHandler := notifyHandler s;
     disconnectHandler := v;
     writeLoopId := writeLoopId s; writeBusy := writeBusy s |}.

(** The four assignments that end [connect], and (with [None]) the first
    four of those that end [disconnect]. *)
Definition set_session (d : option Device) (sv : option Server)
           (wc nc : option Characteristic) (s : BluetoothService) :=
  {| device := d; server := sv; writeChar := wc; notifyChar := nc;
     notifyHandler := notifyHandler s;
     disconnectHandler := disconnectHandler s;
     writeLoopId := writeLoopId s; writeBusy := writeBusy s |}.

Definition set_intervals (v : list (TimerId * LoopClosure)) (p : Platform) :=
  {| intervals := v; nextTimer := nextTimer p; nextPromise := nextPromise p;
     nextListener := nextListener p; deviceListeners := deviceListeners p;
     characteristicListeners := characteristicListeners p;
     gattConnected := gattConnected p; calls := calls p |}.

Definition set_nextTimer (v : TimerId) (p : Platform) :=
  {| intervals := intervals p; nextTimer := v; nextPromise := nextPromise p;
     nextListener := nextListener p; deviceListeners := deviceListeners p;
     characteristicListeners := characteristicListeners p;
     gattConnected := gattConnected p; calls := calls p |}.

Definition set_nextPromise (v : PromiseId) (p : Platform) :=
  {| intervals := intervals p; nextTimer := nextTimer p; nextPromise := v;
     nextListener := nextListener p; deviceListeners := deviceListeners p;
     characteristicListeners := characteristicListeners p;
     gattConnected := gattConnected p; calls := calls p |}.

Definition set_nextListener (v : nat) (p : Platform) :=
  {| intervals := intervals p; nextTimer := nextTimer p;
     nextPromise := nextPromise p;
     nextListener := v; deviceListeners := deviceListeners p;
     characteristicListeners := characteristicListeners p;
     gattConnected := gattConnected p; calls := calls p |}.

Definition set_deviceListeners (v : list (nat * Listener)) (p : Platform) :=
  {| intervals := intervals p; nextTimer := nextTimer p;
     nextPromise := nextPromise p;
     nextListener := nextListener p; deviceListeners := v;
     characteristicListeners := characteristicListeners p;
     gattConnected := gattConnected p; calls := calls p |}.

Definition set_characteristicListeners (v : list (nat * Listener))
           (p : Platform) :=
  {| intervals := intervals p; nextTimer := nextTimer p;
     nextPromise := nextPromise p;
     nextListener := nextListener p; deviceListeners := deviceListeners p;
     characteristicListeners := v;
     gattConnected := gattConnected p; calls := calls p |}.

Definition set_gattConnected (v : list nat) (p : Platform) :=
  {| intervals := intervals p; nextTimer := nextTimer p;
     nextPromise := nextPromise p;
     nextListener := nextListener p; deviceListeners := deviceListeners p;
     characteristicListeners := characteristicListeners p;
     gattConnected := v; calls := calls p |}.

Definition set_calls (v : list Call) (p : Platform) :=
  {| intervals := intervals p; nextTimer := nextTimer p;
     nextPromise := nextPromise p;
     nextListener := nextListener p; deviceListeners := deviceListeners p;
     characteristicListeners := characteristicListeners p;
     gattConnected := gattConnected p; calls := v |}.

(** *** Platform primitives *)

Definition record (c : Call) (st : World) : World :=
  with_platform (fun p => set_calls (c :: calls p) p) st.

(** A call that returns a promise: the promise gets a fresh name, and is
    settled later by the platform. *)
Definition promise (c : Call) (st : World) : PromiseId * World :=
  let p := nextPromise (platform st) in
  (p, with_platform (set_nextPromise (S p)) (record c st)).

(** [window.setInterval(callback, intervalMs)] *)
Definition setInterval (k : LoopClosure) (st : World) : TimerId * World :=
  let id := nextTimer (platform st) in
  (id,
   with_platform
     (fun p => set_nextTimer (S id) (set_intervals ((id, k) :: intervals p) p))
     (record (CallSetInterval id (intervalMs k)) st)).

(** [window.clearInterval(id)] *)
Definition clearInterval (id : TimerId) (st : World) : World :=
  with_platform
    (fun p =>
       set_intervals
         (filter (fun t => negb (Nat.eqb (fst t) id)) (intervals p)) p)
    (record (CallClearInterval id) st).

Definition timer (id : TimerId) (st : World) : option LoopClosure :=
  option_map snd
    (find (fun t => Nat.eqb (fst t) id) (intervals (platform st))).

(** A fresh function object closed over [h]. *)
Definition closure (h : HandlersRef) (st : World) : Listener * World :=
  let n := nextListener (platform st) in
  ({| listenerId := n; handlers := h |},
   with_platform (set_nextListener (S n)) st).

Definition same_listener (l : Listener) (t : nat * Listener) : bool :=
  Nat.eqb (listenerId (snd t)) (listenerId l).

Definition attached (target : nat) (l : Listener)
           (ls : list (nat * Listener)) : bool :=
  existsb (fun t => Nat.eqb (fst t) target && same_listener l t) ls.

(** [target.addEventListener(type, listener)]: a listener that is already
    attached to the target is not attached twice. *)
Definition addEventListener (target : nat) (l : Listener)
           (ls : list (nat * Listener)) : list (nat * Listener) :=
  if attached target l ls then ls else ls ++ [(target, l)].

(** [target.removeEventListener(type, listener)] *)
Definition removeEventListener (target : nat) (l : Listener)
           (ls : list (nat * Listener)) : list (nat * Listener) :=
  filter (fun t => negb (Nat.eqb (fst t) target && same_listener l t)) ls.

Definition listenersOf (target : nat) (ls : list (nat * Listener))
  : list Listener :=
  map snd (filter (fun t => Nat.eqb (fst t) target) ls).

(** [server.connected] *)
Definition connected (s : Server) (st : World) : bool :=
  existsb (Nat.eqb (serverDevice s)) (gattConnected (platform st)).

(** The platform fires 'gattserverdisconnected' at a device: each listener
    attached to it runs; the listeners that [connect] attaches call
    [handlers.onDisconnect()]. *)
Definition fire_gattserverdisconnected (dev : nat) (st : World) : World :=
  fold_left
    (fun st l =>
       onDisconnect (handlersOf (handlers l))
                    (record (CallOnDisconnect (listenerId l)) st))
    (listenersOf dev (deviceListeners (platform st))) st.

Definition drop_connection (dev : nat) (st : World) : World :=
  with_platform
    (fun p =>
       set_gattConnected
         (filter (fun d => negb (Nat.eqb d dev)) (gattConnected p)) p)
    st.

(** [server.disconnect()]: the server is marked disconnected and the event
    is fired at the device before the call returns. *)
Definition server_disconnect (s : Server) (st : World) : World :=
  fire_gattserverdisconnected (serverDevice s)
    (drop_connection (serverDevice s)
       (record (CallServerDisconnect (serverDevice s)) st)).

(** The link to a device is lost (by the remote side or the radio). *)
Definition linkLost (dev : nat) (st : World) : World :=
  if existsb (Nat.eqb dev) (gattConnected (platform st))
  then fire_gattserverdisconnected dev (drop_connection dev st)
  else st.

(** The platform fires 'characteristicvaluechanged' at a characteristic
    whose [value] is [value]; this is [notifyHandler] of [connect]. *)
Definition notified (chr : nat) (value : option DataView.t) (st : World)
  : World :=
  fold_left
    (fun st l =>
       match value with
       | None => st
       | Some v =>
           onNotify (handlersOf (handlers l)) v
                    (record (CallOnNotify (listenerId l)) st)
       end)
    (listenersOf chr (characteristicListeners (platform st))) st.

(** *** The command loop *)

(** [stopCommandLoop] *)
Definition stopCommandLoop (st : World) : World :=
  let st :=
    match writeLoopId (service st) with
    | Some id => with_service (set_writeLoopId None) (clearInterval id st)
    | None => st
    end in
  with_service (set_writeBusy false) st.

(** [startCommandLoop]; [None] for [intervalMs] takes the default 50. *)
Definition startCommandLoop (getCommand : Caller -> Command)
           (onError : string -> Caller -> Caller)
           (intervalMs : option Z) (st : World) : World :=
  match writeLoopId (service st) with
  | Some _ => st
  | None =>
      let k := {| getCommand := getCommand; onError := onError;
                  intervalMs := match intervalMs with
                                | Some ms => ms
                                | None => 50
                                end |} in
      let '(id, st) := setInterval k st in
      with_service (set_writeLoopId (Some id)) st
  end.

(** [Object.values(command)] *)
Definition Object_values (command : Command) : list number :=
  [vx command; vy command; w command].

Definition invalid_command : string :=
  "現在のコマンドに不正な数値があります。入力を確認してください。".

Definition no_write_characteristic : string :=
  "書き込み用キャラクタリスティックが利用できません。".

(** [writeCommand], up to its [await]: an exception, or the promise of the
    write that was started. *)
Definition writeCommand (command : Command) (st : World)
  : World * (Exception + PromiseId) :=
  match writeChar (service st) with
  | None => (st, inl (Error no_write_characteristic))
  | Some c =>
      let st := record (CallEncodeCommand command) st in
      match Codec.encodeCommand command with
      | Throw e => (st, inl e)
      | Normal payload =>
          let '(p, st) :=
            promise
              (if hasWriteValueWithoutResponse c
               then CallWriteValueWithoutResponse (characteristicId c) payload
               else CallWriteValueWithResponse (characteristicId c) payload)
              st in
          (st, inr p)
      end
  end.

(** The [catch] and [finally] blocks of the timer callback. *)
Definition tick_catch (error : Exception)
           (onError : string -> Caller -> Caller) (st : World) : World :=
  stopCommandLoop
    (with_caller (onError (message error))
       (record (CallOnError (message error))
          (record (ConsoleError error) st))).

Definition tick_finally (st : World) : World :=
  with_service (set_writeBusy false) st.

(** The timer callback of timer [id], from its start to the [await] (or to
    its end, when it does not get there). *)
Definition tick (id : TimerId) (k : LoopClosure) (st : World) : World :=
  if writeBusy (service st) then st
  else
    let st := with_service (set_writeBusy true) st in
    let st := record CallGetCommand st in
    let command := getCommand k (caller st) in
    if existsb isNaN (Object_values command) then
      tick_finally (tick_catch (Error invalid_command) (onError k) st)
    else
      match writeCommand command st with
      | (st, inl error) => tick_finally (tick_catch error (onError k) st)
      | (st, inr p) =>
          with_sending
            (cons {| awaited := p; issuedBy := id; reportTo := onError k |})
            st
      end.

(** The timer callback after the [await], when the write has settled. *)
Definition tick_resume (t : PendingTick) (outcome : Completion Value)
           (st : World) : World :=
  match outcome with
  | Normal _ => tick_finally st
  | Throw error => tick_finally (tick_catch error (reportTo t) st)
  end.

(** The timer [id] fires. *)
Definition intervalFires (id : TimerId) (st : World) : World :=
  match timer id st with
  | Some k => tick id k st
  | None => st
  end.

(** *** The session *)

Definition TypeError : Exception :=
  {| name := "TypeError";
     message := "Cannot read properties of undefined" |}.

Definition no_gatt_server : Exception :=
  Error "Failed to open a GATT server.".

Definition suspend_connect (p : PromiseId) (stage : ConnectStage)
           (f : ConnectFrame) (st : World) : World :=
  with_connecting
    (cons {| connectAwaits := p; connectStage := stage;
             connectHandlers := connectHandlers f;
             connectAwaiter := connectAwaiter f |}) st.

(** [connect(handlers)], up to [await navigator.bluetooth.requestDevice]. *)
Definition connect (h : HandlersRef) (a : Awaiter) (st : World) : World :=
  let '(p, st) := promise (CallRequestDevice SERVICE_UUID) st in
  with_connecting
    (cons {| connectAwaits := p; connectStage := AwaitRequestDevice;
             connectHandlers := h; connectAwaiter := a |}) st.

(** [connect] from one [await] to the next; [Some c] when the call has
    finished with completion [c], [None] when it is suspended again. *)
Definition connect_resume (f : ConnectFrame) (outcome : Completion Value)
           (st : World) : World * option (Completion unit) :=
  match outcome with
  | Throw e => (st, Some (Throw e))
  | Normal v =>
      match connectStage f, v with
      | AwaitRequestDevice, VDevice device =>
          let '(disconnectHandler, st) := closure (connectHandlers f) st in
          let st :=
            with_platform
              (fun p => set_deviceListeners
                          (addEventListener (deviceId device) disconnectHandler
                                            (deviceListeners p)) p) st in
          let st :=
            with_service (set_disconnectHandler (Some disconnectHandler)) st in
          if hasGatt device then
            let '(p, st) := promise (CallGattConnect (deviceId device)) st in
            (suspend_connect p (AwaitGattConnect device) f st, None)
          else (st, Some (Throw no_gatt_server))
      | AwaitGattConnect device, VServer server =>
          let st :=
            with_platform
              (fun p => set_gattConnected
                          (serverDevice server :: gattConnected p) p) st in
          let '(p, st) :=
            promise (CallGetPrimaryService (deviceId device) SERVICE_UUID) st in
          (suspend_connect p (AwaitGetPrimaryService device server) f st,
           None)
      | AwaitGattConnect device, VUndefined =>
          (st, Some (Throw no_gatt_server))
      | AwaitGetPrimaryService device server, VService _ =>
          let '(p, st) :=
            promise (CallGetCharacteristic (deviceId device)
                                           CHARACTERISTIC_UUID) st in
          (suspend_connect p (AwaitGetCharacteristic device server) f st,
           None)
      | AwaitGetCharacteristic device server, VCharacteristic writeChar =>
          let notifyChar := writeChar in
          let '(notifyHandler, st) := closure (connectHandlers f) st in
          let st := with_service (set_notifyHandler (Some notifyHandler)) st in
          let st :=
            with_platform
              (fun p => set_characteristicListeners
                          (addEventListener (characteristicId notifyChar)
                                            notifyHandler
                                            (characteristicListeners p)) p)
              st in
          let '(p, st) :=
            promise (CallStartNotifications (characteristicId notifyChar))
                    st in
          (suspend_connect
             p (AwaitStartNotifications device server writeChar) f st,
           None)
      | AwaitStartNotifications device server writeChar, _ =>
          let notifyChar := writeChar in
          (with_service
             (set_session (Some device) (Some server) (Some writeChar)
                          (Some notifyChar)) st,
           Some (Normal tt))
      | _, _ => (st, Some (Throw TypeError))
      end
  end.

(** [disconnect] after [await this.#stopNotifications()]. *)
Definition disconnect_rest (st : World) : World :=
  let st :=
    match server (service st) with
    | Some s => if connected s st then server_disconnect s st else st
    | None => st
    end in
  let st :=
    match device (service st), disconnectHandler (service st) with
    | Some d, Some h =>
        with_platform
          (fun p => set_deviceListeners
                      (removeEventListener (deviceId d) h
                                           (deviceListeners p)) p) st
    | _, _ => st
    end in
  with_service
    (fun s => set_disconnectHandler None (set_session None None None None s))
    st.

(** [#stopNotifications], up to its [await]: [Some p] when there are
    notifications to stop and it awaits the promise [p] of
    [this.#notifyChar.stopNotifications()], [None] when it has run to its
    end. *)
Definition stopNotifications (st : World) : World * option PromiseId :=
  match notifyChar (service st), notifyHandler (service st) with
  | Some c, Some h =>
      let st :=
        with_platform
          (fun p => set_characteristicListeners
                      (removeEventListener (characteristicId c) h
                                           (characteristicListeners p)) p)
          st in
      let '(p, st) :=
        promise (CallStopNotifications (characteristicId c)) st in
      (st, Some p)
  | _, _ => (with_service (set_notifyHandler None) st, None)
  end.

(** [#stopNotifications] after that [await]; a rejection is only logged. *)
Definition stopNotifications_resume (outcome : Completion Value)
           (st : World) : World :=
  let st :=
    match outcome with
    | Normal _ => st
    | Throw error => record (ConsoleWarn error) st
    end in
  with_service (set_notifyHandler None) st.

(** [disconnect()]: it runs to its end ([Some c]) unless
    [#stopNotifications] is suspended, in which case it is suspended there
    ([None]). *)
Definition disconnect (a : Awaiter) (st : World)
  : World * option (Completion unit) :=
  match stopNotifications st with
  | (st, Some p) =>
      (with_disconnecting
         (cons {| disconnectAwaits := p; disconnectAwaiter := a |}) st,
       None)
  | (st, None) => (disconnect_rest st, Some (Normal tt))
  end.

(** [disconnect] after [#stopNotifications] has been resumed. *)
Definition disconnect_resume (outcome : Completion Value) (st : World)
  : World :=
  disconnect_rest (stopNotifications_resume outcome st).

(** *** Settling of promises *)

Definition awaits_tick (p : PromiseId) (t : PendingTick) : bool :=
  Nat.eqb (awaited t) p.
Definition awaits_connect (p : PromiseId) (f : ConnectFrame) : bool :=
  Nat.eqb (connectAwaits f) p.
Definition awaits_disconnect (p : PromiseId) (f : DisconnectFrame) : bool :=
  Nat.eqb (disconnectAwaits f) p.

(** The platform settles promise [p]: the invocation that awaits it goes
    on, and when a [connect] or [disconnect] finishes thereby, so does the
    caller that awaits it. *)
Definition settles (p : PromiseId) (outcome : Completion Value)
           (st : World) : World :=
  match find (awaits_tick p) (sending st) with
  | Some t =>
      tick_resume t outcome
        (with_sending (filter (fun t => negb (awaits_tick p t))) st)
  | None =>
      match find (awaits_connect p) (connecting st) with
      | Some f =>
          let st :=
            with_connecting (filter (fun f => negb (awaits_connect p f))) st in
          match connect_resume f outcome st with
          | (st, Some c) => resume (connectAwaiter f) c st
          | (st, None) => st
          end
      | None =>
          match find (awaits_disconnect p) (disconnecting st) with
          | Some f =>
              let st :=
                with_disconnecting
                  (filter (fun f => negb (awaits_disconnect p f))) st in
              resume (disconnectAwaiter f) (Normal tt)
                     (disconnect_resume outcome st)
          | None => st
          end
      end
  end.

(** *** The service as a transition system

    What can happen to a service: its caller invokes a public method, or the
    platform runs a callback. *)
Inductive Event : Type :=
| StartCommandLoop (getCommand : Caller -> Command)
                   (onError : string -> Caller -> Caller)
                   (intervalMs : option Z)
| StopCommandLoop
| Connect (h : HandlersRef) (a : Awaiter)
| Disconnect (a : Awaiter)
| IntervalFires (id : TimerId)
| Settles (p : PromiseId) (outcome : Completion Value)
| LinkLost (dev : nat)
| Notified (chr : nat) (value : option DataView.t).

Definition step (st : World) (e : Event) : World :=
  match e with
  | StartCommandLoop g h ms => startCommandLoop g h ms st
  | StopCommandLoop => stopCommandLoop st
  | Connect h a => connect h a st
  | Disconnect a =>
      match disconnect a st with
      | (st, Some c) => resume a c st
      | (st, None) => st
      end
  | IntervalFires id => intervalFires id st
  | Settles p outcome => settles p outcome st
  | LinkLost dev => linkLost dev st
  | Notified chr value => notified chr value st
  end.

Definition run (st : World) (es : list Event) : World := fold_left step es st.

(** *** A new service, on a platform where nothing has happened yet *)

Definition new_service : BluetoothService :=
  {| device := None; server := None; writeChar := None; notifyChar := None;
     notifyHandler := None; disconnectHandler := None;
     writeLoopId := None; writeBusy := false |}.

Definition new_platform : Platform :=
  {| intervals := []; nextTimer := 1%nat; nextPromise := 0%nat;
     nextListener := 0%nat;
     deviceListeners := []; characteristicListeners := [];
     gattConnected := []; calls := [] |}.

Definition new_world (c : Caller) : World :=
  {| service := new_service; platform := new_platform; caller := c;
     sending := []; connecting := []; disconnecting := [] |}.

(** Every active timer is the one whose id the service holds. *)
Definition timers_owned (st : World) : Prop :=
  map fst (intervals (platform st)) =
  match writeLoopId (service st) with
  | Some id => [id]
  | None => []
  end.

(** The ways in which an invocation of the timer callback fails: the command
    it fetched has a NaN field, there is no characteristic to write to, or
    the write it awaits is rejected.  [tick_fails st error onError st'] holds
    when the failure [error] occurs in state [st] in the callback of a loop
    started with [onError], and leaves state [st']. *)
Inductive tick_fails (st : World)
  : Exception -> (string -> Caller -> Caller) -> World -> Prop :=
| fails_invalid_command id k :
    timer id st = Some k ->
    writeBusy (service st) = false ->
    existsb isNaN (Object_values (getCommand k (caller st))) = true ->
    tick_fails st (Error invalid_command) (onError k) (intervalFires id st)
| fails_no_characteristic id k :
    timer id st = Some k ->
    writeBusy (service st) = false ->
    existsb isNaN (Object_values (getCommand k (caller st))) = false ->
    writeChar (service st) = None ->
    tick_fails st (Error no_write_characteristic) (onError k)
               (intervalFires id st)
| fails_write p t error :
    find (awaits_tick p) (sending st) = Some t ->
    tick_fails st error (reportTo t) (settles p (Throw error) st).

(** The callback that [startCommandLoop] gives to [setInterval]. *)
Definition fresh_loop (getCommand : Caller -> Command)
           (onError : string -> Caller -> Caller) (intervalMs : option Z)
  : LoopClosure :=
  {| getCommand := getCommand; onError := onError;
     intervalMs := match intervalMs with
                   | Some ms => ms
                   | None => 50
                   end |}.

(** The fields of the service that hold the session. *)
Definition session (st : World)
  : option Device * option Server * option Characteristic
    * option Characteristic * option Listener * option Listener :=
  let s := service st in
  (device s, server s, writeChar s, notifyChar s, notifyHandler s,
   disconnectHandler s).

(** The state of the link on the platform's side. *)
Definition link (st : World)
  : list nat * list (nat * Listener) * list (nat * Listener) :=
  let p := platform st in
  (gattConnected p, deviceListeners p, characteristicListeners p).

(** How many of the calls made so far satisfy [f]. *)
Definition made (f : Call -> bool) (st : World) : nat :=
  List.length (filter f (calls (platform st))).

(** At most one write is in flight, and the busy flag is set while one is. *)
Definition exclusive (st : World) : Prop :=
  sending st = []
  \/ (writeBusy (service st) = true /\ exists t, sending st = [t]).

(** The runs of the loop in which [stopCommandLoop] is not called while a
    write is in flight: the loop is started, stopped (with no write in
    flight), its timer fires, its writes settle. *)
Definition orderly_event (st : World) (e : Event) : Prop :=
  match e with
  | StartCommandLoop _ _ _ => True
  | StopCommandLoop => sending st = []
  | IntervalFires _ => True
  | Settles p _ => find (awaits_tick p) (sending st) <> None
  | _ => False
  end.

Fixpoint orderly (st : World) (es : list Event) : Prop :=
  match es with
  | [] => True
  | e :: es' => orderly_event st e /\ orderly (step st e) es'
  end.

(** The writes of timer [id] that have not settled. *)
Definition in_flight (id : TimerId) (st : World) : nat :=
  List.length (filter (fun t => Nat.eqb (issuedBy t) id) (sending st)).

End Service.
End Service.

(** ** [App.tsx]: the link manager *)

Module App.

Import DataView.

(** The [useState] values of [App]. *)
Record ReactState : Type :=
  { command : Command;
    isConnecting : bool;
    isDisconnecting : bool;
    isConnected : bool }.

(** An updater function waiting in React's queue of the [command] state:
    the one that [setCommandVelocities] or [setCommandYaw] gave to
    [setCommand]. *)
Inductive Update : Type :=
| VelocitiesUpdate (vx vy : number)
| YawUpdate (w : number).

(** [state] is what React holds: the values given to the setters, and the
    command as far as React has called the updaters; [updates] are the
    updaters it has not called yet.  [rendered] is the state of the last
    render, which the functions created by that render ([connect],
    [startWriteLoop], the button) have closed over.  The refs and the
    browser objects the component uses follow. *)
Record AppData : Type :=
  { state : ReactState;
    rendered : ReactState;
    updates : list Update;        (* oldest first *)
    userDisconnectRef : bool;
    commandRef : Command;
    history : list Odometry;      (* [historyRef] of the canvas, oldest first *)
    alerts : list string;         (* [window.alert], most recent first *)
    navigator_bluetooth : bool }. (* [navigator.bluetooth] is defined *)

(** The object literal given to [bleServiceRef.current.connect]. *)
Inductive HandlersRef : Type := AppHandlers.

(** Where the component awaits the service: [connect] at
    [await bleServiceRef.current.connect(...)], closed over the render
    [r], and [disconnectDevice] at [await bleServiceRef.current.disconnect()],
    called from the button ([None]) or from the [catch] block of the
    [connect] of render [r] ([Some r]). *)
Inductive Awaiter : Type :=
| ConnectAwaitsService (r : ReactState)
| DisconnectDeviceAwaits (from : option ReactState).

Definition World : Type := Service.World AppData HandlersRef Awaiter.

(** *** Setters *)

Definition set_state (v : ReactState) (a : AppData) : AppData :=
  {| state := v; rendered := rendered a; updates := updates a;
     userDisconnectRef := userDisconnectRef a; commandRef := commandRef a;
     history := history a; alerts := alerts a;
     navigator_bluetooth := navigator_bluetooth a |}.

Definition set_rendered (v : ReactState) (a : AppData) : AppData :=
  {| state := state a; rendered := v; updates := updates a;
     userDisconnectRef := userDisconnectRef a; commandRef := commandRef a;
     history := history a; alerts := alerts a;
     navigator_bluetooth := navigator_bluetooth a |}.

Definition set_updates (v : list Update) (a : AppData) : AppData :=
  {| state := state a; rendered := rendered a; updates := v;
     userDisconnectRef := userDisconnectRef a; commandRef := commandRef a;
     history := history a; alerts := alerts a;
     navigator_bluetooth := navigator_bluetooth a |}.

Definition set_userDisconnectRef (v : bool) (a : AppData) : AppData :=
  {| state := state a; rendered := rendered a; updates := updates a;
     userDisconnectRef := v; commandRef := commandRef a;
     history := history a; alerts := alerts a;
     navigator_bluetooth := navigator_bluetooth a |}.

Definition set_commandRef (v : Command) (a : AppData) : AppData :=
  {| state := state a; rendered := rendered a; updates := updates a;
     userDisconnectRef := userDisconnectRef a; commandRef := v;
     history := history a; alerts := alerts a;
     navigator_bluetooth := navigator_bluetooth a |}.

Definition set_history (v : list Odometry) (a : AppData) : AppData :=
  {| state := state a; rendered := rendered a; updates := updates a;
     userDisconnectRef := userDisconnectRef a; commandRef := commandRef a;
     history := v; alerts := alerts a;
     navigator_bluetooth := navigator_bluetooth a |}.

(** [window.alert(message)] *)
Definition alert (msg : string) (a : AppData) : AppData :=
  {| state := state a; rendered := rendered a; updates := updates a;
     userDisconnectRef := userDisconnectRef a; commandRef := commandRef a;
     history := history a; alerts := msg :: alerts a;
     navigator_bluetooth := navigator_bluetooth a |}.

(** The command that React holds becomes [v]. *)
Definition set_command (v : Command) (a : AppData) : AppData :=
  set_state {| command := v;
               isConnecting := isConnecting (state a);
               isDisconnecting := isDisconnecting (state a);
               isConnected := isConnected (state a) |} a.

Definition setIsConnecting (v : bool) (a : AppData) : AppData :=
  set_state {| command := command (state a);
               isConnecting := v;
               isDisconnecting := isDisconnecting (state a);
               isConnected := isConnected (state a) |} a.

Definition setIsDisconnecting (v : bool) (a : AppData) : AppData :=
  set_state {| command := command (state a);
               isConnecting := isConnecting (state a);
               isDisconnecting := v;
               isConnected := isConnected (state a) |} a.

Definition setIsConnected (v : bool) (a : AppData) : AppData :=
  set_state {| command := command (state a);
               isConnecting := isConnecting (state a);
               isDisconnecting := isDisconnecting (state a);
               isConnected := v |} a.

Definition on (f : AppData -> AppData) (st : World) : World :=
  Service.with_caller f st.

(** *** The component's functions *)

(** [toLowerCase], on the ASCII letters. *)
Fixpoint toLowerCase (s : string) : string :=
  match s with
  | EmptyString => EmptyString
  | String c s' =>
      let n := nat_of_ascii c in
      String (if ((65 <=? n) && (n <=? 90))%nat
              then ascii_of_nat (n + 32) else c)
             (toLowerCase s')
  end.

Definition includes (s sub : string) : bool :=
  match String.index 0 sub s with
  | Some _ => true
  | None => false
  end.

(** [isUserCancelledError] *)
Definition isUserCancelledError (error : Exception) : bool :=
  let message := toLowerCase (Js.message error) in
  let name := toLowerCase (Js.name error) in
  includes message "user cancelled"
  || includes message "user canceled"
  || includes message "usercancelled"
  || includes message "usercanceled"
  || (String.eqb name "notfounderror" && includes message "cancelled").

(** [===] on numbers is the IEEE equality. *)
Definition strict_eq (a b : number) : bool := SFeqb a b.

(** The updater functions [(prev) => ...] of [setCommandVelocities] and of
    [setCommandYaw], called by React with the command it holds: what they
    return becomes that command, and [commandRef.current = next] is done
    during the call. *)
Definition velocitiesUpdater (vx vy : number) (a : AppData) : AppData :=
  let prev := command (state a) in
  if strict_eq (Types.vx prev) vx && strict_eq (Types.vy prev) vy
  then a
  else
    let next := {| Types.vx := vx; Types.vy := vy; w := w prev |} in
    set_command next (set_commandRef next a).

Definition yawUpdater (w : number) (a : AppData) : AppData :=
  let prev := command (state a) in
  if strict_eq (Types.w prev) w then a
  else
    let next := {| vx := vx prev; vy := vy prev; Types.w := w |} in
    set_command next (set_commandRef next a).

(** What the updater returns for the command [prev]. *)
Definition updated (u : Update) (prev : Command) : Command :=
  match u with
  | VelocitiesUpdate vx vy =>
      if strict_eq (Types.vx prev) vx && strict_eq (Types.vy prev) vy
      then prev
      else {| Types.vx := vx; Types.vy := vy; w := w prev |}
  | YawUpdate w =>
      if strict_eq (Types.w prev) w then prev
      else {| vx := vx prev; vy := vy prev; Types.w := w |}
  end.

Definition call_updater (u : Update) (a : AppData) : AppData :=
  match u with
  | VelocitiesUpdate vx vy => velocitiesUpdater vx vy a
  | YawUpdate w => yawUpdater w a
  end.

(** [setCommand(updater)].  React queues the updater and calls it when it
    next renders the component.  Only when no updater is queued may React
    call it at once instead; whether it does is React's choice, given here
    as [eager]. *)
Definition setCommand (u : Update) (eager : bool) (a : AppData) : AppData :=
  match updates a with
  | [] => if eager then call_updater u a else set_updates [u] a
  | us => set_updates (us ++ [u]) a
  end.

(** [setCommandVelocities] and [setCommandYaw] *)
Definition setCommandVelocities (vx vy : number) (eager : bool) (a : AppData)
  : AppData :=
  setCommand (VelocitiesUpdate vx vy) eager a.

Definition setCommandYaw (w : number) (eager : bool) (a : AppData) : AppData :=
  setCommand (YawUpdate w) eager a.

(** [odometryCanvasRef.current?.push] and [.clear] *)
Definition push (odometry : Odometry) (a : AppData) : AppData :=
  let h := history a ++ [odometry] in
  set_history (if (400 <? List.length h)%nat then tl h else h) a.

Definition clearOdometry (a : AppData) : AppData := set_history [] a.

Definition showError (message : string) (a : AppData) : AppData :=
  alert message a.

Definition unexpectedly_disconnected : string := "予期せず切断されました。".

Definition no_web_bluetooth : string :=
  "このブラウザではWeb Bluetoothが利用できません。".

(** [handleDisconnected] *)
Definition handleDisconnected (st : World) : World :=
  let st := Service.stopCommandLoop st in
  let st := on (setIsConnected false) st in
  let st := on clearOdometry st in
  let st :=
    if userDisconnectRef (Service.caller st) then st
    else on (alert unexpectedly_disconnected) st in
  on (set_userDisconnectRef false) st.

(** The [onNotify] handler that [connect] passes to the service. *)
Definition handleNotify (value : DataView.t) (st : World) : World :=
  match Codec.decodeOdometry value with
  | Normal odometry => on (push odometry) st
  | Throw decodeError => on (showError (message decodeError)) st
  end.

Definition handlersOf (h : HandlersRef)
  : Service.BleHandlers AppData HandlersRef Awaiter :=
  match h with
  | AppHandlers =>
      {| Service.onNotify := handleNotify;
         Service.onDisconnect := handleDisconnected |}
  end.

(** [disconnectDevice], after [await bleServiceRef.current.disconnect()]. *)
Definition disconnectDevice_after (st : World) : World :=
  let st := on (setIsConnected false) st in
  let st := on (setIsDisconnecting false) st in
  on (set_userDisconnectRef false) st.

(** [disconnectDevice]; the boolean tells whether it ran to its end. *)
Definition disconnectDevice (from : option ReactState) (st : World)
  : World * bool :=
  let st := on (set_userDisconnectRef true) st in
  let st := on (setIsDisconnecting true) st in
  let st := Service.stopCommandLoop st in
  match Service.disconnect handlersOf (DisconnectDeviceAwaits from) st with
  | (st, Some _) => (disconnectDevice_after st, true)
  | (st, None) => (st, false)
  end.

(** The callbacks that [startWriteLoop] gives to the service:
    [() => commandRef.current] and [(message) => showError(message)]. *)
Definition currentCommand (a : AppData) : Command := commandRef a.

Definition reportError (message : string) (a : AppData) : AppData :=
  showError message a.

(** [startWriteLoop] of render [r]. *)
Definition startWriteLoop (r : ReactState) (st : World) : World :=
  if isDisconnecting r || isConnecting r then st
  else
    Service.startCommandLoop currentCommand reportError (Some 50)
                             (Service.stopCommandLoop st).

(** The [finally] block of [connect]. *)
Definition connect_finally (st : World) : World :=
  on (setIsConnecting false) st.

(** [connect] of render [r], up to
    [await bleServiceRef.current.connect(...)]. *)
Definition connect (r : ReactState) (st : World) : World :=
  if isConnecting r || isDisconnecting r then st
  else if negb (navigator_bluetooth (Service.caller st)) then
    on (showError no_web_bluetooth) st
  else
    let st := on (set_userDisconnectRef false) st in
    let st := Service.stopCommandLoop st in
    let st := on (setIsConnecting true) st in
    Service.connect AppHandlers (ConnectAwaitsService r) st.

(** [connect] of render [r] after that [await]. *)
Definition connect_after (r : ReactState) (c : Completion unit)
           (st : World) : World :=
  match c with
  | Normal _ =>
      let st := on (setIsConnected true) st in
      let st := startWriteLoop r st in
      connect_finally st
  | Throw connectError =>
      let st := Service.record (ConsoleError connectError) st in
      if isUserCancelledError connectError then connect_finally st
      else
        let st := on (showError (message connectError)) st in
        let st := on (setIsConnected false) st in
        match disconnectDevice (Some r) st with
        | (st, true) => connect_finally st
        | (st, false) => st
        end
  end.

Definition resume (a : Awaiter) (c : Completion unit) (st : World) : World :=
  match a with
  | ConnectAwaitsService r => connect_after r c st
  | DisconnectDeviceAwaits from =>
      let st := disconnectDevice_after st in
      match from with
      | Some _ => connect_finally st
      | None => st
      end
  end.

(** *** Rendering and events *)

(** React calls the queued updaters, oldest first. *)
Definition call_updaters (a : AppData) : AppData :=
  set_updates [] (fold_left (fun a u => call_updater u a) (updates a) a).

(** A render: React calls the queued updaters, the functions of the
    component are created anew over the resulting state, and the effect
    [commandRef.current = command] runs (when [command] has not changed
    the ref holds that value already). *)
Definition rendering (a : AppData) : AppData :=
  let a := call_updaters a in
  set_commandRef (command (state a)) (set_rendered (state a) a).

Definition render (st : World) : World := on rendering st.

Definition connectionBusy (r : ReactState) : bool :=
  isConnecting r || isDisconnecting r.

(** [onClick] of the button of the last render. *)
Definition onClick (st : World) : World :=
  let r := rendered (Service.caller st) in
  if isConnected r then fst (disconnectDevice None st) else connect r st.

Inductive Event : Type :=
| Click                                     (* the user clicks the button *)
| Render                                    (* React renders pending updates *)
| VelocityJoystick (vx vy : number) (eager : bool)
                                            (* [onChange] of the joysticks *)
| YawJoystick (w : number) (eager : bool)
| IntervalFires (id : TimerId)
| Settles (p : PromiseId) (outcome : Completion Value)
| LinkLost (dev : nat)
| Notified (chr : nat) (value : option DataView.t).

(** One event.  The button is [disabled] while [connectionBusy]; the
    updates made by a click handler before it returns are rendered before
    the next event is handled, those made later, and those that a joystick
    asks for, are rendered when React gets to it ([Render]). *)
Definition step (st : World) (e : Event) : World :=
  match e with
  | Click =>
      if connectionBusy (rendered (Service.caller st)) then st
      else render (onClick st)
  | Render => render st
  | VelocityJoystick vx vy eager => on (setCommandVelocities vx vy eager) st
  | YawJoystick w eager => on (setCommandYaw w eager) st
  | IntervalFires id => Service.intervalFires id st
  | Settles p outcome => Service.settles handlersOf resume p outcome st
  | LinkLost dev => Service.linkLost handlersOf dev st
  | Notified chr value => Service.notified handlersOf chr value st
  end.

Definition run (st : World) (es : list Event) : World := fold_left step es st.

Definition zero : number := S754_zero false.

Definition initial_state : ReactState :=
  {| command := {| vx := zero; vy := zero; w := zero |};
     isConnecting := false; isDisconnecting := false; isConnected := false |}.

Definition initial_data (bluetooth : bool) : AppData :=
  {| state := initial_state; rendered := initial_state; updates := [];
     userDisconnectRef := false;
     commandRef := {| vx := zero; vy := zero; w := zero |};
     history := []; alerts := []; navigator_bluetooth := bluetooth |}.

Definition initial (bluetooth : bool) : World :=
  Service.new_world HandlersRef Awaiter (initial_data bluetooth).

Definition reachable (st : World) : Prop :=
  exists bluetooth es, st = run (initial bluetooth) es.

(** The callers that await the service.  Those of the first kind are the
    invocations of [connect] that have passed its guard and have not
    finished. *)
Definition awaiters (st : World) : list Awaiter :=
  map (@Service.connectAwaiter _ _) (Service.connecting st)
  ++ map (@Service.disconnectAwaiter _) (Service.disconnecting st).

Definition awaits_in_connect (a : Awaiter) : bool :=
  match a with
  | ConnectAwaitsService _ => true
  | DisconnectDeviceAwaits (Some _) => true
  | DisconnectDeviceAwaits None => false
  end.

Definition connects_in_flight (st : World) : nat :=
  List.length (filter awaits_in_connect (awaiters st)).

(** The sessions of the link manager: those that are being opened (the
    calls of [connect] that have passed its guard and have not finished),
    and the one that the service holds, while its GATT server is
    connected. *)
Definition active_session (st : World) : nat :=
  match Service.server (Service.service st) with
  | Some s => if Service.connected s st then 1 else 0
  | None => 0
  end.

Definition sessions (st : World) : nat :=
  connects_in_flight st + active_session st.

(** What the guard of [connect] relies on: the frames of the awaited calls
    and the two copies of [isConnecting] and [isDisconnecting]. *)
Definition flags (a : AppData) : bool * bool * bool * bool :=
  (isConnecting (state a), isConnecting (rendered a),
   isDisconnecting (state a), isDisconnecting (rendered a)).

Definition frames_and_flags (st : World)
  : list (Service.ConnectFrame HandlersRef Awaiter)
    * list (Service.DisconnectFrame Awaiter) * (bool * bool * bool * bool) :=
  (Service.connecting st, Service.disconnecting st, flags (Service.caller st)).

(** The flag that is set while [a] awaits. *)
Definition flag_of (a : Awaiter) (r : ReactState) : bool :=
  if awaits_in_connect a then isConnecting r else isDisconnecting r.

(** At most one call of the service is awaited, and while one is, the flag
    of the caller that awaits it is set, in the state and in the last
    render. *)
Definition guarded (st : World) : Prop :=
  (List.length (awaiters st) <= 1)%nat
  /\ Forall (fun a => flag_of a (state (Service.caller st)) = true
                     /\ flag_of a (rendered (Service.caller st)) = true)
            (awaiters st).

(** Every loop of the service was started by [startWriteLoop]. *)
Definition loops_of_app (st : World) : Prop :=
  Forall (fun t => Service.onError (snd t) = reportError)
         (Service.intervals (Service.platform st))
  /\ Forall (fun t => Service.reportTo t = reportError) (Service.sending st).

(** A step from [st] to [st'] is quiet when it leaves the awaited calls and
    the four flags as they are, and the loops those of the component; it is
    calm when it leaves the awaited calls as they are. *)
Definition quiet (st st' : World) : Prop :=
  loops_of_app st ->
  frames_and_flags st' = frames_and_flags st /\ loops_of_app st'.

Definition calm (st st' : World) : Prop :=
  loops_of_app st ->
  Service.connecting st' = Service.connecting st
  /\ Service.disconnecting st' = Service.disconnecting st
  /\ loops_of_app st'.

(** No call of the service is awaited. *)
Definition idle (st : World) : Prop :=
  Service.connecting st = [] /\ Service.disconnecting st = [].

(** The invariant of the component. *)
Definition inv (st : World) : Prop := guarded st /\ loops_of_app st.

(** A step from [st] to [st'] keeps a property [P] of the component's data
    when [P] holds after it if it held before. *)
Definition keeps (P : AppData -> Prop) (st st' : World) : Prop :=
  P (Service.caller st) -> P (Service.caller st').

(** What the updaters of [command] do not touch: the other states and
    refs. *)
Definition beside_command (a : AppData)
  : bool * bool * bool * ReactState * bool * list Odometry * list string
    * bool :=
  (isConnecting (state a), isDisconnecting (state a), isConnected (state a),
   rendered a, userDisconnectRef a, history a, alerts a,
   navigator_bluetooth a).

(** The command that React holds once it has called the queued updaters. *)
Definition pending_command (a : AppData) : Command :=
  command (state (call_updaters a)).

(** [rendering], written out field by field. *)
Definition after_render (a : AppData) : AppData :=
  let s := {| command := pending_command a;
              isConnecting := isConnecting (state a);
              isDisconnecting := isDisconnecting (state a);
              isConnected := isConnected (state a) |} in
  {| state := s; rendered := s; updates := [];
     userDisconnectRef := userDisconnectRef a;
     commandRef := pending_command a;
     history := history a; alerts := alerts a;
     navigator_bluetooth := navigator_bluetooth a |}.

(** [commandRef] holds the command of the state. *)
Definition synced (a : AppData) : Prop := commandRef a = command (state a).

Definition is_click (e : Event) : bool :=
  match e with
  | Click => true
  | _ => false
  end.

(** The events that are reports of the joysticks. *)
Definition is_report (e : Event) : bool :=
  match e with
  | VelocityJoystick _ _ _ | YawJoystick _ _ => true
  | _ => false
  end.

(** The state of a component that runs where Web Bluetooth is missing:
    the service and the platform are as they were created, and no flag is
    set. *)
Definition untouched (st : World) : Prop :=
  Service.service st = Service.new_service HandlersRef
  /\ Service.platform st = Service.new_platform AppData HandlersRef
  /\ Service.sending st = []
  /\ Service.connecting st = []
  /\ Service.disconnecting st = []
  /\ navigator_bluetooth (Service.caller st) = false
  /\ (isConnecting (state (Service.caller st)),
      isDisconnecting (state (Service.caller st)),
      isConnected (state (Service.caller st))) = (false, false, false)
  /\ (isConnecting (rendered (Service.caller st)),
      isDisconnecting (rendered (Service.caller st)),
      isConnected (rendered (Service.caller st))) = (false, false, false).

End App.

(** ** Arithmetic on numbers

    The operators and the [Math] functions that the joysticks use, on
    binary64 values (round to nearest, ties to even). *)

Module Number.

Definition add (a b : number) : number := SFadd prec64 emax64 a b.
Definition sub (a b : number) : number := SFsub prec64 emax64 a b.
Definition mul (a b : number) : number := SFmul prec64 emax64 a b.
Definition div (a b : number) : number := SFdiv prec64 emax64 a b.
Definition neg (a : number) : number := SFopp a.
Definition lt (a b : number) : bool := SFltb a b.

(** The number that an integer literal denotes. *)
Definition of_int (z : Z) : number := binary_normalize prec64 emax64 z 0 false.

Definition zero : number := S754_zero false.
Definition one : number := S754_finite false 4503599627370496 (-52).
Definition two : number := S754_finite false 4503599627370496 (-51).
Definition twelve : number := S754_finite false 6755399441055744 (-49).
Definition fifty : number := S754_finite false 7036874417766400 (-47).
Definition n_152 : number := S754_finite false 5348024557502464 (-45).

(** 0.15, that is the binary64 value nearest to it. *)
Definition n_0_15 : number := S754_finite false 5404319552844595 (-55).

(** [Math.min(a, b)] and [Math.max(a, b)]: NaN when an argument is NaN,
    and -0 is taken to be less than +0. *)
Definition Math_min (a b : number) : number :=
  if isNaN a || isNaN b then S754_nan
  else if lt b a then b
  else match a, b with
       | S754_zero false, S754_zero true => b
       | _, _ => a
       end.

Definition Math_max (a b : number) : number :=
  if isNaN a || isNaN b then S754_nan
  else if lt a b then b
  else match a, b with
       | S754_zero true, S754_zero false => b
       | _, _ => a
       end.

End Number.

(** ** [YawJoystick.tsx] *)

Module YawJoystick.

Import Number.

Definition DEFAULT_MAX_YAW_RATE : number := one.

(** What the component reads of [track.getBoundingClientRect()] and of a
    pointer event. *)
Record DOMRect : Type := { left : number; width : number }.
Record PointerEvent : Type := { pointerId : nat; clientX : number }.

(** The inline style the component gives the knob: [transition], and
    [left] as a percentage. *)
Record KnobStyle : Type := { transition : string; leftPercent : number }.

(** The refs of the component: [activeRef], [posRef], the knob ([None]
    when [knobRef.current] is null), and the pointer that the track has
    captured. *)
Record Refs : Type :=
  { activeRef : bool;
    posRef : number;
    knob : option KnobStyle;
    capture : option nat }.

Definition set_activeRef (v : bool) (j : Refs) : Refs :=
  {| activeRef := v; posRef := posRef j; knob := knob j;
     capture := capture j |}.

Definition set_posRef (v : number) (j : Refs) : Refs :=
  {| activeRef := activeRef j; posRef := v; knob := knob j;
     capture := capture j |}.

Definition set_capture (v : option nat) (j : Refs) : Refs :=
  {| activeRef := activeRef j; posRef := posRef j; knob := knob j;
     capture := v |}.

(** An assignment to a property of [knobRef.current.style], guarded by
    [if (knobRef.current)]. *)
Definition style (f : KnobStyle -> KnobStyle) (j : Refs) : Refs :=
  {| activeRef := activeRef j; posRef := posRef j;
     knob := option_map f (knob j); capture := capture j |}.

Definition set_transition (v : string) (k : KnobStyle) : KnobStyle :=
  {| transition := v; leftPercent := leftPercent k |}.

Definition set_left (v : number) (k : KnobStyle) : KnobStyle :=
  {| transition := transition k; leftPercent := v |}.

(** [reset]; the second component is the argument of the call of
    [onChangeRef.current]. *)
Definition reset (j : Refs) : Refs * option number :=
  let j := set_activeRef false j in
  let j := set_posRef zero j in
  let j := style (set_transition "left 120ms ease") j in
  let j := style (set_left fifty) j in
  (j, Some zero).

(** The argument of [Math.min] in [handlePointer]. *)
Definition ratio (rect : DOMRect) (event : PointerEvent) : number :=
  let offsetX := sub (clientX event) (left rect) in
  div (sub offsetX (div (width rect) two)) (div (width rect) two).

(** [handlePointer]; [track] is [None] when [trackRef.current] is null, and
    else the rectangle of the track. *)
Definition handlePointer (track : option DOMRect) (event : PointerEvent)
           (j : Refs) : Refs * option number :=
  match track with
  | None => (j, None)
  | Some rect =>
      let normalized :=
        Math_max (neg one) (Math_min one (ratio rect event)) in
      let j := set_posRef normalized j in
      let j := style (set_left (mul (add normalized one) fifty)) j in
      (j, Some (mul (mul normalized DEFAULT_MAX_YAW_RATE) (neg one)))
  end.

(** The pointer handlers of the track. *)
Definition onPointerDown (track : option DOMRect) (event : PointerEvent)
           (j : Refs) : Refs * option number :=
  let j := set_activeRef true j in
  let j := style (set_transition "none") j in
  let j := set_capture (Some (pointerId event)) j in
  handlePointer track event j.

Definition onPointerMove (track : option DOMRect) (event : PointerEvent)
           (j : Refs) : Refs * option number :=
  if negb (activeRef j) then (j, None) else handlePointer track event j.

Definition onPointerUp (event : PointerEvent) (j : Refs)
  : Refs * option number :=
  let j := set_activeRef false j in
  let j :=
    match capture j with
    | Some id => if Nat.eqb id (pointerId event) then set_capture None j
                 else j
    | None => j
    end in
  reset j.

Definition onPointerLeave (j : Refs) : Refs * option number :=
  if activeRef j then reset j else (j, None).

Definition onPointerCancel (j : Refs) : Refs * option number :=
  if activeRef j then reset j else (j, None).

Inductive Event : Type :=
| PointerDown (track : option DOMRect) (event : PointerEvent)
| PointerMove (track : option DOMRect) (event : PointerEvent)
| PointerUp (event : PointerEvent)
| PointerLeave
| PointerCancel.

Definition step (j : Refs) (e : Event) : Refs * option number :=
  match e with
  | PointerDown track event => onPointerDown track event j
  | PointerMove track event => onPointerMove track event j
  | PointerUp event => onPointerUp event j
  | PointerLeave => onPointerLeave j
  | PointerCancel => onPointerCancel j
  end.

(** The component when it is mounted. *)
Definition initial : Refs :=
  {| activeRef := false; posRef := zero;
     knob := Some {| transition := "left 120ms ease"; leftPercent := fifty |};
     capture := None |}.

End YawJoystick.

(** ** [VelocityJoystick.tsx] *)

Module VelocityJoystick.

Import Number.

Definition JOYSTICK_SIZE : number := n_152.
Definition JOYSTICK_RADIUS : number := sub (div JOYSTICK_SIZE two) twelve.
Definition DEFAULT_MAX_SPEED : number := n_0_15.

Record DOMRect : Type :=
  { left : number; top : number; width : number; height : number }.
Record PointerEvent : Type :=
  { pointerId : nat; clientX : number; clientY : number }.

(** The inline style the component gives the knob: [transition], and the
    offset added to its [transform] ([None] when the transform is only
    [translate(-50%, -50%)]). *)
Record KnobStyle : Type :=
  { transition : string; translate : option (number * number) }.

Record Refs : Type :=
  { activeRef : bool;
    posRef : number * number;
    knob : option KnobStyle;
    capture : option nat }.

Definition set_activeRef (v : bool) (j : Refs) : Refs :=
  {| activeRef := v; posRef := posRef j; knob := knob j;
     capture := capture j |}.

Definition set_posRef (v : number * number) (j : Refs) : Refs :=
  {| activeRef := activeRef j; posRef := v; knob := knob j;
     capture := capture j |}.

Definition set_capture (v : option nat) (j : Refs) : Refs :=
  {| activeRef := activeRef j; posRef := posRef j; knob := knob j;
     capture := v |}.

Definition style (f : KnobStyle -> KnobStyle) (j : Refs) : Refs :=
  {| activeRef := activeRef j; posRef := posRef j;
     knob := option_map f (knob j); capture := capture j |}.

Definition set_transition (v : string) (k : KnobStyle) : KnobStyle :=
  {| transition := v; translate := translate k |}.

Definition set_transform (v : option (number * number)) (k : KnobStyle)
  : KnobStyle :=
  {| transition := transition k; translate := v |}.

(** [reset]; the second component holds the arguments of the call of
    [onChangeRef.current]. *)
Definition reset (j : Refs) : Refs * option (number * number) :=
  let j := set_activeRef false j in
  let j := set_posRef (zero, zero) j in
  let j := style (set_transition "transform 120ms ease") j in
  let j := style (set_transform None) j in
  (j, Some (zero, zero)).

Section Math.

(** [Math.hypot], [Math.atan2], [Math.cos] and [Math.sin], whose results
    the language leaves to the implementation. *)
Variable Math_hypot : number -> number -> number.
Variable Math_atan2 : number -> number -> number.
Variable Math_cos : number -> number.
Variable Math_sin : number -> number.

(** [handlePointer]; [surface] is [None] when [surfaceRef.current] is
    null, and else the rectangle of the surface. *)
Definition handlePointer (surface : option DOMRect) (event : PointerEvent)
           (j : Refs) : Refs * option (number * number) :=
  match surface with
  | None => (j, None)
  | Some rect =>
      let offsetX :=
        sub (sub (clientX event) (left rect)) (div (width rect) two) in
      let offsetY :=
        sub (sub (clientY event) (top rect)) (div (height rect) two) in
      let distance := Math_hypot offsetX offsetY in
      let angle := Math_atan2 offsetY offsetX in
      let clampedDistance := Math_min distance JOYSTICK_RADIUS in
      let clampedX := mul (Math_cos angle) clampedDistance in
      let clampedY := mul (Math_sin angle) clampedDistance in
      let normalizedX := div clampedX JOYSTICK_RADIUS in
      let normalizedY := div clampedY JOYSTICK_RADIUS in
      let nextVx := mul normalizedX DEFAULT_MAX_SPEED in
      let nextVy := mul (neg normalizedY) DEFAULT_MAX_SPEED in
      let j := set_posRef (clampedX, clampedY) j in
      let j := style (set_transform (Some (clampedX, clampedY))) j in
      (j, Some (nextVx, nextVy))
  end.

Definition onPointerDown (surface : option DOMRect) (event : PointerEvent)
           (j : Refs) : Refs * option (number * number) :=
  let j := set_activeRef true j in
  let j := style (set_transition "none") j in
  let j := set_capture (Some (pointerId event)) j in
  handlePointer surface event j.

Definition onPointerMove (surface : option DOMRect) (event : PointerEvent)
           (j : Refs) : Refs * option (number * number) :=
  if negb (activeRef j) then (j, None) else handlePointer surface event j.

Definition onPointerUp (event : PointerEvent) (j : Refs)
  : Refs * option (number * number) :=
  let j := set_activeRef false j in
  let j :=
    match capture j with
    | Some id => if Nat.eqb id (pointerId event) then set_capture None j
                 else j
    | None => j
    end in
  reset j.

Definition onPointerLeave (j : Refs) : Refs * option (number * number) :=
  if activeRef j then reset j else (j, None).

Definition onPointerCancel (j : Refs) : Refs * option (number * number) :=
  if activeRef j then reset j else (j, None).

Inductive Event : Type :=
| PointerDown (surface : option DOMRect) (event : PointerEvent)
| PointerMove (surface : option DOMRect) (event : PointerEvent)
| PointerUp (event : PointerEvent)
| PointerLeave
| PointerCancel.

Definition step (j : Refs) (e : Event) : Refs * option (number * number) :=
  match e with
  | PointerDown surface event => onPointerDown surface event j
  | PointerMove surface event => onPointerMove surface event j
  | PointerUp event => onPointerUp event j
  | PointerLeave => onPointerLeave j
  | PointerCancel => onPointerCancel j
  end.

End Math.

Definition initial : Refs :=
  {| activeRef := false; posRef := (zero, zero);
     knob := Some {| transition := "transform 120ms ease";
                     translate := None |};
     capture := None |}.

End VelocityJoystick.

(** ** The component with its two joysticks

    [App] renders a [YawJoystick] with [onChange={setCommandYaw}] and a
    [VelocityJoystick] with [onChange={setCommandVelocities}]; what a
    joystick reports reaches the component through these, as an updater
    given to [setCommand]. *)

Module Controls.

Section Math.

Variable Math_hypot : number -> number -> number.
Variable Math_atan2 : number -> number -> number.
Variable Math_cos : number -> number.
Variable Math_sin : number -> number.

Record Panel : Type :=
  { app : App.World;
    yaw : YawJoystick.Refs;
    velocity : VelocityJoystick.Refs }.

(** What happens to the panel: a pointer event at a joystick ([eager]
    tells whether React calls the updater of its report at once, see
    [App.setCommand]), or one of the events of the component other than the
    reports of the joysticks. *)
Inductive Event : Type :=
| AtYaw (e : YawJoystick.Event) (eager : bool)
| AtVelocity (e : VelocityJoystick.Event) (eager : bool)
| Click
| Render
| IntervalFires (id : TimerId)
| Settles (p : PromiseId) (outcome : Completion Value)
| LinkLost (dev : nat)
| Notified (chr : nat) (value : option DataView.t).

Definition on_app (e : App.Event) (c : Panel) : Panel :=
  {| app := App.step (app c) e; yaw := yaw c; velocity := velocity c |}.

Definition step (c : Panel) (e : Event) : Panel :=
  match e with
  | AtYaw e eager =>
      let '(j, report) := YawJoystick.step (yaw c) e in
      {| app := match report with
                | Some w => App.step (app c) (App.YawJoystick w eager)
                | None => app c
                end;
         yaw := j; velocity := velocity c |}
  | AtVelocity e eager =>
      let '(j, report) :=
        VelocityJoystick.step Math_hypot Math_atan2 Math_cos Math_sin
                              (velocity c) e in
      {| app := match report with
                | Some (vx, vy) =>
                    App.step (app c) (App.VelocityJoystick vx vy eager)
                | None => app c
                end;
         yaw := yaw c; velocity := j |}
  | Click => on_app App.Click c
  | Render => on_app App.Render c
  | IntervalFires id => on_app (App.IntervalFires id) c
  | Settles p outcome => on_app (App.Settles p outcome) c
  | LinkLost dev => on_app (App.LinkLost dev) c
  | Notified chr value => on_app (App.Notified chr value) c
  end.

Definition run (c : Panel) (es : list Event) : Panel := fold_left step es c.

Definition initial (bluetooth : bool) : Panel :=
  {| app := App.initial bluetooth; yaw := YawJoystick.initial;
     velocity := VelocityJoystick.initial |}.




End Math.

End Controls.

(** ** Concrete values, states and runs used below *)

Module Examples.

(** 1.5, -2.25 and 0 as numbers, and 1.5, -2.25 as binary32 values. *)
Definition n_1_5 : number := S754_finite false 6755399441055744 (-52).
Definition n_minus_2_25 : number := S754_finite true 5066549580791808 (-51).
Definition n_0 : number := S754_zero false.
Definition f_1_5 : spec_float := S754_finite false 12582912 (-23).
Definition f_minus_2_25 : spec_float := S754_finite true 9437184 (-22).

Local Open Scope nat_scope.

(** A rover: its device, GATT server, service and characteristic. *)
Definition rover : Device := {| deviceId := 7; hasGatt := true |}.
Definition rover_server : Server := {| serverDevice := 7 |}.
Definition rover_service : GattService := {| serviceDevice := 7 |}.
Definition rover_characteristic : Characteristic :=
  {| characteristicId := 3; characteristicDevice := 7;
     hasWriteValueWithoutResponse := true |}.

Definition done : Completion Value := Normal VUndefined.

(** The user connects, and every step of [connect] succeeds; the promises
    are numbered from [p]. *)
Definition connects_from (p : PromiseId) : list App.Event :=
  [App.Click;
   App.Settles p (Normal (VDevice rover));
   App.Settles (p + 1) (Normal (VServer rover_server));
   App.Settles (p + 2) (Normal (VService rover_service));
   App.Settles (p + 3) (Normal (VCharacteristic rover_characteristic));
   App.Settles (p + 4) done;
   App.Render].

(** The user connects; the write of the first tick (promise 5) hangs.  The
    user disconnects and connects again; the second loop (timer 2) sends
    (promise 12); the first write settles at last.  Then timer 2 fires
    again. *)
Definition stale_tick : list App.Event :=
  connects_from 0
  ++ [App.IntervalFires 1; App.Click; App.Settles 6 done; App.Render]
  ++ connects_from 7
  ++ [App.IntervalFires 2; App.Settles 5 done].

Definition stale_tick_race : list App.Event :=
  stale_tick ++ [App.IntervalFires 2].

(** The user connects; the GATT server opens but the service is not found;
    [connect] tears the session down with [disconnectDevice]. *)
Definition partial_open : list App.Event :=
  [App.Click;
   App.Settles 0 (Normal (VDevice rover));
   App.Settles 1 (Normal (VServer rover_server));
   App.Settles 2 (Throw (Error "No Services matching UUID found in Device."));
   App.Render].

(** The user connects; the loop starts; the write of its first tick is
    rejected. *)
Definition write_rejected : list App.Event :=
  connects_from 0
  ++ [App.IntervalFires 1;
      App.Settles 5 (Throw (Error "GATT operation failed for unknown reason."))].

(** The user dismisses the device chooser. *)
Definition chooser_dismissed : list App.Event :=
  [App.Click;
   App.Settles 0 (Throw {| name := "NotFoundError";
                           message := "User cancelled the requestDevice() chooser." |});
   App.Render].

(** Two more rovers. *)
Definition second_rover : Device := {| deviceId := 8; hasGatt := true |}.
Definition second_server : Server := {| serverDevice := 8 |}.
Definition second_service : GattService := {| serviceDevice := 8 |}.
Definition second_characteristic : Characteristic :=
  {| characteristicId := 4; characteristicDevice := 8;
     hasWriteValueWithoutResponse := true |}.
Definition third_rover : Device := {| deviceId := 9; hasGatt := true |}.
Definition third_server : Server := {| serverDevice := 9 |}.
Definition third_service : GattService := {| serviceDevice := 9 |}.
Definition third_characteristic : Characteristic :=
  {| characteristicId := 5; characteristicDevice := 9;
     hasWriteValueWithoutResponse := true |}.

(** After [partial_open] the user connects to the second rover, and every
    step succeeds. *)
Definition second_open : list App.Event :=
  partial_open
  ++ [App.Click;
      App.Settles 3 (Normal (VDevice second_rover));
      App.Settles 4 (Normal (VServer second_server));
      App.Settles 5 (Normal (VService second_service));
      App.Settles 6 (Normal (VCharacteristic second_characteristic));
      App.Settles 7 done;
      App.Render].

(** Then the connection to the first rover, which [partial_open] left
    open, drops. *)
Definition first_rover_drops : list App.Event :=
  second_open ++ [App.LinkLost 7; App.Render].

(** The user clicks the button again and picks the third rover; every step
    succeeds. *)
Definition third_open : list App.Event :=
  [App.Settles 8 (Normal (VDevice third_rover));
   App.Settles 9 (Normal (VServer third_server));
   App.Settles 10 (Normal (VService third_service));
   App.Settles 11 (Normal (VCharacteristic third_characteristic));
   App.Settles 12 done;
   App.Render].

(** The user connects, then disconnects. *)
Definition full_session : list App.Event :=
  connects_from 0 ++ [App.Click; App.Settles 5 done; App.Render].

(** A caller of the service whose state is the list of the messages it was
    given, and whose command is constant. *)
Definition Log : Type := list string.

Definition log_handlers (h : unit) : Service.BleHandlers Log unit unit :=
  {| Service.onNotify := fun _ st => st; Service.onDisconnect := fun st => st |}.

Definition log_resume (a : unit) (c : Completion unit)
           (st : Service.World Log unit unit) : Service.World Log unit unit :=
  st.

Definition nan_command : Command := {| vx := S754_nan; vy := n_0; w := n_0 |}.

Definition log_error (message : string) (l : Log) : Log := message :: l.

(** The component after the first click: a [connect] is in flight. *)
Definition connecting_app : App.World := App.run (App.initial true) [App.Click].

(** A service on which a loop was started whose command has a NaN field. *)
Definition nan_loop : Service.World Log unit unit :=
  Service.startCommandLoop (fun _ => nan_command) log_error None
                           (Service.new_world unit unit []).

(** A service that holds a session with the rover and runs a loop whose
    command is constant; no write is in flight. *)
Definition cruise : Command :=
  {| vx := n_1_5; vy := n_minus_2_25; w := n_0 |}.

Definition ready : Service.World Log unit unit :=
  Service.with_service
    (Service.set_session (Some rover) (Some rover_server)
                         (Some rover_characteristic)
                         (Some rover_characteristic))
    (Service.startCommandLoop (fun _ => cruise) log_error None
                              (Service.new_world unit unit [])).

(** The component while the last step of [connect] is awaited, and once
    the session is open. *)
Definition starting_notifications : App.World :=
  App.run (App.initial true)
          [App.Click;
           App.Settles 0 (Normal (VDevice rover));
           App.Settles 1 (Normal (VServer rover_server));
           App.Settles 2 (Normal (VService rover_service));
           App.Settles 3 (Normal (VCharacteristic rover_characteristic))].

Definition connected_app : App.World :=
  App.run (App.initial true) (connects_from 0).

(** A track of the yaw joystick, 200 wide with its left edge at 10, and a
    pointer at the horizontal position [x]. *)
Definition track : YawJoystick.DOMRect :=
  {| YawJoystick.left := Number.of_int 10;
     YawJoystick.width := Number.of_int 200 |}.

Definition pointer_at (x : Z) : YawJoystick.PointerEvent :=
  {| YawJoystick.pointerId := 0; YawJoystick.clientX := Number.of_int x |}.

End Examples.

(** * Properties *)

Ltac owned := unfold Service.timers_owned in *; cbn in *; auto.

(** ** The binary32 format *)

Module Float32Facts.

Import DataView.

Lemma digits2_pos_size p : digits2_pos p = Pos.size p.
Proof. induction p; simpl; congruence. Qed.

Lemma digits2_bounds p : 2 ^ (Zpos (digits2_pos p) - 1) <= Zpos p < 2 ^ Zpos (digits2_pos p).
Proof.
  induction p as [p IH|p IH|]; simpl digits2_pos.
  - rewrite Pos2Z.inj_succ. replace (Z.succ (Zpos (digits2_pos p)) - 1) with (Zpos (digits2_pos p)) by lia.
    rewrite Z.pow_succ_r by lia.
    assert (2 ^ Zpos (digits2_pos p) = 2 * 2 ^ (Zpos (digits2_pos p) - 1)).
    { rewrite <- Z.pow_succ_r by lia. f_equal. lia. }
    lia.
  - rewrite Pos2Z.inj_succ. replace (Z.succ (Zpos (digits2_pos p)) - 1) with (Zpos (digits2_pos p)) by lia.
    rewrite Z.pow_succ_r by lia.
    assert (2 ^ Zpos (digits2_pos p) = 2 * 2 ^ (Zpos (digits2_pos p) - 1)).
    { rewrite <- Z.pow_succ_r by lia. f_equal. lia. }
    lia.
  - simpl. lia.
Qed.

Lemma iter_pos_shift (A : Type) (f : A -> A) n x : iter_pos f n (f x) = f (iter_pos f n x).
Proof.
  revert x. induction n as [n IH|n IH|]; intros x; simpl.
  - now rewrite !IH.
  - now rewrite !IH.
  - reflexivity.
Qed.

Lemma iter_pos_succ (A : Type) (f : A -> A) n x : iter_pos f (Pos.succ n) x = f (iter_pos f n x).
Proof.
  revert x. induction n as [n IH|n IH|]; intros x; simpl.
  - rewrite !IH. now rewrite !iter_pos_shift.
  - now rewrite !iter_pos_shift.
  - reflexivity.
Qed.

Lemma digits2_pos_shl m k :
  digits2_pos (Pos.iter xO m k) = (digits2_pos m + k)%positive.
Proof.
  induction k as [|k IH] using Pos.peano_ind.
  - simpl. now rewrite Pos.add_1_r.
  - rewrite Pos.iter_succ. simpl. rewrite IH. now rewrite Pos.add_succ_r.
Qed.

Lemma shr_shl m k :
  iter_pos shr_1 k (exact_record (Pos.iter xO m k)) = exact_record m.
Proof.
  induction k as [|k IH] using Pos.peano_ind.
  - reflexivity.
  - rewrite iter_pos_succ, <- iter_pos_shift, Pos.iter_succ. exact IH.
Qed.

Lemma shl_align_lt m e e' :
  e' < e -> shl_align m e e' = (Pos.iter xO m (Z.to_pos (e - e')), e').
Proof.
  intros H. unfold shl_align.
  destruct (e' - e) as [|p|p] eqn:E; try lia.
  replace (e - e') with (Zpos p) by lia. reflexivity.
Qed.

Lemma shl_align_ge m e e' : e <= e' -> shl_align m e e' = (m, e).
Proof.
  intros H. unfold shl_align. destruct (e' - e) as [|p|p] eqn:E; try lia; reflexivity.
Qed.

Lemma shr_pos mrs e n :
  0 < n -> shr mrs e n = (iter_pos shr_1 (Z.to_pos n) mrs, e + n).
Proof. intros H. destruct n; try lia. reflexivity. Qed.

Lemma binary_round_aux_canonical prec emax s m e :
  canonical_mantissa prec emax m e = true -> e <= emax - prec ->
  binary_round_aux prec emax s (Zpos m) e loc_Exact = S754_finite s m e.
Proof.
  intros Hc He. unfold canonical_mantissa in Hc. apply Z.eqb_eq in Hc.
  unfold binary_round_aux, shr_fexp. simpl Zdigits2. simpl shr_record_of_loc.
  rewrite Hc, Z.sub_diag.
  cbn [shr shr_m loc_of_shr_record round_nearest_even shr_record_of_loc Zdigits2].
  rewrite Hc, Z.sub_diag.
  cbn [shr shr_m].
  apply Z.leb_le in He. now rewrite He.
Qed.

Lemma float32_mantissa s m e :
  is_float32 (S754_finite s m e) = true ->
  Z.max (Zpos (digits2_pos m) + e - 24) (-149) = e /\ e <= 104.
Proof.
  unfold is_float32, valid_binary, bounded, canonical_mantissa, fexp, emin, prec32, emax32.
  intros H. apply andb_prop in H. destruct H as [H1 H2].
  apply Z.eqb_eq in H1. apply Z.leb_le in H2. split; [exact H1 | lia].
Qed.

Lemma widen_finite s m e :
  is_float32 (S754_finite s m e) = true ->
  let k := Z.to_pos (53 - Zpos (digits2_pos m)) in
  widen (S754_finite s m e) = S754_finite s (Pos.iter xO m k) (e - Zpos k).
Proof.
  intros H k. apply float32_mantissa in H. destruct H as [Hc He].
  assert (Hd : 0 < Zpos (digits2_pos m)) by lia.
  assert (Hk : Zpos k = 53 - Zpos (digits2_pos m)) by (unfold k; lia).
  assert (R : binary_round prec64 emax64 s m e = S754_finite s (Pos.iter xO m k) (e - Zpos k)).
  { unfold binary_round, fexp, emin, prec64, emax64.
    rewrite shl_align_lt by lia.
    replace (e - Z.max (Zpos (digits2_pos m) + e - 53) (3 - 1024 - 53)) with (Zpos k) by lia.
    replace (Z.max (Zpos (digits2_pos m) + e - 53) (3 - 1024 - 53)) with (e - Zpos k) by lia.
    rewrite Pos2Z.id.
    apply binary_round_aux_canonical; [|lia].
    unfold canonical_mantissa, fexp, emin. rewrite digits2_pos_shl.
    apply Z.eqb_eq. rewrite Pos2Z.inj_add. lia. }
  unfold widen, binary_normalize. destruct s; simpl cond_Zopp; exact R.
Qed.

Lemma fround_widen f :
  is_float32 f = true -> fround (widen f) = f.
Proof.
  destruct f as [s|s| |s m e]; try reflexivity.
  intros H. rewrite widen_finite by exact H.
  apply float32_mantissa in H. destruct H as [Hc He].
  set (k := Z.to_pos (53 - Zpos (digits2_pos m))).
  assert (Hk : Zpos k = 53 - Zpos (digits2_pos m)) by (unfold k; lia).
  assert (R : binary_round prec32 emax32 s (Pos.iter xO m k) (e - Zpos k) = S754_finite s m e).
  { unfold binary_round. rewrite digits2_pos_shl, Pos2Z.inj_add.
    assert (Hf : fexp prec32 emax32 (Zpos (digits2_pos m) + Zpos k + (e - Zpos k)) = e).
    { unfold fexp, emin, prec32, emax32. lia. }
    rewrite Hf, shl_align_ge by lia.
    unfold binary_round_aux at 1. unfold shr_fexp at 1.
    simpl Zdigits2. rewrite digits2_pos_shl, Pos2Z.inj_add, Hf.
    simpl shr_record_of_loc.
    rewrite shr_pos by lia.
    replace (e - (e - Zpos k)) with (Zpos k) by lia. rewrite Pos2Z.id.
    fold (exact_record (Pos.iter xO m k)). rewrite shr_shl.
    cbn [exact_record shr_m loc_of_shr_record round_nearest_even].
    replace (e - Z.pos k + Z.pos k) with e by lia.
    unfold shr_fexp. cbn [Zdigits2 shr_record_of_loc].
    replace (fexp prec32 emax32 (Zpos (digits2_pos m) + e)) with e
      by (unfold fexp, emin, prec32, emax32; lia).
    rewrite Z.sub_diag. cbn [shr shr_m].
    assert (Hle : (e <=? emax32 - prec32) = true) by (apply Z.leb_le; unfold emax32, prec32; lia).
    now rewrite Hle. }
  unfold fround, binary_normalize. destruct s; simpl cond_Zopp; exact R.
Qed.

Lemma sign_bit_fields s E F :
  0 <= E < 256 -> 0 <= F < 2 ^ 23 ->
  let x := sign_bit s + E * 2 ^ 23 + F in
  Z.odd (x / 2 ^ 31) = s /\ (x / 2 ^ 23) mod 256 = E /\ x mod 2 ^ 23 = F.
Proof.
  intros HE HF x. subst x. unfold sign_bit.
  change (2 ^ 31) with 2147483648. change (2 ^ 23) with 8388608 in *.
  destruct s.
  - assert (Hq : (2147483648 + E * 8388608 + F) / 2147483648 = 1)
      by (Z.div_mod_to_equations; lia).
    rewrite Hq. repeat split; try reflexivity; Z.div_mod_to_equations; lia.
  - assert (Hq : (0 + E * 8388608 + F) / 2147483648 = 0)
      by (Z.div_mod_to_equations; lia).
    rewrite Hq. repeat split; try reflexivity; Z.div_mod_to_equations; lia.
Qed.

Lemma float32_of_bits_of_float32 f :
  is_float32 f = true -> float32_of_bits (bits_of_float32 f) = f.
Proof.
  destruct f as [s|s| |s m e]; intros H.
  - destruct s; reflexivity.
  - destruct s; reflexivity.
  - reflexivity.
  - apply float32_mantissa in H. destruct H as [Hc He].
    pose proof (digits2_bounds m) as Hd.
    unfold bits_of_float32. destruct (Zpos m <? 2 ^ 23) eqn:Hm.
    + apply Z.ltb_lt in Hm.
      assert (Hdig : Zpos (digits2_pos m) <= 23).
      { destruct (Z_le_gt_dec (Zpos (digits2_pos m)) 23) as [L|G]; [exact L|].
        assert (2 ^ 23 <= 2 ^ (Zpos (digits2_pos m) - 1)) by (apply Z.pow_le_mono_r; lia).
        lia. }
      assert (e = -149) by lia. subst e.
      destruct (@sign_bit_fields s 0 (Zpos m)) as (E1 & E2 & E3); [lia | lia |].
      rewrite Z.mul_0_l, Z.add_0_r in E1, E2, E3.
      unfold float32_of_bits. rewrite E1, E2, E3. reflexivity.
    + apply Z.ltb_ge in Hm.
      assert (Hdig : Zpos (digits2_pos m) = 24).
      { destruct (Z_lt_le_dec (Zpos (digits2_pos m)) 24) as [L|G]; [|lia].
        assert (2 ^ Zpos (digits2_pos m) <= 2 ^ 23) by (apply Z.pow_le_mono_r; lia).
        lia. }
      rewrite Hdig in Hd. change (2 ^ 24) with (2 * 2 ^ 23) in Hd.
      destruct (@sign_bit_fields s (e + 150) (Zpos m - 2 ^ 23))
        as (E1 & E2 & E3); [lia | lia |].
      unfold float32_of_bits. rewrite E1, E2, E3.
      destruct (e + 150 =? 0) eqn:Z0; [apply Z.eqb_eq in Z0; lia|].
      destruct (e + 150 =? 255) eqn:Z1; [apply Z.eqb_eq in Z1; lia|].
      replace (Zpos m - 2 ^ 23 + 2 ^ 23) with (Zpos m) by lia.
      f_equal. lia.
Qed.

Lemma bits_of_float32_range f :
  is_float32 f = true -> 0 <= bits_of_float32 f < 2 ^ 32.
Proof.
  destruct f as [s|s| |s m e]; intros H.
  - destruct s; simpl; lia.
  - destruct s; simpl; lia.
  - simpl; lia.
  - apply float32_mantissa in H. destruct H as [Hc He].
    pose proof (digits2_bounds m) as Hd.
    assert (Hs : sign_bit s = 0 \/ sign_bit s = 2 ^ 31) by (destruct s; auto).
    assert (Hm : Zpos m < 2 ^ 24).
    { assert (2 ^ Zpos (digits2_pos m) <= 2 ^ 24) by (apply Z.pow_le_mono_r; lia). lia. }
    unfold bits_of_float32. change (2 ^ 32) with 4294967296.
    change (2 ^ 31) with 2147483648 in *. change (2 ^ 24) with 16777216 in *.
    change (2 ^ 23) with 8388608 in *.
    destruct (Zpos m <? 8388608) eqn:E; [apply Z.ltb_lt in E | apply Z.ltb_ge in E]; lia.
Qed.

Lemma Z_of_byte_of_Z z : Z_of_byte (byte_of_Z z) = z mod 256.
Proof.
  unfold Z_of_byte, byte_of_Z.
  assert (Hr : 0 <= z mod 256 < 256) by (apply Z.mod_pos_bound; lia).
  destruct (Byte.of_N (Z.to_N (z mod 256))) as [b|] eqn:E.
  - apply Byte.to_of_N in E. rewrite E. lia.
  - apply Byte.of_N_None_iff in E. lia.
Qed.

Lemma word_of_le_bytes_le x : 0 <= x < 2 ^ 32 -> word_of_le (bytes_le x) = x.
Proof.
  intros H. unfold word_of_le, bytes_le. cbn [fold_right].
  rewrite !Z_of_byte_of_Z.
  replace (x / 2 ^ 16) with (x / 256 / 256) by (rewrite Z.div_div by lia; reflexivity).
  replace (x / 2 ^ 24) with (x / 256 / 256 / 256) by (rewrite !Z.div_div by lia; reflexivity).
  change (2 ^ 32) with 4294967296 in H. change (2 ^ 8) with 256.
  Z.div_mod_to_equations. lia.
Qed.


(** The conversion to binary32 on some numbers: 0.1 and 0.3 (rounded),
    2^24 + 1 (a tie, rounded to even), 1e39 (overflow), the number half-way
    above the largest binary32 value (overflow), 1e-45 (rounded to the
    smallest subnormal), 1e-50 (underflow). *)
Example fround_values :
  map (fun v => bits_of_float32 (fround v))
      [S754_finite false 7205759403792794 (-56);
       S754_finite false 5404319552844595 (-54);
       S754_finite false 4503599895805952 (-28);
       S754_finite false 6617444900424221 77;
       S754_finite true 9007198986305536 75;
       S754_finite false 6427752177035961 (-202);
       S754_finite false 8424983333484575 (-219)]
  = [1036831949; 1050253722; 1266679808; 2139095040; 4286578688; 1; 0].
Proof. reflexivity. Qed.

End Float32Facts.

(** ** The wire codec *)

Module CodecFacts.

Import DataView Codec Float32Facts.

Lemma widen_is_number f : is_float32 f = true -> is_number (widen f) = true.
Proof.
  destruct f as [s|s| |s m e]; try reflexivity.
  intros H. rewrite widen_finite by exact H.
  apply float32_mantissa in H. destruct H as [Hc He].
  unfold is_number, valid_binary, bounded, canonical_mantissa, fexp, emin, prec64, emax64.
  rewrite digits2_pos_shl, Pos2Z.inj_add.
  apply andb_true_intro. split; [apply Z.eqb_eq | apply Z.leb_le]; lia.
Qed.

Lemma encodeCommand_bytes c :
  encodeCommand c =
  Normal (float32_le (vx c) ++ float32_le (vy c) ++ float32_le (w c)).
Proof. reflexivity. Qed.

Lemma getFloat32_le view off :
  in_bounds view off 4 = true ->
  getFloat32 view off true = Normal (float32_at view off).
Proof. intros H. unfold getFloat32. now rewrite H. Qed.

Lemma decodeOdometry_short view :
  (byteLength view < 12)%nat ->
  decodeOdometry view = Throw (Error "Notification payload shorter than 12 bytes.").
Proof.
  intros H. unfold decodeOdometry.
  apply Nat.ltb_lt in H. now rewrite H.
Qed.

Lemma decodeOdometry_long view :
  (12 <= byteLength view)%nat ->
  decodeOdometry view =
  Normal {| x := float32_at view 0; y := float32_at view 4; yaw := float32_at view 8 |}.
Proof.
  intros H. unfold decodeOdometry.
  assert (Hlt : (byteLength view <? 12)%nat = false) by (apply Nat.ltb_ge; exact H).
  rewrite Hlt.
  rewrite !getFloat32_le by (unfold in_bounds; apply Nat.leb_le; lia).
  reflexivity.
Qed.

Lemma float32_at_firstn view n off :
  (off + 4 <= n)%nat -> float32_at (firstn n view) off = float32_at view off.
Proof.
  intros H. unfold float32_at. do 3 f_equal.
  rewrite skipn_firstn_comm, firstn_firstn.
  f_equal. lia.
Qed.

Lemma float32_at_encoded v rest pre :
  is_float32 v = true ->
  float32_at (pre ++ float32_le (widen v) ++ rest) (List.length pre) = widen v.
Proof.
  intros H. unfold float32_at.
  rewrite skipn_app, skipn_all, Nat.sub_diag. cbn [app skipn].
  unfold float32_le. rewrite fround_widen by exact H.
  change (firstn 4 (bytes_le (bits_of_float32 v) ++ rest)) with (bytes_le (bits_of_float32 v)).
  rewrite word_of_le_bytes_le by (apply bits_of_float32_range; exact H).
  now rewrite float32_of_bits_of_float32.
Qed.


(** C2 (round trip).  For all finite binary32 values [a], [b], [c] (each
    is a number, [widen] gives it), decoding the buffer that [encodeCommand]
    produces for the command [{vx: a, vy: b, w: c}] gives the odometry
    [{x: a, y: b, yaw: c}], exactly. *)
Theorem decode_encode_roundtrip (a b c : spec_float) :
  is_float32 a = true -> is_finite a = true ->
  is_float32 b = true -> is_finite b = true ->
  is_float32 c = true -> is_finite c = true ->
  is_number (widen a) = true /\ is_number (widen b) = true
  /\ is_number (widen c) = true
  /\ Js.bind (encodeCommand {| vx := widen a; vy := widen b; w := widen c |})
             decodeOdometry
     = Normal {| x := widen a; y := widen b; yaw := widen c |}.
Proof.
  intros Ha _ Hb _ Hc _.
  split; [now apply widen_is_number|]. split; [now apply widen_is_number|].
  split; [now apply widen_is_number|].
  rewrite encodeCommand_bytes. cbn [Js.bind vx vy w].
  rewrite decodeOdometry_long by (cbn; lia).
  pose proof (@float32_at_encoded a (float32_le (widen b) ++ float32_le (widen c))
                [] Ha) as Ea.
  pose proof (@float32_at_encoded b (float32_le (widen c))
                (float32_le (widen a)) Hb) as Eb.
  pose proof (@float32_at_encoded c []
                (float32_le (widen a) ++ float32_le (widen b)) Hc) as Ec.
  rewrite app_nil_r, <- app_assoc in Ec.
  change (List.length (float32_le (widen a) ++ float32_le (widen b))) with 8%nat in Ec.
  change (List.length (float32_le (widen a))) with 4%nat in Eb.
  change (List.length (@nil byte)) with 0%nat in Ea. cbn [app] in Ea.
  now rewrite Ea, Eb, Ec.
Qed.

Lemma decode_encode_roundtrip_witness :
  is_float32 Examples.f_1_5 = true /\ is_finite Examples.f_1_5 = true
  /\ is_float32 Examples.f_minus_2_25 = true
  /\ is_finite Examples.f_minus_2_25 = true
  /\ Js.bind (encodeCommand {| vx := widen Examples.f_1_5;
                               vy := widen Examples.f_minus_2_25;
                               w := widen Examples.f_1_5 |})
             decodeOdometry
     = Normal {| x := widen Examples.f_1_5; y := widen Examples.f_minus_2_25;
                 yaw := widen Examples.f_1_5 |}.
Proof.
  split; [reflexivity|]. split; [reflexivity|].
  split; [reflexivity|]. split; [reflexivity|].
  apply (proj2 (proj2 (proj2
           (@decode_encode_roundtrip Examples.f_1_5 Examples.f_minus_2_25
              Examples.f_1_5 eq_refl eq_refl eq_refl eq_refl eq_refl
              eq_refl)))).
Defined.

(** C3.  [encodeCommand] fails for no command (its fields may be NaN or
    infinite); the buffer it returns has 12 bytes and holds [vx], [vy], [w]
    as little-endian binary32 values at offsets 0, 4 and 8; the command
    [{vx: 1.5, vy: -2.25, w: 0}] is encoded as
    00 00 C0 3F 00 00 10 C0 00 00 00 00. *)
Theorem encodeCommand_layout :
  (forall command : Command,
      exists buffer,
        encodeCommand command = Normal buffer
        /\ byteLength buffer = 12%nat
        /\ firstn 4 buffer = float32_le (vx command)
        /\ firstn 4 (skipn 4 buffer) = float32_le (vy command)
        /\ firstn 4 (skipn 8 buffer) = float32_le (w command))
  /\ encodeCommand {| vx := Examples.n_1_5; vy := Examples.n_minus_2_25;
                      w := Examples.n_0 |}
     = Normal [x00; x00; xc0; x3f; x00; x00; x10; xc0; x00; x00; x00; x00].
Proof.
  split; [|reflexivity].
  intros command. eexists. split; [apply encodeCommand_bytes|].
  repeat split; reflexivity.
Qed.

(** C4.  [decodeOdometry] throws (the error "Notification payload shorter
    than 12 bytes.") exactly when the view has fewer than 12 bytes;
    otherwise it returns [x], [y], [yaw] read as little-endian binary32
    values at offsets 0, 4, 8, and the bytes after the twelfth do not
    matter.  The error does not escape [handleNotify]: it is shown to the
    user, and nothing else changes. *)
Theorem decodeOdometry_length (view : DataView.t) :
  throws (decodeOdometry view) = (byteLength view <? 12)%nat
  /\ decodeOdometry view =
       (if (byteLength view <? 12)%nat
        then Throw (Error "Notification payload shorter than 12 bytes.")
        else Normal {| x := float32_at view 0; y := float32_at view 4;
                       yaw := float32_at view 8 |})
  /\ decodeOdometry view = decodeOdometry (firstn 12 view)
  /\ (forall st : App.World,
         App.handleNotify view st =
         if (byteLength view <? 12)%nat
         then App.on (App.showError
                        "Notification payload shorter than 12 bytes.") st
         else App.on (App.push {| x := float32_at view 0;
                                  y := float32_at view 4;
                                  yaw := float32_at view 8 |}) st).
Proof.
  destruct (byteLength view <? 12)%nat eqn:E.
  - apply Nat.ltb_lt in E. pose proof (@decodeOdometry_short view E) as D.
    unfold App.handleNotify. rewrite D. repeat split; try reflexivity.
    rewrite firstn_all2 by (unfold byteLength in E; lia). symmetry. exact D.
  - apply Nat.ltb_ge in E. pose proof (@decodeOdometry_long view E) as D.
    unfold App.handleNotify. rewrite D. repeat split; try reflexivity.
    rewrite decodeOdometry_long
      by (unfold byteLength in *; rewrite length_firstn; lia).
    now rewrite !float32_at_firstn by lia.
Qed.

(** A payload of 13 bytes and one of 11 bytes. *)
Example decodeOdometry_values :
  decodeOdometry [x00; x00; xc0; x3f; x00; x00; x10; xc0; x00; x00; x00; x00;
                  xff]
  = Normal {| x := Examples.n_1_5; y := Examples.n_minus_2_25;
              yaw := Examples.n_0 |}
  /\ decodeOdometry [x00; x00; xc0; x3f; x00; x00; x10; xc0; x00; x00; x00]
     = Throw (Error "Notification payload shorter than 12 bytes.").
Proof. split; reflexivity. Qed.

End CodecFacts.

(** ** The command loop *)

Module LoopFacts.

Import Service.
Local Open Scope nat_scope.

Section Loop.
Variables Caller HandlersRef Awaiter : Type.
Local Abbreviation World := (Service.World Caller HandlersRef Awaiter).
Implicit Types st : World.

Lemma timers_owned_timer st id k :
  timers_owned st -> timer id st = Some k ->
  writeLoopId (service st) = Some id /\ intervals (platform st) = [(id, k)].
Proof.
  unfold timers_owned, timer. intros Hown Ht.
  destruct (intervals (platform st)) as [|[id0 k0] rest] eqn:E; [discriminate|].
  destruct (writeLoopId (service st)) as [l|]; [|discriminate].
  cbn in Hown. injection Hown as <- Hrest.
  apply map_eq_nil in Hrest. subst rest.
  cbn in Ht. destruct (Nat.eqb id0 id) eqn:Eid; [|discriminate].
  apply Nat.eqb_eq in Eid. subst id0. cbn in Ht. injection Ht as <-.
  split; reflexivity.
Qed.

Lemma timers_owned_none st :
  timers_owned st -> writeLoopId (service st) = None ->
  intervals (platform st) = [].
Proof.
  unfold timers_owned. intros H E. rewrite E in H. now apply map_eq_nil in H.
Qed.

Lemma timer_none st id : intervals (platform st) = [] -> timer id st = None.
Proof. unfold timer. now intros ->. Qed.

Lemma intervalFires_idle st id :
  intervals (platform st) = [] -> intervalFires id st = st.
Proof. intros H. unfold intervalFires. now rewrite timer_none. Qed.

Lemma stopCommandLoop_intervals st :
  timers_owned st -> intervals (platform (stopCommandLoop st)) = [].
Proof.
  intros H. unfold stopCommandLoop, timers_owned in *.
  destruct (writeLoopId (service st)) as [id|] eqn:E; cbn.
  - destruct (intervals (platform st)) as [|[id0 k0] rest]; [reflexivity|].
    cbn in H. injection H as -> Hrest. apply map_eq_nil in Hrest. subst rest.
    cbn. now rewrite Nat.eqb_refl.
  - now apply map_eq_nil in H.
Qed.

Lemma stopCommandLoop_owned st : timers_owned st -> timers_owned (stopCommandLoop st).
Proof.
  intros H. pose proof (stopCommandLoop_intervals H) as E.
  unfold timers_owned. rewrite E.
  unfold stopCommandLoop.
  destruct (writeLoopId (service st)) eqn:E2; cbn; [reflexivity | now rewrite E2].
Qed.

Lemma stopCommandLoop_idempotent st :
  stopCommandLoop (stopCommandLoop st) = stopCommandLoop st.
Proof.
  unfold stopCommandLoop. destruct (writeLoopId (service st)) as [id|] eqn:E; cbn.
  - reflexivity.
  - rewrite E. reflexivity.
Qed.


Variable handlersOf : HandlersRef -> BleHandlers Caller HandlersRef Awaiter.
Variable resume : Awaiter -> Completion unit -> World -> World.

Lemma any_NaN command :
  isNaN (vx command) || isNaN (vy command) || isNaN (w command) = true ->
  existsb isNaN (Object_values command) = true.
Proof.
  intros H. cbn. destruct (isNaN (vx command)), (isNaN (vy command)),
    (isNaN (w command)); cbn in *; congruence.
Qed.

(** C5.  When the command that a tick fetches has a NaN field, the tick
    reports the "invalid command" message to the error handler of the loop
    and stops the loop; it calls neither [encodeCommand] nor the write of
    the characteristic.  (A tick fetches the command when it finds the busy
    flag clear.) *)
Theorem nan_command_stops_loop st id k :
  timers_owned st ->
  timer id st = Some k ->
  writeBusy (service st) = false ->
  (let command := getCommand k (caller st) in
   isNaN (vx command) || isNaN (vy command) || isNaN (w command) = true) ->
  let st' := intervalFires id st in
  calls (platform st') =
    [CallClearInterval id; CallOnError invalid_command;
     ConsoleError (Error invalid_command); CallGetCommand]
    ++ calls (platform st)
  /\ caller st' = onError k invalid_command (caller st)
  /\ writeLoopId (service st') = None
  /\ intervals (platform st') = []
  /\ writeBusy (service st') = false
  /\ sending st' = sending st
  /\ made is_encode st' = made is_encode st
  /\ made is_write st' = made is_write st.
Proof.
  intros Hown Ht Hbusy Hnan st'.
  destruct (timers_owned_timer id Hown Ht) as [Hid Hint].
  apply any_NaN in Hnan.
  assert (E : st' =
    tick_finally (tick_catch (Error invalid_command) (onError k)
      (record CallGetCommand (with_service (set_writeBusy true) st)))).
  { unfold st', intervalFires. rewrite Ht. unfold tick. rewrite Hbusy.
    cbn [caller record with_platform with_service]. now rewrite Hnan. }
  rewrite E. unfold tick_finally, tick_catch, stopCommandLoop, made.
  cbn. rewrite Hid. cbn. rewrite Hint. cbn. rewrite Nat.eqb_refl. cbn.
  repeat split; reflexivity.
Qed.


Lemma startCommandLoop_idle st g h ms :
  writeLoopId (service st) = None ->
  intervals (platform st) = [] ->
  intervals (platform (startCommandLoop g h ms st)) =
    [(nextTimer (platform st), fresh_loop g h ms)]
  /\ writeLoopId (service (startCommandLoop g h ms st)) =
      Some (nextTimer (platform st)).
Proof.
  intros E I. unfold startCommandLoop. rewrite E. cbn. rewrite I. split; reflexivity.
Qed.

Lemma tick_failure_core st0 error report :
  timers_owned st0 ->
  let st' := tick_finally (tick_catch error report st0) in
  caller st' = report (message error) (caller st0)
  /\ made is_onError st' = S (made is_onError st0)
  /\ made is_write st' = made is_write st0
  /\ writeLoopId (service st') = None
  /\ intervals (platform st') = []
  /\ writeBusy (service st') = false
  /\ session st' = session st0
  /\ link st' = link st0
  /\ sending st' = sending st0
  /\ connecting st' = connecting st0
  /\ disconnecting st' = disconnecting st0
  /\ nextTimer (platform st') = nextTimer (platform st0).
Proof.
  intros Hown st'. subst st'.
  unfold tick_finally, tick_catch, stopCommandLoop, made, session, link.
  cbn. destruct (writeLoopId (service st0)) as [id|] eqn:E; cbn.
  - unfold timers_owned in Hown. rewrite E in Hown.
    destruct (intervals (platform st0)) as [|[id0 k0] rest]; [discriminate|].
    cbn in Hown. injection Hown as -> Hrest. apply map_eq_nil in Hrest. subst rest.
    cbn. rewrite Nat.eqb_refl. cbn. repeat split; reflexivity.
  - rewrite E. rewrite (timers_owned_none Hown E). repeat split; reflexivity.
Qed.

Lemma tick_failure_sending st0 error report :
  sending st0 = [] ->
  sending (tick_finally (tick_catch error report st0)) = [].
Proof.
  intros E. unfold tick_finally, tick_catch, stopCommandLoop. cbn.
  destruct (writeLoopId (service st0)); exact E.
Qed.

(** C6.  Whatever fails in a tick (the NaN check, the missing
    characteristic or the write), the message of the failure is given to the
    error handler of the loop once, no write is started, the timer is
    cancelled and the loop id cleared, so that no later interval does
    anything; the session (the fields of the service, the connection, the
    listeners) is left as it is, and [startCommandLoop] installs a new
    timer afterwards. *)
Theorem tick_failure_is_fatal st error report st' :
  timers_owned st ->
  tick_fails handlersOf resume st error report st' ->
  caller st' = report (message error) (caller st)
  /\ made is_onError st' = S (made is_onError st)
  /\ made is_write st' = made is_write st
  /\ writeLoopId (service st') = None
  /\ intervals (platform st') = []
  /\ writeBusy (service st') = false
  /\ (forall id, intervalFires id st' = st')
  /\ session st' = session st
  /\ link st' = link st
  /\ connecting st' = connecting st
  /\ disconnecting st' = disconnecting st
  /\ (forall g h ms,
        intervals (platform (startCommandLoop g h ms st')) =
          [(nextTimer (platform st), fresh_loop g h ms)]).
Proof.
  intros Hown Hfail.
  assert (Hcore : exists st0,
             st' = tick_finally (tick_catch error report st0)
             /\ timers_owned st0
             /\ caller st0 = caller st
             /\ made is_onError st0 = made is_onError st
             /\ made is_write st0 = made is_write st
             /\ session st0 = session st /\ link st0 = link st
             /\ connecting st0 = connecting st
             /\ disconnecting st0 = disconnecting st
             /\ nextTimer (platform st0) = nextTimer (platform st)).
  { destruct Hfail as [id k Ht Hbusy Hnan | id k Ht Hbusy Hnan Hchr | p t e Hfind].
    - exists (record CallGetCommand (with_service (set_writeBusy true) st)).
      split.
      { unfold intervalFires. rewrite Ht. unfold tick. rewrite Hbusy.
        cbn [caller record with_platform with_service]. now rewrite Hnan. }
      repeat split; try reflexivity. exact Hown.
    - exists (record CallGetCommand (with_service (set_writeBusy true) st)).
      split.
      { unfold intervalFires. rewrite Ht. unfold tick. rewrite Hbusy.
        cbn [caller record with_platform with_service]. rewrite Hnan.
        unfold writeCommand. cbn. now rewrite Hchr. }
      repeat split; try reflexivity. exact Hown.
    - exists (with_sending (filter (fun t => negb (awaits_tick p t))) st).
      split.
      { unfold settles. rewrite Hfind. reflexivity. }
      repeat split; try reflexivity. exact Hown. }
  destruct Hcore as (st0 & -> & Hown0 & Hc & He & Hw & Hs & Hl & Hcn & Hdn & Hnt).
  destruct (tick_failure_core error report Hown0)
    as (C1 & C2 & C3 & C4 & C5 & C6 & C7 & C8 & C9 & C10 & C11 & C12).
  rewrite <- Hc, <- He, <- Hw, <- Hs, <- Hl, <- Hcn, <- Hdn, <- Hnt.
  repeat split; try assumption.
  - intros id. now apply intervalFires_idle.
  - intros g h ms. rewrite <- C12. now apply startCommandLoop_idle.
Qed.


Lemma stopCommandLoop_new (c : Caller) :
  stopCommandLoop (new_world HandlersRef Awaiter c) = new_world HandlersRef Awaiter c.
Proof. reflexivity. Qed.

Lemma stopCommandLoop_clears st :
  writeBusy (service (stopCommandLoop st)) = false
  /\ writeLoopId (service (stopCommandLoop st)) = None.
Proof.
  unfold stopCommandLoop. destruct (writeLoopId (service st)) eqn:E; cbn;
    [split; reflexivity | now rewrite E].
Qed.

Lemma startCommandLoop_running st g h ms :
  writeLoopId (service st) <> None -> startCommandLoop g h ms st = st.
Proof.
  intros H. unfold startCommandLoop.
  destruct (writeLoopId (service st)); [reflexivity | contradiction].
Qed.

Lemma stopCommandLoop_nextTimer st :
  nextTimer (platform (stopCommandLoop st)) = nextTimer (platform st).
Proof.
  unfold stopCommandLoop. destruct (writeLoopId (service st)); reflexivity.
Qed.

Lemma disconnect_closed a st :
  session st = (None, None, None, None, None, None) ->
  disconnect handlersOf a st = (st, Some (Normal tt)).
Proof.
  destruct st as [[d sv wc nc nh dh lid busy] pf cl sn cn dn].
  unfold session. cbn. intros H. injection H as -> -> -> -> -> ->.
  reflexivity.
Qed.

(** The busy guard: a tick that finds the flag set does nothing. *)
Lemma busy_tick_returns st id :
  writeBusy (service st) = true -> intervalFires id st = st.
Proof.
  intros H. unfold intervalFires. destruct (timer id st); [|reflexivity].
  unfold tick. now rewrite H.
Qed.

Lemma exclusive_idle st : sending st = [] -> exclusive st.
Proof. intros H. now left. Qed.

Lemma exclusive_tick st id : exclusive st -> exclusive (intervalFires id st).
Proof.
  intros H. unfold intervalFires. destruct (timer id st) as [k|]; [|exact H].
  unfold tick. destruct (writeBusy (service st)) eqn:B; [exact H|].
  assert (E : sending st = []) by (destruct H as [E | [E _]]; congruence).
  cbn [caller record with_platform with_service].
  destruct (existsb isNaN _).
  - apply exclusive_idle. apply (tick_failure_sending _ _ _).
    exact E.
  - unfold writeCommand. cbn. destruct (writeChar (service st)).
    + right. cbn. rewrite E. split; [reflexivity | eexists; reflexivity].
    + apply exclusive_idle. apply (tick_failure_sending _ _ _). exact E.
Qed.

Lemma exclusive_settles st p outcome :
  exclusive st -> find (awaits_tick p) (sending st) <> None ->
  exclusive (settles handlersOf resume p outcome st).
Proof.
  intros H F. unfold settles.
  destruct (find (awaits_tick p) (sending st)) as [t|] eqn:Et; [|contradiction].
  apply exclusive_idle.
  assert (E : filter (fun t0 => negb (awaits_tick p t0)) (sending st) = []).
  { destruct H as [E | [_ [t0 E]]]; rewrite E in *; [reflexivity|].
    cbn in Et. cbn. destruct (awaits_tick p t0); [reflexivity | discriminate]. }
  unfold tick_resume. destruct outcome.
  - cbn. exact E.
  - apply (tick_failure_sending _ _ _). cbn. exact E.
Qed.

Lemma exclusive_step st e :
  exclusive st -> orderly_event st e ->
  exclusive (step handlersOf resume st e).
Proof.
  intros H O. destruct e; cbn in O; try contradiction; cbn.
  - unfold startCommandLoop. destruct (writeLoopId (service st)); exact H.
  - apply exclusive_idle. unfold stopCommandLoop.
    destruct (writeLoopId (service st)); exact O.
  - now apply exclusive_tick.
  - now apply exclusive_settles.
Qed.

(** X3.  Single flight, as far as it holds: in a run of the loop where
    [stopCommandLoop] is not called while a write is in flight, at most one
    write is in flight at any time, and the busy flag is set while one
    is. *)
Lemma single_flight_orderly es st :
  exclusive st -> orderly handlersOf resume st es ->
  exclusive (run handlersOf resume st es)
  /\ forall id, in_flight id (run handlersOf resume st es) <= 1.
Proof.
  revert st. induction es as [|e es IH]; intros st H O; cbn.
  - split; [exact H|]. intros id. unfold in_flight.
    destruct H as [E | [_ [t E]]]; rewrite E; cbn; [lia|].
    destruct (Nat.eqb _ _); cbn; lia.
  - destruct O as [O1 O2]. apply IH; [|exact O2].
    now apply exclusive_step.
Qed.

End Loop.

Lemma nan_command_stops_loop_witness :
  timers_owned Examples.nan_loop
  /\ timer 1 Examples.nan_loop
     = Some (fresh_loop (fun _ => Examples.nan_command) Examples.log_error None)
  /\ caller (intervalFires 1 Examples.nan_loop) = [invalid_command]
  /\ writeLoopId (service (intervalFires 1 Examples.nan_loop)) = None.
Proof.
  split; [reflexivity|]. split; [reflexivity|].
  pose proof (@nan_command_stops_loop _ _ _ Examples.nan_loop 1
                (fresh_loop (fun _ => Examples.nan_command)
                            Examples.log_error None)
                eq_refl eq_refl eq_refl eq_refl) as H.
  split; [exact (proj1 (proj2 H)) | exact (proj1 (proj2 (proj2 H)))].
Defined.

Lemma tick_failure_is_fatal_witness :
  timers_owned Examples.nan_loop
  /\ made is_onError (intervalFires 1 Examples.nan_loop) = 1
  /\ intervals (platform (intervalFires 1 Examples.nan_loop)) = [].
Proof.
  split; [reflexivity|].
  pose proof (@tick_failure_is_fatal _ _ _ Examples.log_handlers
                Examples.log_resume Examples.nan_loop _ _ _ eq_refl
                (@fails_invalid_command _ _ _ Examples.log_handlers
                   Examples.log_resume Examples.nan_loop 1
                   (fresh_loop (fun _ => Examples.nan_command)
                               Examples.log_error None)
                   eq_refl eq_refl eq_refl)) as H.
  split; [exact (proj1 (proj2 H)) | exact (proj1 (proj2 (proj2 (proj2 (proj2 H)))))].
Defined.

End LoopFacts.

(** ** The timers of the service *)

Module TimerFacts.

Import Service LoopFacts.
Local Open Scope nat_scope.

Section Timers.
Variables Caller HandlersRef Awaiter : Type.
Local Abbreviation World := (Service.World Caller HandlersRef Awaiter).
Implicit Types st : World.
Variable handlersOf : HandlersRef -> BleHandlers Caller HandlersRef Awaiter.
Variable resume : Awaiter -> Completion unit -> World -> World.

(** The callbacks of the caller keep the invariant (they do when they use
    the service through its public methods). *)
Hypothesis onDisconnect_owned :
  forall h st, timers_owned st -> timers_owned (onDisconnect (handlersOf h) st).
Hypothesis onNotify_owned :
  forall h v st, timers_owned st -> timers_owned (onNotify (handlersOf h) v st).
Hypothesis resume_owned :
  forall a c st, timers_owned st -> timers_owned (resume a c st).

Lemma startCommandLoop_owned st g h ms :
  timers_owned st -> timers_owned (startCommandLoop g h ms st).
Proof.
  intros H. unfold startCommandLoop.
  destruct (writeLoopId (service st)) eqn:E; [exact H|].
  unfold timers_owned in *. rewrite E in H.
  apply map_eq_nil in H. cbn. rewrite H. reflexivity.
Qed.

Lemma tick_catch_owned st error report :
  timers_owned st -> timers_owned (tick_finally (tick_catch error report st)).
Proof.
  intros H. unfold tick_finally, tick_catch.
  assert (H1 : timers_owned
                 (with_caller (report (message error))
                    (record (CallOnError (message error))
                       (record (ConsoleError error) st)))) by owned.
  apply stopCommandLoop_owned in H1. revert H1. owned.
Qed.

Lemma tick_owned st id k : timers_owned st -> timers_owned (tick id k st).
Proof.
  intros H. unfold tick. destruct (writeBusy (service st)); [exact H|].
  cbn [caller record with_platform with_service].
  destruct (existsb isNaN _).
  - apply tick_catch_owned. owned.
  - unfold writeCommand. cbn.
    destruct (writeChar (service st)).
    + owned.
    + apply tick_catch_owned. owned.
Qed.

Lemma intervalFires_owned st id :
  timers_owned st -> timers_owned (intervalFires id st).
Proof.
  intros H. unfold intervalFires. destruct (timer id st); [|exact H].
  now apply tick_owned.
Qed.

Lemma tick_resume_owned st t outcome :
  timers_owned st -> timers_owned (tick_resume t outcome st).
Proof.
  intros H. unfold tick_resume. destruct outcome.
  - unfold tick_finally. owned.
  - now apply tick_catch_owned.
Qed.

Lemma fire_owned dev st :
  timers_owned st -> timers_owned (fire_gattserverdisconnected handlersOf dev st).
Proof.
  unfold fire_gattserverdisconnected.
  generalize (listenersOf dev (deviceListeners (platform st))).
  intros ls. revert st. induction ls as [|l ls IH]; intros st H; cbn.
  - exact H.
  - apply IH. apply onDisconnect_owned. owned.
Qed.

Lemma server_disconnect_owned s st :
  timers_owned st -> timers_owned (server_disconnect handlersOf s st).
Proof. intros H. unfold server_disconnect. apply fire_owned. owned. Qed.

Lemma linkLost_owned dev st :
  timers_owned st -> timers_owned (linkLost handlersOf dev st).
Proof.
  intros H. unfold linkLost. destruct (existsb _ _); [|exact H].
  apply fire_owned. owned.
Qed.

Lemma notified_owned chr value st :
  timers_owned st -> timers_owned (notified handlersOf chr value st).
Proof.
  unfold notified.
  generalize (listenersOf chr (characteristicListeners (platform st))).
  intros ls. revert st. induction ls as [|l ls IH]; intros st H; cbn.
  - exact H.
  - apply IH. destruct value; [|exact H]. apply onNotify_owned. owned.
Qed.

Lemma connect_owned h a st : timers_owned st -> timers_owned (connect h a st).
Proof. intros H. unfold connect. owned. Qed.

Lemma connect_resume_owned f outcome st :
  timers_owned st -> timers_owned (fst (connect_resume f outcome st)).
Proof.
  intros H. unfold connect_resume.
  destruct outcome as [v|e]; [|exact H].
  destruct (connectStage f), v; try exact H; cbn; try solve [owned].
  destruct (hasGatt d); owned.
Qed.

Lemma disconnect_rest_owned st :
  timers_owned st -> timers_owned (disconnect_rest handlersOf st).
Proof.
  intros H. unfold disconnect_rest.
  set (st1 := match server (service st) with
              | Some s => if connected s st then server_disconnect handlersOf s st else st
              | None => st
              end).
  assert (H1 : timers_owned st1).
  { unfold st1. destruct (server (service st)); [|exact H].
    destruct (connected _ _); [|exact H]. now apply server_disconnect_owned. }
  clearbody st1.
  destruct (device (service st1)), (disconnectHandler (service st1)); owned.
Qed.

Lemma disconnect_owned a st :
  timers_owned st -> timers_owned (fst (disconnect handlersOf a st)).
Proof.
  intros H. unfold disconnect, stopNotifications.
  destruct (notifyChar (service st)), (notifyHandler (service st)); cbn;
    try (apply disconnect_rest_owned); owned.
Qed.

Lemma disconnect_resume_owned outcome st :
  timers_owned st -> timers_owned (disconnect_resume handlersOf outcome st).
Proof.
  intros H. unfold disconnect_resume, stopNotifications_resume.
  apply disconnect_rest_owned. destruct outcome; owned.
Qed.

Lemma settles_owned p outcome st :
  timers_owned st -> timers_owned (settles handlersOf resume p outcome st).
Proof.
  intros H. unfold settles.
  destruct (find (awaits_tick p) (sending st)).
  { apply tick_resume_owned. owned. }
  destruct (find (awaits_connect p) (connecting st)) as [f|].
  { pose proof (@connect_resume_owned f outcome
                  (with_connecting (filter (fun f0 => negb (awaits_connect p f0))) st)) as R.
    destruct (connect_resume f outcome _) as [st1 [c|]]; cbn in R.
    - apply resume_owned. apply R. owned.
    - apply R. owned. }
  destruct (find (awaits_disconnect p) (disconnecting st)) as [f|]; [|exact H].
  apply resume_owned. apply disconnect_resume_owned. owned.
Qed.

Lemma step_owned st e : timers_owned st -> timers_owned (step handlersOf resume st e).
Proof.
  intros H. destruct e; cbn.
  - now apply startCommandLoop_owned.
  - now apply stopCommandLoop_owned.
  - now apply connect_owned.
  - pose proof (@disconnect_owned a st H) as R.
    destruct (disconnect handlersOf a st) as [st1 [c|]]; cbn in R; auto.
  - now apply intervalFires_owned.
  - now apply settles_owned.
  - now apply linkLost_owned.
  - now apply notified_owned.
Qed.

Lemma run_owned es st : timers_owned st -> timers_owned (run handlersOf resume st es).
Proof.
  revert st. induction es as [|e es IH]; intros st H; cbn; [exact H|].
  apply IH. now apply step_owned.
Qed.

Lemma owned_at_most_one st : timers_owned st -> List.length (intervals (platform st)) <= 1.
Proof.
  unfold timers_owned. intros H.
  rewrite <- (length_map fst), H. destruct (writeLoopId (service st)); cbn; lia.
Qed.

End Timers.
End TimerFacts.

(** ** The component keeps the timers of the service *)

Module AppTimers.

Import App LoopFacts TimerFacts.
Local Open Scope nat_scope.


Implicit Types st : World.

Lemma on_owned f st : Service.timers_owned st -> Service.timers_owned (on f st).
Proof. intros H. owned. Qed.

Lemma handleDisconnected_owned st :
  Service.timers_owned st -> Service.timers_owned (handleDisconnected st).
Proof.
  intros H. unfold handleDisconnected.
  apply stopCommandLoop_owned in H.
  apply on_owned.
  match goal with |- context [if ?b then _ else _] => destruct b end;
    repeat apply on_owned; exact H.
Qed.

Lemma handleNotify_owned v st :
  Service.timers_owned st -> Service.timers_owned (handleNotify v st).
Proof.
  intros H. unfold handleNotify. destruct (Codec.decodeOdometry v); now apply on_owned.
Qed.

Lemma app_onDisconnect_owned h st :
  Service.timers_owned st ->
  Service.timers_owned (Service.onDisconnect (handlersOf h) st).
Proof. destruct h. apply handleDisconnected_owned. Qed.

Lemma app_onNotify_owned h v st :
  Service.timers_owned st ->
  Service.timers_owned (Service.onNotify (handlersOf h) v st).
Proof. destruct h. apply handleNotify_owned. Qed.

Lemma disconnectDevice_owned from st :
  Service.timers_owned st -> Service.timers_owned (fst (disconnectDevice from st)).
Proof.
  intros H. unfold disconnectDevice.
  set (st1 := Service.stopCommandLoop _).
  assert (H1 : Service.timers_owned st1).
  { unfold st1. apply stopCommandLoop_owned. now repeat apply on_owned. }
  pose proof (disconnect_owned handlersOf app_onDisconnect_owned (DisconnectDeviceAwaits from) H1) as R.
  destruct (Service.disconnect handlersOf (DisconnectDeviceAwaits from) st1)
    as [st2 [c|]]; cbn in *.
  - unfold disconnectDevice_after. now repeat apply on_owned.
  - exact R.
Qed.

Lemma startWriteLoop_owned r st :
  Service.timers_owned st -> Service.timers_owned (startWriteLoop r st).
Proof.
  intros H. unfold startWriteLoop. destruct (_ || _); [exact H|].
  apply startCommandLoop_owned. now apply stopCommandLoop_owned.
Qed.

Lemma connect_after_owned r c st :
  Service.timers_owned st -> Service.timers_owned (connect_after r c st).
Proof.
  intros H. unfold connect_after, connect_finally. destruct c as [u|e].
  - apply on_owned. apply startWriteLoop_owned. now apply on_owned.
  - destruct (isUserCancelledError e).
    + apply on_owned. owned.
    + set (st1 := on (setIsConnected false) _).
      assert (H1 : Service.timers_owned st1) by (unfold st1; repeat apply on_owned; owned).
      pose proof (disconnectDevice_owned (Some r) H1) as R.
      destruct (disconnectDevice (Some r) st1) as [st2 [|]]; cbn in R.
      * now apply on_owned.
      * exact R.
Qed.

Lemma app_resume_owned a c st :
  Service.timers_owned st -> Service.timers_owned (resume a c st).
Proof.
  intros H. destruct a as [r|from]; cbn.
  - now apply connect_after_owned.
  - unfold disconnectDevice_after, connect_finally.
    destruct from; repeat apply on_owned; exact H.
Qed.

Lemma app_connect_owned r st :
  Service.timers_owned st -> Service.timers_owned (connect r st).
Proof.
  intros H. unfold connect. destruct (_ || _); [exact H|].
  destruct (negb _); [now apply on_owned|].
  apply TimerFacts.connect_owned. apply on_owned.
  apply stopCommandLoop_owned. now apply on_owned.
Qed.

Lemma app_step_owned st e :
  Service.timers_owned st -> Service.timers_owned (step st e).
Proof.
  intros H. destruct e; cbn.
  - destruct (connectionBusy _); [exact H|].
    unfold render. apply on_owned. unfold onClick.
    destruct (isConnected _).
    + now apply disconnectDevice_owned.
    + now apply app_connect_owned.
  - unfold render. now apply on_owned.
  - now apply on_owned.
  - now apply on_owned.
  - now apply intervalFires_owned.
  - apply settles_owned; auto using app_onDisconnect_owned, app_resume_owned.
  - apply linkLost_owned; auto using app_onDisconnect_owned.
  - apply notified_owned; auto using app_onNotify_owned.
Qed.

Lemma app_run_owned es st :
  Service.timers_owned st -> Service.timers_owned (run st es).
Proof.
  revert st. induction es as [|e es IH]; intros st H; cbn; [exact H|].
  apply IH. now apply app_step_owned.
Qed.

Lemma reachable_owned st : reachable st -> Service.timers_owned st.
Proof.
  intros (b & es & ->). apply app_run_owned. reflexivity.
Qed.

End AppTimers.

(** ** The queued updaters of [command] *)

Module UpdateFacts.

Import App.

Lemma call_updater_beside u a :
  beside_command (call_updater u a) = beside_command a
  /\ updates (call_updater u a) = updates a.
Proof.
  destruct u as [vx vy|w]; cbn [call_updater];
    unfold velocitiesUpdater, yawUpdater;
    match goal with |- context [if ?b then _ else _] => destruct b end;
    split; reflexivity.
Qed.

Lemma fold_updaters_beside us a :
  beside_command (fold_left (fun a u => call_updater u a) us a)
  = beside_command a.
Proof.
  revert a. induction us as [|u us IH]; intros a; [reflexivity|].
  cbn [fold_left]. rewrite IH. apply call_updater_beside.
Qed.

Lemma call_updaters_beside a :
  beside_command (call_updaters a) = beside_command a.
Proof. unfold call_updaters. apply (fold_updaters_beside (updates a) a). Qed.

Lemma call_updaters_updates a : updates (call_updaters a) = [].
Proof. reflexivity. Qed.

(** The updaters keep [commandRef] and the command of the state equal. *)
Lemma call_updater_synced u a : synced a -> synced (call_updater u a).
Proof.
  unfold synced. intros H.
  destruct u as [vx vy|w]; cbn [call_updater];
    unfold velocitiesUpdater, yawUpdater;
    match goal with |- context [if ?b then _ else _] => destruct b end;
    (exact H || reflexivity).
Qed.

Lemma fold_updaters_synced us a :
  synced a -> synced (fold_left (fun a u => call_updater u a) us a).
Proof.
  revert a. induction us as [|u us IH]; intros a H; [exact H|].
  cbn [fold_left]. apply IH, call_updater_synced, H.
Qed.

Lemma call_updaters_synced a : synced a -> synced (call_updaters a).
Proof.
  intros H. unfold call_updaters.
  exact (fold_updaters_synced (updates a) H).
Qed.

(** [setCommand] touches the command, its ref and the queue only. *)
Lemma setCommand_beside u eager a :
  beside_command (setCommand u eager a) = beside_command a.
Proof.
  unfold setCommand. destruct (updates a); [destruct eager|]; try reflexivity.
  apply call_updater_beside.
Qed.

Lemma setCommand_flags u eager a : flags (setCommand u eager a) = flags a.
Proof.
  pose proof (setCommand_beside u eager a) as E. unfold beside_command in E.
  injection E as E1 E2 _ E4 _. unfold flags. now rewrite E1, E2, E4.
Qed.

Lemma rendering_flags a :
  (isConnecting (state (rendering a)), isDisconnecting (state (rendering a)),
   isConnected (state (rendering a)))
  = (isConnecting (state a), isDisconnecting (state a), isConnected (state a))
  /\ (isConnecting (rendered (rendering a)),
      isDisconnecting (rendered (rendering a)),
      isConnected (rendered (rendering a)))
     = (isConnecting (state a), isDisconnecting (state a),
        isConnected (state a))
  /\ (userDisconnectRef (rendering a), history (rendering a),
      alerts (rendering a), navigator_bluetooth (rendering a))
     = (userDisconnectRef a, history a, alerts a, navigator_bluetooth a)
  /\ updates (rendering a) = [].
Proof.
  pose proof (call_updaters_beside a) as E. unfold beside_command in E.
  injection E as E1 E2 E3 E4 E5 E6 E7 E8.
  unfold rendering. cbn. rewrite E1, E2, E3, E5, E6, E7, E8.
  repeat split; reflexivity.
Qed.

Lemma flag_of_rendering a x :
  flag_of x (state (rendering a)) = flag_of x (state a)
  /\ flag_of x (rendered (rendering a)) = flag_of x (state a).
Proof.
  destruct (rendering_flags a) as (E1 & E2 & _).
  injection E1 as A1 A2 _. injection E2 as B1 B2 _.
  unfold flag_of. destruct (awaits_in_connect x); split; assumption.
Qed.

Lemma rendering_eq a : rendering a = after_render a.
Proof.
  pose proof (call_updaters_beside a) as E. unfold beside_command in E.
  pose proof (call_updaters_updates a) as U.
  unfold rendering, after_render, pending_command.
  destruct (call_updaters a) as [[c f1 f2 f3] r u ud cr h al nb].
  cbn in *. injection E as -> -> -> -> -> -> -> ->. subst u. reflexivity.
Qed.

Lemma render_eq st : render st = on after_render st.
Proof.
  unfold render, on, Service.with_caller. now rewrite rendering_eq.
Qed.

Lemma click_eq st :
  connectionBusy (rendered (Service.caller st)) = false ->
  step st Click = on after_render (onClick st).
Proof. intros B. cbn [step]. rewrite B. apply render_eq. Qed.

(** The command that the updaters leave. *)
Lemma call_updater_command u a :
  command (state (call_updater u a)) = updated u (command (state a)).
Proof.
  destruct u as [vx vy|w]; cbn [call_updater updated];
    unfold velocitiesUpdater, yawUpdater;
    match goal with |- context [if ?b then _ else _] => destruct b end;
    reflexivity.
Qed.

Lemma fold_updaters_command us a :
  command (state (fold_left (fun a u => call_updater u a) us a))
  = fold_left (fun c u => updated u c) us (command (state a)).
Proof.
  revert a. induction us as [|u us IH]; intros a; [reflexivity|].
  cbn [fold_left]. now rewrite IH, call_updater_command.
Qed.

Lemma pending_command_fold a :
  pending_command a
  = fold_left (fun c u => updated u c) (updates a) (command (state a)).
Proof. apply (fold_updaters_command (updates a) a). Qed.

(** Once React has called an updater, queued or not, the command is what
    the updater returns for the command of the updaters before it. *)
Lemma setCommand_pending u eager a :
  pending_command (setCommand u eager a) = updated u (pending_command a).
Proof.
  rewrite !pending_command_fold. unfold setCommand.
  destruct (updates a) as [|u0 us] eqn:E.
  - destruct eager; [|reflexivity].
    rewrite (proj2 (call_updater_beside u a)), E. cbn [fold_left].
    apply call_updater_command.
  - cbn [updates set_updates state]. now rewrite fold_left_app.
Qed.


Lemma rendering_commandRef a : commandRef (rendering a) = pending_command a.
Proof. rewrite rendering_eq. reflexivity. Qed.


(** A queued updater has not touched the ref. *)
Lemma setCommand_queued u a :
  commandRef (setCommand u false a) = commandRef a.
Proof. unfold setCommand. destruct (updates a); reflexivity. Qed.

Lemma setCommand_synced u eager a : synced a -> synced (setCommand u eager a).
Proof.
  intros H. unfold setCommand.
  destruct (updates a); [destruct eager|]; try exact H.
  now apply call_updater_synced.
Qed.

Lemma rendering_synced a : synced (rendering a).
Proof. rewrite rendering_eq. reflexivity. Qed.

End UpdateFacts.

(** ** The guard of [connect] *)

Module AppGuard.

Import App.
Local Open Scope nat_scope.


Implicit Types st : World.

Lemma quiet_refl st : quiet st st.
Proof. intros L. split; [reflexivity | exact L]. Qed.

Lemma quiet_trans st1 st2 st3 : quiet st1 st2 -> quiet st2 st3 -> quiet st1 st3.
Proof.
  intros H12 H23 L. destruct (H12 L) as [E1 L2]. destruct (H23 L2) as [E2 L3].
  split; [congruence | exact L3].
Qed.

Lemma quiet_on f st :
  (forall a, flags (f a) = flags a) -> quiet st (on f st).
Proof.
  intros Hf L. split; [|exact L].
  unfold frames_and_flags. cbn. now rewrite Hf.
Qed.

Lemma quiet_record c st : quiet st (Service.record c st).
Proof. intros L. split; [reflexivity | exact L]. Qed.

Lemma Forall_filter' (A : Type) (P : A -> Prop) f (l : list A) :
  Forall P l -> Forall P (filter f l).
Proof.
  intros H. apply Forall_forall. intros x Hx. apply filter_In in Hx.
  rewrite Forall_forall in H. now apply H.
Qed.

Lemma quiet_stopCommandLoop st : quiet st (Service.stopCommandLoop st).
Proof.
  intros [L1 L2]. unfold Service.stopCommandLoop.
  destruct (Service.writeLoopId (Service.service st)); cbn.
  - split; [reflexivity|]. split; cbn; [now apply Forall_filter' | exact L2].
  - split; [reflexivity|]. split; assumption.
Qed.

Lemma quiet_startCommandLoop ms st :
  quiet st (Service.startCommandLoop currentCommand reportError ms st).
Proof.
  intros [L1 L2]. unfold Service.startCommandLoop.
  destruct (Service.writeLoopId (Service.service st)); cbn.
  - split; [reflexivity|]. split; assumption.
  - split; [reflexivity|]. split; cbn; [|exact L2].
    constructor; [reflexivity | exact L1].
Qed.

Lemma quiet_startWriteLoop r st : quiet st (startWriteLoop r st).
Proof.
  unfold startWriteLoop. destruct (_ || _); [apply quiet_refl|].
  eapply quiet_trans; [apply quiet_stopCommandLoop | apply quiet_startCommandLoop].
Qed.

Lemma quiet_tick_catch error st :
  quiet st (Service.tick_finally (Service.tick_catch error reportError st)).
Proof.
  unfold Service.tick_finally, Service.tick_catch.
  intros L.
  assert (Q : quiet st
                (Service.with_caller (reportError (message error))
                   (Service.record (CallOnError (message error))
                      (Service.record (ConsoleError error) st)))).
  { intros L'. split; [reflexivity | exact L']. }
  destruct (quiet_trans Q (@quiet_stopCommandLoop _) L) as [E [L1 L2]].
  split; [exact E|]. split; [exact L1 | exact L2].
Qed.

Lemma quiet_tick id k st :
  Service.onError k = reportError -> quiet st (Service.tick id k st).
Proof.
  intros Hk. unfold Service.tick.
  destruct (Service.writeBusy (Service.service st)); [apply quiet_refl|].
  cbn [Service.caller Service.record Service.with_platform Service.with_service].
  rewrite Hk.
  assert (Q0 : quiet st (Service.record CallGetCommand
                   (Service.with_service (Service.set_writeBusy true) st))).
  { intros L. split; [reflexivity | exact L]. }
  destruct (existsb isNaN _).
  - eapply quiet_trans; [exact Q0 | apply quiet_tick_catch].
  - unfold Service.writeCommand. cbn.
    destruct (Service.writeChar (Service.service st)).
    + intros [L1 L2]. split; [reflexivity|]. split; cbn; [exact L1|].
      constructor; [reflexivity | exact L2].
    + eapply quiet_trans; [exact Q0 | apply quiet_tick_catch].
Qed.

Lemma quiet_intervalFires id st : quiet st (Service.intervalFires id st).
Proof.
  unfold Service.intervalFires, Service.timer.
  destruct (find _ _) as [[id0 k]|] eqn:E; cbn; [|apply quiet_refl].
  intros L. apply quiet_tick; [|exact L].
  destruct L as [L1 _]. apply find_some in E. destruct E as [Hin _].
  rewrite Forall_forall in L1. exact (L1 _ Hin).
Qed.

Lemma quiet_tick_resume t outcome st :
  Service.reportTo t = reportError -> quiet st (Service.tick_resume t outcome st).
Proof.
  intros Ht. unfold Service.tick_resume. destruct outcome.
  - intros L. split; [reflexivity | exact L].
  - rewrite Ht. apply quiet_tick_catch.
Qed.

Ltac quiet_step :=
  match goal with
  | |- quiet ?a ?a => apply quiet_refl
  | |- quiet _ (on ?f ?st) =>
      apply quiet_trans with st; [| apply (quiet_on f); intros; reflexivity]
  | |- quiet _ (Service.record ?c ?st) =>
      apply quiet_trans with st; [| apply quiet_record]
  | |- quiet _ (Service.stopCommandLoop ?st) =>
      apply quiet_trans with st; [| apply quiet_stopCommandLoop]
  | |- quiet _ (startWriteLoop ?r ?st) =>
      apply quiet_trans with st; [| apply quiet_startWriteLoop]
  | |- quiet _ (if ?b then _ else _) => destruct b
  end.

Lemma quiet_handleDisconnected st : quiet st (handleDisconnected st).
Proof. unfold handleDisconnected. repeat quiet_step. Qed.

Lemma quiet_handleNotify v st : quiet st (handleNotify v st).
Proof.
  unfold handleNotify. destruct (Codec.decodeOdometry v); repeat quiet_step.
Qed.

Lemma quiet_fire dev st :
  quiet st (Service.fire_gattserverdisconnected handlersOf dev st).
Proof.
  unfold Service.fire_gattserverdisconnected.
  generalize (Service.listenersOf dev (Service.deviceListeners (Service.platform st))).
  intros ls. revert st. induction ls as [|l ls IH]; intros st; cbn.
  - apply quiet_refl.
  - eapply quiet_trans; [|apply IH].
    destruct (Service.handlers l). cbn.
    eapply quiet_trans; [apply quiet_record | apply quiet_handleDisconnected].
Qed.

Lemma quiet_drop dev st : quiet st (Service.drop_connection dev st).
Proof. intros L. split; [reflexivity | exact L]. Qed.

Lemma quiet_server_disconnect s st :
  quiet st (Service.server_disconnect handlersOf s st).
Proof.
  unfold Service.server_disconnect.
  eapply quiet_trans; [apply quiet_record|].
  eapply quiet_trans; [apply quiet_drop | apply quiet_fire].
Qed.

Lemma quiet_linkLost dev st : quiet st (Service.linkLost handlersOf dev st).
Proof.
  unfold Service.linkLost. destruct (existsb _ _); [|apply quiet_refl].
  eapply quiet_trans; [apply quiet_drop | apply quiet_fire].
Qed.

Lemma quiet_notified chr value st :
  quiet st (Service.notified handlersOf chr value st).
Proof.
  unfold Service.notified.
  generalize (Service.listenersOf chr (Service.characteristicListeners (Service.platform st))).
  intros ls. revert st. induction ls as [|l ls IH]; intros st; cbn.
  - apply quiet_refl.
  - eapply quiet_trans; [|apply IH].
    destruct value; [|apply quiet_refl].
    destruct (Service.handlers l). cbn.
    eapply quiet_trans; [apply quiet_record | apply quiet_handleNotify].
Qed.

Lemma quiet_service f st : quiet st (Service.with_service f st).
Proof. intros L. split; [reflexivity | exact L]. Qed.

Lemma quiet_disconnect_rest st : quiet st (Service.disconnect_rest handlersOf st).
Proof.
  unfold Service.disconnect_rest.
  set (st1 := match Service.server (Service.service st) with
              | Some s => if Service.connected s st
                          then Service.server_disconnect handlersOf s st else st
              | None => st
              end).
  assert (Q1 : quiet st st1).
  { unfold st1. destruct (Service.server (Service.service st)); [|apply quiet_refl].
    destruct (Service.connected _ _); [apply quiet_server_disconnect | apply quiet_refl]. }
  clearbody st1. eapply quiet_trans; [exact Q1|].
  destruct (Service.device (Service.service st1)),
    (Service.disconnectHandler (Service.service st1));
    intros L; (split; [reflexivity | exact L]).
Qed.

Lemma quiet_disconnect_resume outcome st :
  quiet st (Service.disconnect_resume handlersOf outcome st).
Proof.
  unfold Service.disconnect_resume, Service.stopNotifications_resume.
  eapply quiet_trans; [|apply quiet_disconnect_rest].
  destruct outcome; intros L; (split; [reflexivity | exact L]).
Qed.


Lemma quiet_calm st st' : quiet st st' -> calm st st'.
Proof.
  intros Q L. destruct (Q L) as [E L']. unfold frames_and_flags in E.
  injection E as E1 E2 _. split; [|split]; assumption.
Qed.

Lemma calm_trans st1 st2 st3 : calm st1 st2 -> calm st2 st3 -> calm st1 st3.
Proof.
  intros H12 H23 L. destruct (H12 L) as (E1 & E2 & L2).
  destruct (H23 L2) as (E3 & E4 & L3). split; [|split]; congruence.
Qed.

Lemma calm_on f st : calm st (on f st).
Proof. intros L. split; [|split]; try reflexivity; exact L. Qed.

Lemma idle_awaiters st : idle st -> awaiters st = [].
Proof. intros [E1 E2]. unfold awaiters. now rewrite E1, E2. Qed.

Lemma guarded_idle st : idle st -> guarded st.
Proof.
  intros H. unfold guarded. rewrite (idle_awaiters H). split; [cbn; lia | constructor].
Qed.

Lemma idle_calm st st' : calm st st' -> loops_of_app st -> idle st -> idle st'.
Proof.
  intros C L [E1 E2]. destruct (C L) as (F1 & F2 & _). split; congruence.
Qed.

Lemma guarded_same st st' :
  frames_and_flags st' = frames_and_flags st -> guarded st -> guarded st'.
Proof.
  unfold frames_and_flags, flags. intros E. injection E as E1 E2 E3 E4 E5 E6.
  unfold guarded, awaiters, flag_of. rewrite E1, E2, E3, E4, E5, E6. auto.
Qed.

Lemma disconnect_cases a st :
  loops_of_app st ->
  match Service.disconnect handlersOf a st with
  | (st', Some _) =>
      frames_and_flags st' = frames_and_flags st /\ loops_of_app st'
  | (st', None) =>
      exists p,
        Service.connecting st' = Service.connecting st
        /\ Service.disconnecting st' =
             {| Service.disconnectAwaits := p; Service.disconnectAwaiter := a |}
               :: Service.disconnecting st
        /\ Service.caller st' = Service.caller st
        /\ loops_of_app st'
  end.
Proof.
  intros L. unfold Service.disconnect, Service.stopNotifications.
  destruct (Service.notifyChar (Service.service st)) as [c|],
    (Service.notifyHandler (Service.service st)) as [h|]; cbn;
    try (apply (quiet_trans (@quiet_service _ st) (@quiet_disconnect_rest _)); exact L).
  eexists. repeat split; try reflexivity; apply L.
Qed.

Lemma connect_resume_cases f outcome st :
  loops_of_app st ->
  match Service.connect_resume f outcome st with
  | (st', Some _) =>
      frames_and_flags st' = frames_and_flags st /\ loops_of_app st'
  | (st', None) =>
      exists p stage,
        Service.connecting st' =
          {| Service.connectAwaits := p; Service.connectStage := stage;
             Service.connectHandlers := Service.connectHandlers f;
             Service.connectAwaiter := Service.connectAwaiter f |}
            :: Service.connecting st
        /\ Service.disconnecting st' = Service.disconnecting st
        /\ Service.caller st' = Service.caller st
        /\ loops_of_app st'
  end.
Proof.
  intros L. unfold Service.connect_resume.
  destruct outcome as [v|e]; [|split; [reflexivity | exact L]].
  destruct (Service.connectStage f), v; cbn;
    try (split; [reflexivity | exact L]);
    try (eexists _, _; repeat split; try reflexivity; apply L).
  destruct (hasGatt d); cbn.
  - eexists _, _; repeat split; try reflexivity; apply L.
  - split; [reflexivity | exact L].
Qed.

Lemma disconnectDevice_cases from st :
  loops_of_app st -> idle st ->
  match disconnectDevice from st with
  | (st', true) => idle st' /\ loops_of_app st'
  | (st', false) =>
      exists p,
        Service.connecting st' = []
        /\ Service.disconnecting st' =
             [{| Service.disconnectAwaits := p;
                 Service.disconnectAwaiter := DisconnectDeviceAwaits from |}]
        /\ loops_of_app st'
        /\ isConnecting (state (Service.caller st')) =
             isConnecting (state (Service.caller st))
        /\ isDisconnecting (state (Service.caller st')) = true
        /\ rendered (Service.caller st') = rendered (Service.caller st)
  end.
Proof.
  intros L I. unfold disconnectDevice.
  set (st1 := Service.stopCommandLoop _).
  assert (C1 : calm st st1).
  { unfold st1. eapply calm_trans; [|apply quiet_calm, quiet_stopCommandLoop].
    eapply calm_trans; apply calm_on. }
  assert (F1 : isConnecting (state (Service.caller st1)) =
               isConnecting (state (Service.caller st))
               /\ isDisconnecting (state (Service.caller st1)) = true
               /\ rendered (Service.caller st1) = rendered (Service.caller st)).
  { unfold st1, Service.stopCommandLoop.
    destruct (Service.writeLoopId _); cbn; repeat split; reflexivity. }
  clearbody st1.
  destruct (C1 L) as (E1 & E2 & L1). destruct I as [I1 I2].
  pose proof (disconnect_cases (DisconnectDeviceAwaits from) L1) as R.
  destruct (Service.disconnect handlersOf (DisconnectDeviceAwaits from) st1)
    as [st2 [c|]].
  - destruct R as [E L2]. unfold frames_and_flags in E. injection E as E3 E4 _.
    unfold disconnectDevice_after. split; [|exact L2].
    split; cbn; congruence.
  - destruct R as (p & E3 & E4 & E5 & L2). exists p.
    destruct F1 as (F1 & F2 & F3).
    rewrite E3, E4, E5, E1, E2, I1, I2.
    split; [reflexivity|]. split; [reflexivity|]. split; [exact L2|].
    split; [exact F1|]. split; [exact F2 | exact F3].
Qed.

Lemma resume_guarded a c st :
  loops_of_app st -> idle st ->
  flag_of a (state (Service.caller st)) = true ->
  flag_of a (rendered (Service.caller st)) = true ->
  guarded (resume a c st) /\ loops_of_app (resume a c st).
Proof.
  intros L I Fs Fr. destruct a as [r|from]; cbn.
  - unfold connect_after, connect_finally. destruct c as [u|e].
    + assert (C : calm st (on (setIsConnecting false)
                            (startWriteLoop r (on (setIsConnected true) st)))).
      { eapply calm_trans; [|apply calm_on].
        eapply calm_trans; [apply calm_on | apply quiet_calm, quiet_startWriteLoop]. }
      split; [apply guarded_idle; exact (idle_calm C L I) | apply (C L)].
    + destruct (isUserCancelledError e).
      * assert (C : calm st (on (setIsConnecting false)
                               (Service.record (ConsoleError e) st))).
        { eapply calm_trans; [apply quiet_calm, quiet_record | apply calm_on]. }
        split; [apply guarded_idle; exact (idle_calm C L I) | apply (C L)].
      * set (st1 := on (setIsConnected false) _).
        assert (C1 : calm st st1).
        { unfold st1. eapply calm_trans; [apply quiet_calm, quiet_record|].
          eapply calm_trans; apply calm_on. }
        assert (F1 : isConnecting (state (Service.caller st1)) =
                     isConnecting (state (Service.caller st))
                     /\ rendered (Service.caller st1) = rendered (Service.caller st))
          by (split; reflexivity).
        clearbody st1.
        pose proof (idle_calm C1 L I) as I1. destruct (C1 L) as (_ & _ & L1).
        pose proof (disconnectDevice_cases (Some r) L1 I1) as R.
        destruct (disconnectDevice (Some r) st1) as [st2 [|]].
        -- destruct R as [I2 L2].
           split; [apply guarded_idle; exact (idle_calm (@calm_on _ st2) L2 I2) | exact L2].
        -- destruct R as (p & E1 & E2 & L2 & G1 & G2 & G3).
           split; [|exact L2].
           unfold guarded, awaiters. rewrite E1, E2. cbn. split; [lia|].
           constructor; [|constructor].
           unfold flag_of in *. cbn in *. destruct F1 as [F1 F2].
           rewrite G1, G3, F1, F2. split; assumption.
  - unfold disconnectDevice_after, connect_finally.
    assert (C : calm st (on (set_userDisconnectRef false)
                (on (setIsDisconnecting false) (on (setIsConnected false) st)))).
    { eapply calm_trans; [|apply calm_on]. eapply calm_trans; apply calm_on. }
    destruct from.
    + split; [apply guarded_idle | apply (C L)].
      apply (idle_calm (st := st)); [|exact L|exact I].
      eapply calm_trans; [exact C | apply calm_on].
    + split; [apply guarded_idle; exact (idle_calm C L I) | apply (C L)].
Qed.


Lemma guarded_inversion st :
  guarded st ->
  idle st
  \/ (exists f, Service.connecting st = [f] /\ Service.disconnecting st = []
               /\ flag_of (Service.connectAwaiter f) (state (Service.caller st)) = true
               /\ flag_of (Service.connectAwaiter f) (rendered (Service.caller st)) = true)
  \/ (exists f, Service.connecting st = [] /\ Service.disconnecting st = [f]
               /\ flag_of (Service.disconnectAwaiter f) (state (Service.caller st)) = true
               /\ flag_of (Service.disconnectAwaiter f) (rendered (Service.caller st)) = true).
Proof.
  unfold guarded, awaiters, idle. intros [Hlen Hall].
  destruct (Service.connecting st) as [|f [|f' cs]],
    (Service.disconnecting st) as [|g [|g' ds]]; cbn in *;
    try rewrite length_app in Hlen; cbn in *; try lia.
  - left. split; reflexivity.
  - right. right. exists g. inversion Hall; subst. intuition.
  - right. left. exists f. inversion Hall; subst. intuition.
Qed.

Lemma busy_of_flag a r : flag_of a r = true -> connectionBusy r = true.
Proof.
  unfold flag_of, connectionBusy. destruct (awaits_in_connect a); intros ->;
    [reflexivity | apply orb_true_r].
Qed.

Lemma not_busy_idle st :
  guarded st -> connectionBusy (rendered (Service.caller st)) = false -> idle st.
Proof.
  intros G B. destruct (guarded_inversion G) as [I | [(f & _ & _ & _ & F) | (f & _ & _ & _ & F)]];
    [exact I | |]; apply busy_of_flag in F; congruence.
Qed.

Lemma calm_render st : calm st (render st).
Proof. apply calm_on. Qed.

Lemma render_guarded st :
  Forall (fun a => flag_of a (state (Service.caller st)) = true) (awaiters st) ->
  (List.length (awaiters st) <= 1) ->
  guarded (render st).
Proof.
  intros F Hlen. split; [exact Hlen|].
  unfold render, on, Service.with_caller, awaiters in *.
  cbn [Service.caller Service.connecting Service.disconnecting].
  apply Forall_forall. intros a Ha. rewrite Forall_forall in F.
  destruct (UpdateFacts.flag_of_rendering (Service.caller st) a) as [E1 E2].
  rewrite E1, E2. split; apply F; exact Ha.
Qed.

Lemma guarded_render st : guarded st -> guarded (render st).
Proof.
  intros [Hlen Hall]. apply render_guarded; [|exact Hlen].
  apply Forall_forall. intros a Ha. rewrite Forall_forall in Hall.
  apply Hall. exact Ha.
Qed.

Lemma click_inv st : inv st -> inv (step st Click).
Proof.
  intros [G L]. cbn.
  destruct (connectionBusy (rendered (Service.caller st))) eqn:B; [split; assumption|].
  pose proof (not_busy_idle G B) as I.
  unfold onClick. destruct (isConnected (rendered (Service.caller st))).
  - pose proof (disconnectDevice_cases None L I) as R.
    destruct (disconnectDevice None st) as [st' [|]]; cbn.
    + destruct R as [I' L']. split; [|exact L'].
      apply guarded_idle. exact (idle_calm (@calm_render st') L' I').
    + destruct R as (p & E1 & E2 & L' & _ & Fd & _). split; [|exact L'].
      apply render_guarded; unfold awaiters; rewrite E1, E2; cbn; [|lia].
      constructor; [|constructor]. exact Fd.
  - unfold connect. unfold connectionBusy in B. rewrite B.
    destruct (negb (navigator_bluetooth (Service.caller st))).
    + assert (C : calm st (render (on (showError no_web_bluetooth) st))).
      { eapply calm_trans; apply calm_on. }
      split; [apply guarded_idle; exact (idle_calm C L I) | apply (C L)].
    + set (st1 := on (setIsConnecting true) _).
      assert (C1 : calm st st1).
      { unfold st1. eapply calm_trans; [|apply calm_on].
        eapply calm_trans; [apply calm_on | apply quiet_calm, quiet_stopCommandLoop]. }
      assert (F1 : isConnecting (state (Service.caller st1)) = true) by reflexivity.
      clearbody st1. destruct (C1 L) as (E1 & E2 & L1). destruct I as [I1 I2].
      split; [|exact L1].
      apply render_guarded; unfold awaiters, Service.connect; cbn;
        rewrite E1, E2, I1, I2; cbn; [|lia].
      constructor; [|constructor]. exact F1.
Qed.

Lemma find_single (A : Type) (g : A -> bool) (x f : A) :
  find g [x] = Some f -> x = f /\ g x = true.
Proof.
  cbn. destruct (g x) eqn:E; [|discriminate]. intros H. injection H as ->. auto.
Qed.

Lemma settles_inv p outcome st :
  inv st -> inv (Service.settles handlersOf resume p outcome st).
Proof.
  intros [G L]. unfold Service.settles.
  destruct (find (Service.awaits_tick p) (Service.sending st)) as [t|] eqn:Et.
  { apply find_some in Et. destruct Et as [Hin _].
    assert (Ht : Service.reportTo t = reportError).
    { destruct L as [_ L2]. rewrite Forall_forall in L2. exact (L2 _ Hin). }
    assert (Q : quiet st (Service.tick_resume t outcome
                  (Service.with_sending
                     (filter (fun t0 => negb (Service.awaits_tick p t0))) st))).
    { eapply quiet_trans; [|apply quiet_tick_resume; exact Ht].
      intros [L1 L2]. split; [reflexivity|]. split; [exact L1|].
      cbn. now apply Forall_filter'. }
    destruct (Q L) as [E L']. split; [exact (guarded_same E G) | exact L']. }
  destruct (guarded_inversion G)
    as [[I1 I2] | [(f & E1 & E2 & Fs & Fr) | (f & E1 & E2 & Fs & Fr)]].
  - rewrite I1, I2. cbn. split; assumption.
  - rewrite E1. destruct (find _ [f]) as [f0|] eqn:Ef.
    + apply find_single in Ef. destruct Ef as [<- Hp].
      set (st1 := Service.with_connecting _ st).
      assert (I : idle st1).
      { unfold st1, idle. cbn. rewrite E1, E2. cbn. rewrite Hp. cbn. auto. }
      assert (L1 : loops_of_app st1) by exact L.
      assert (C1 : Service.caller st1 = Service.caller st) by reflexivity.
      clearbody st1.
      pose proof (connect_resume_cases f outcome L1) as R.
      destruct (Service.connect_resume f outcome st1) as [st2 [c|]].
      * destruct R as [E L2]. unfold frames_and_flags, flags in E.
        injection E as F1 F2 F3 F4 F5 F6. destruct I as [I1 I2].
        apply resume_guarded; [exact L2 | split; congruence | |];
          unfold flag_of in *; rewrite C1 in *;
          destruct (awaits_in_connect _); congruence.
      * destruct R as (q & stage & F1 & F2 & F3 & L2). destruct I as [I1 I2].
        split; [|exact L2].
        unfold guarded, awaiters. rewrite F1, F2, F3, I1, I2, C1. cbn.
        split; [lia|]. constructor; [|constructor]. split; assumption.
    + rewrite E2. cbn. split; assumption.
  - rewrite E1. cbn [find]. rewrite E2.
    destruct (find _ [f]) as [f0|] eqn:Ef; [|split; assumption].
    apply find_single in Ef. destruct Ef as [<- Hp].
    set (st1 := Service.with_disconnecting _ st).
    assert (I : idle st1).
    { unfold st1, idle. cbn. rewrite E1, E2. cbn. rewrite Hp. cbn. auto. }
    assert (L1 : loops_of_app st1) by exact L.
    assert (C1 : Service.caller st1 = Service.caller st) by reflexivity.
    clearbody st1.
    destruct (@quiet_disconnect_resume outcome st1 L1) as [E L2].
    set (st2 := Service.disconnect_resume handlersOf outcome st1) in *.
    clearbody st2. unfold frames_and_flags, flags in E.
    injection E as F1 F2 F3 F4 F5 F6. destruct I as [I1 I2].
    apply resume_guarded; [exact L2 | split; congruence | |];
      unfold flag_of in *; rewrite C1 in *;
      destruct (awaits_in_connect _); congruence.
Qed.

Lemma quiet_inv st st' : quiet st st' -> inv st -> inv st'.
Proof.
  intros Q [G L]. destruct (Q L) as [E L']. split; [exact (guarded_same E G) | exact L'].
Qed.

Lemma step_inv st e : inv st -> inv (step st e).
Proof.
  destruct e.
  - apply click_inv.
  - intros [G L]. split; [now apply guarded_render | exact L].
  - apply quiet_inv. apply quiet_on. intros a.
    apply UpdateFacts.setCommand_flags.
  - apply quiet_inv. apply quiet_on. intros a.
    apply UpdateFacts.setCommand_flags.
  - apply quiet_inv, quiet_intervalFires.
  - apply settles_inv.
  - apply quiet_inv, quiet_linkLost.
  - apply quiet_inv, quiet_notified.
Qed.

Lemma run_inv es st : inv st -> inv (run st es).
Proof.
  revert st. induction es as [|e es IH]; intros st H; cbn; [exact H|].
  apply IH, step_inv, H.
Qed.

Lemma initial_inv b : inv (initial b).
Proof.
  split; [apply guarded_idle; split; reflexivity|].
  split; constructor.
Qed.

Lemma reachable_inv st : reachable st -> inv st.
Proof. intros (b & es & ->). apply run_inv, initial_inv. Qed.


Lemma in_flight_le_awaiters st :
  connects_in_flight st <= List.length (awaiters st).
Proof. unfold connects_in_flight. apply filter_length_le. Qed.

(** Overlapping calls of [connect].  In every state the component can
    reach, at most one call of [connect] has passed the guard and not
    finished, and at most one call of the service (a [connect] or a
    [disconnect]) is awaited at all; while one is, a call of the [connect]
    of the last render returns at once, leaving the state as it is, and so
    does a click on the button.  (The flags that the guard reads are those
    of the last render; a click handler's updates are rendered before the
    next event.) *)
Theorem connect_single_flight st :
  reachable st ->
  connects_in_flight st <= 1
  /\ List.length (awaiters st) <= 1
  /\ (awaiters st <> [] ->
      connect (rendered (Service.caller st)) st = st /\ step st Click = st).
Proof.
  intros R. destruct (reachable_inv R) as [G L].
  pose proof (in_flight_le_awaiters st) as Hle.
  destruct G as [Hlen Hall]. split; [lia|]. split; [exact Hlen|].
  intros Hne.
  destruct (awaiters st) as [|a rest] eqn:E; [contradiction|].
  inversion Hall as [|? ? [_ Fr] _]; subst.
  pose proof (busy_of_flag _ _ Fr) as B.
  split.
  - unfold connect. unfold connectionBusy in B. now rewrite B.
  - cbn. now rewrite B.
Qed.

Lemma connect_single_flight_witness :
  reachable Examples.connecting_app
  /\ awaiters Examples.connecting_app <> []
  /\ connects_in_flight Examples.connecting_app <= 1
  /\ step Examples.connecting_app Click = Examples.connecting_app.
Proof.
  assert (R : reachable Examples.connecting_app)
    by (exists true, [Click]; reflexivity).
  assert (N : awaiters Examples.connecting_app <> []) by discriminate.
  split; [exact R|]. split; [exact N|].
  pose proof (@connect_single_flight Examples.connecting_app R) as H.
  split; [exact (proj1 H) | exact (proj2 (proj2 (proj2 H) N))].
Defined.

(** C9.  The guard of [connect] does not keep the component to one
    session.  A first [connect] fails after the GATT server of the first
    rover has opened; [disconnect] leaves that connection and its
    disconnect listener in place.  The user then opens a session with the
    second rover.  When the connection to the first rover drops, the
    listener that was left runs [handleDisconnected]: the component stops
    the loop and shows the button as "connect", while the service still
    holds the open session with the second rover.  The next click passes
    the guard, so a [connect] is in flight while that session is open, and
    when it has finished two GATT connections are open and both
    characteristics notify the component; the service holds the third
    rover only. *)
Theorem stale_listener_allows_second_session :
  let open := run (initial true) Examples.second_open in
  let held := run (initial true) Examples.first_rover_drops in
  let st := step held Click in
  let st' := run st Examples.third_open in
  (sessions open = 1 /\ isConnected (rendered (Service.caller open)) = true)
  /\ (awaiters held = []
      /\ connectionBusy (rendered (Service.caller held)) = false
      /\ isConnected (rendered (Service.caller held)) = false
      /\ Service.device (Service.service held) = Some Examples.second_rover
      /\ Service.connected Examples.second_server held = true)
  /\ (connects_in_flight st = 1
      /\ Service.device (Service.service st) = Some Examples.second_rover
      /\ Service.connected Examples.second_server st = true
      /\ sessions st = 2)
  /\ (awaiters st' = []
      /\ Service.gattConnected (Service.platform st') = [9; 8]
      /\ map fst (Service.characteristicListeners (Service.platform st'))
         = [4; 5]
      /\ Service.device (Service.service st') = Some Examples.third_rover).
Proof. vm_compute. repeat split; reflexivity. Qed.

End AppGuard.

(** ** The loop and the session through the life of the component *)

Module LinkFacts.

Import Service.
Local Open Scope nat_scope.

(** C8.  [stopCommandLoop] on a service whose loop was never started, and
    [disconnect] on a service with no session (never opened, or closed
    already), do not fail and change nothing; a second [stopCommandLoop]
    changes nothing either.  [stopCommandLoop] clears the busy flag and the
    loop id and cancels the timer before it returns: no timer is left, so
    no later interval does anything. *)
Theorem stop_and_close_idempotent :
  (forall (Caller HandlersRef Awaiter : Type) (c : Caller),
      stopCommandLoop (new_world HandlersRef Awaiter c)
      = new_world HandlersRef Awaiter c)
  /\ (forall (Caller HandlersRef Awaiter : Type)
             (st : World Caller HandlersRef Awaiter),
         stopCommandLoop (stopCommandLoop st) = stopCommandLoop st
         /\ writeBusy (service (stopCommandLoop st)) = false
         /\ writeLoopId (service (stopCommandLoop st)) = None)
  /\ (forall (Caller HandlersRef Awaiter : Type)
             (st : World Caller HandlersRef Awaiter),
         timers_owned st ->
         intervals (platform (stopCommandLoop st)) = []
         /\ forall id, intervalFires id (stopCommandLoop st)
                       = stopCommandLoop st)
  /\ (forall (Caller HandlersRef Awaiter : Type)
             (handlersOf : HandlersRef -> BleHandlers Caller HandlersRef Awaiter)
             (a : Awaiter) (c : Caller),
         disconnect handlersOf a (new_world HandlersRef Awaiter c)
         = (new_world HandlersRef Awaiter c, Some (Normal tt)))
  /\ (forall (Caller HandlersRef Awaiter : Type)
             (handlersOf : HandlersRef -> BleHandlers Caller HandlersRef Awaiter)
             (a : Awaiter) (st : World Caller HandlersRef Awaiter),
         session st = (None, None, None, None, None, None) ->
         disconnect handlersOf a st = (st, Some (Normal tt)))
  /\ (forall bluetooth,
         App.disconnectDevice None (App.initial bluetooth)
         = (App.initial bluetooth, true)).
Proof.
  split; [intros; apply LoopFacts.stopCommandLoop_new|].
  split.
  { intros. split; [apply LoopFacts.stopCommandLoop_idempotent|].
    apply LoopFacts.stopCommandLoop_clears. }
  split.
  { intros Caller HandlersRef Awaiter st H.
    pose proof (LoopFacts.stopCommandLoop_intervals H) as E.
    split; [exact E|]. intros id. now apply LoopFacts.intervalFires_idle. }
  split; [intros; reflexivity|].
  split; [intros; now apply LoopFacts.disconnect_closed|].
  intros b. reflexivity.
Qed.

Lemma stop_and_close_idempotent_witness :
  timers_owned Examples.nan_loop
  /\ intervals (platform (stopCommandLoop Examples.nan_loop)) = []
  /\ session (App.run (App.initial true) Examples.full_session)
     = (None, None, None, None, None, None)
  /\ disconnect App.handlersOf (App.DisconnectDeviceAwaits None)
                (App.run (App.initial true) Examples.full_session)
     = (App.run (App.initial true) Examples.full_session, Some (Normal tt)).
Proof.
  assert (O : timers_owned Examples.nan_loop) by reflexivity.
  assert (S : session (App.run (App.initial true) Examples.full_session)
              = (None, None, None, None, None, None)) by reflexivity.
  split; [exact O|].
  split; [exact (proj1 (proj1 (proj2 (proj2 stop_and_close_idempotent))
                          _ _ _ Examples.nan_loop O))|].
  split; [exact S|].
  exact (proj1 (proj2 (proj2 (proj2 (proj2 stop_and_close_idempotent))))
               _ _ _ App.handlersOf (App.DisconnectDeviceAwaits None) _ S).
Defined.

(** C10.  [startCommandLoop] on a service whose loop is running returns the
    state as it is: no second timer, and the callbacks of the running loop
    stay.  It installs a timer exactly when no loop id is stored, as after
    [stopCommandLoop]; at most one timer is active, in every state the
    component can reach. *)
Theorem startCommandLoop_single_timer :
  (forall (Caller HandlersRef Awaiter : Type)
          (st : World Caller HandlersRef Awaiter) g h ms,
      writeLoopId (service st) <> None -> startCommandLoop g h ms st = st)
  /\ (forall (Caller HandlersRef Awaiter : Type)
             (st : World Caller HandlersRef Awaiter) g h ms,
         timers_owned st ->
         timers_owned (startCommandLoop g h ms st)
         /\ List.length (intervals (platform (startCommandLoop g h ms st))) <= 1
         /\ (writeLoopId (service st) = None ->
             intervals (platform (startCommandLoop g h ms st))
             = [(nextTimer (platform st), fresh_loop g h ms)])
         /\ intervals (platform (startCommandLoop g h ms (stopCommandLoop st)))
            = [(nextTimer (platform st), fresh_loop g h ms)])
  /\ (forall st : App.World,
         App.reachable st ->
         timers_owned st /\ List.length (intervals (platform st)) <= 1).
Proof.
  split; [intros; now apply LoopFacts.startCommandLoop_running|].
  split.
  - intros Caller HandlersRef Awaiter st g h ms H.
    pose proof (TimerFacts.startCommandLoop_owned g h ms H) as H'.
    split; [exact H'|]. split; [now apply TimerFacts.owned_at_most_one|].
    split.
    + intros E. apply LoopFacts.startCommandLoop_idle; [exact E|].
      now apply LoopFacts.timers_owned_none.
    + rewrite <- (LoopFacts.stopCommandLoop_nextTimer st).
      apply LoopFacts.startCommandLoop_idle.
      * apply LoopFacts.stopCommandLoop_clears.
      * now apply LoopFacts.stopCommandLoop_intervals.
  - intros st R. pose proof (AppTimers.reachable_owned R) as H.
    split; [exact H | now apply TimerFacts.owned_at_most_one].
Qed.

Lemma startCommandLoop_single_timer_witness :
  writeLoopId (service Examples.nan_loop) <> None
  /\ timers_owned Examples.nan_loop
  /\ startCommandLoop (fun _ => Examples.nan_command) Examples.log_error
                      (Some 20%Z) Examples.nan_loop
     = Examples.nan_loop
  /\ List.length
       (intervals (platform (App.run (App.initial true)
                                     Examples.full_session))) <= 1.
Proof.
  assert (N : writeLoopId (service Examples.nan_loop) <> None) by discriminate.
  split; [exact N|]. split; [reflexivity|].
  split; [exact (proj1 startCommandLoop_single_timer _ _ _ Examples.nan_loop
                       _ _ _ N)|].
  apply (proj2 (proj2 startCommandLoop_single_timer)).
  exists true, Examples.full_session. reflexivity.
Defined.

(** A rejected write: the user is told once, the loop is stopped and its
    timer cancelled, the session stays as it was. *)
Example write_failure_stops_loop :
  let st := App.run (App.initial true) Examples.write_rejected in
  App.alerts (caller st) = ["GATT operation failed for unknown reason."%string]
  /\ writeLoopId (service st) = None
  /\ intervals (platform st) = []
  /\ sending st = []
  /\ device (service st) = Some Examples.rover
  /\ writeChar (service st) = Some Examples.rover_characteristic
  /\ gattConnected (platform st) = [7]
  /\ made is_write st = 1.
Proof. vm_compute. repeat split; reflexivity. Qed.

(** A dismissed chooser: nothing is shown to the user, and the component is
    back where it started. *)
Example chooser_dismissed_silently :
  let st := App.run (App.initial true) Examples.chooser_dismissed in
  App.alerts (caller st) = []
  /\ App.state (caller st) = App.initial_state
  /\ App.awaiters st = []
  /\ service st = new_service App.HandlersRef.
Proof. vm_compute. repeat split; reflexivity. Qed.

Lemma attached_removed (H : Type) target (l : Listener H) ls :
  attached target l (removeEventListener target l ls) = false.
Proof.
  unfold attached, removeEventListener.
  induction ls as [|t ls IH]; [reflexivity|].
  cbn. destruct (Nat.eqb (fst t) target && same_listener l t) eqn:E; cbn.
  - exact IH.
  - rewrite E. exact IH.
Qed.

Lemma stopCommandLoop_session (Caller HandlersRef Awaiter : Type)
      (st : World Caller HandlersRef Awaiter) :
  session (stopCommandLoop st) = session st
  /\ link (stopCommandLoop st) = link st.
Proof.
  unfold stopCommandLoop. destruct (writeLoopId (service st)); split; reflexivity.
Qed.

Lemma handleDisconnected_session (st : App.World) :
  session (App.handleDisconnected st) = session st
  /\ link (App.handleDisconnected st) = link st.
Proof.
  unfold App.handleDisconnected.
  destruct (stopCommandLoop_session st) as [E1 E2].
  match goal with |- context [if ?b then _ else _] => destruct b end;
    split; cbn; assumption.
Qed.

Lemma fire_session dev (st : App.World) :
  session (fire_gattserverdisconnected App.handlersOf dev st) = session st
  /\ link (fire_gattserverdisconnected App.handlersOf dev st) = link st.
Proof.
  unfold fire_gattserverdisconnected.
  generalize (listenersOf dev (deviceListeners (platform st))).
  intros ls. revert st. induction ls as [|l ls IH]; intros st; cbn.
  - split; reflexivity.
  - destruct l as [n []].
    cbn [fold_left handlers listenerId App.handlersOf onDisconnect].
    destruct (IH (App.handleDisconnected (record (CallOnDisconnect n) st)))
      as [E1 E2].
    rewrite E1, E2.
    exact (handleDisconnected_session (record (CallOnDisconnect n) st)).
Qed.

(** When the service holds the device and its disconnect listener (as it
    does once [connect] has run to its end), [disconnect] detaches the
    listener: no later event at the device reaches it. *)
Lemma full_teardown_detaches (st : App.World) d h :
  device (service st) = Some d ->
  disconnectHandler (service st) = Some h ->
  attached (deviceId d) h
           (deviceListeners (platform (disconnect_rest App.handlersOf st)))
  = false.
Proof.
  intros Hd Hh. unfold disconnect_rest.
  set (st1 := match server (service st) with
              | Some s => if connected s st
                          then server_disconnect App.handlersOf s st else st
              | None => st
              end).
  assert (E : session st1 = session st).
  { unfold st1. destruct (server (service st)) as [s|]; [|reflexivity].
    destruct (connected s st); [|reflexivity].
    unfold server_disconnect. now rewrite (proj1 (fire_session _ _)). }
  clearbody st1. unfold session in E. cbn in E.
  injection E as E1 _ _ _ _ E6. rewrite E1, E6, Hd, Hh. cbn.
  apply attached_removed.
Qed.

(** A session that opened in full is torn down in full: the disconnect
    listener runs once while [disconnect] closes the server (no alert, the
    user asked for it), it is detached, and a later loss of the link
    reaches nobody. *)
Example full_session_detaches :
  let st := App.run (App.initial true) Examples.full_session in
  made is_onDisconnect st = 1
  /\ App.alerts (caller st) = []
  /\ deviceListeners (platform st) = []
  /\ App.step st (App.LinkLost 7) = st.
Proof. vm_compute. repeat split; reflexivity. Qed.

(** C7 (the code departs from it).  A [connect] fails after the device was
    chosen and its GATT server opened; [connect] tears the session down with
    [disconnectDevice], which runs to its end.  The service holds no session
    any more, yet the disconnect listener is still attached to the device
    and the server is still connected ([disconnect] finds no [#device] and
    no [#server]).  When the link is lost later, [onDisconnect] is called
    and the user is alerted. *)
Theorem partial_session_leaks_onDisconnect :
  let st := App.run (App.initial true) Examples.partial_open in
  service st = new_service App.HandlersRef
  /\ App.awaiters st = []
  /\ App.userDisconnectRef (caller st) = false
  /\ made is_onDisconnect st = 0
  /\ listenersOf 7 (deviceListeners (platform st))
     = [{| listenerId := 0; handlers := App.AppHandlers |}]
  /\ gattConnected (platform st) = [7]
  /\ made is_onDisconnect (App.step st (App.LinkLost 7)) = 1
  /\ App.alerts (caller (App.step st (App.LinkLost 7)))
     = App.unexpectedly_disconnected :: App.alerts (caller st).
Proof. vm_compute. repeat split; reflexivity. Qed.

(** C1 (the code departs from it).  The tick of an earlier loop, whose write
    is still unsettled when that loop is stopped and a new one started,
    clears the busy flag when its write settles at last; the new loop then
    starts a second write while its first is unsettled.  After the run
    [stale_tick] the second loop (timer 2) has one write in flight and the
    busy flag is clear; timer 2 fires once more ([stale_tick_race]) and a
    second write of the same loop is in flight. *)
Theorem stale_tick_breaks_single_flight :
  let st := App.run (App.initial true) Examples.stale_tick in
  let st' := App.run (App.initial true) Examples.stale_tick_race in
  App.reachable st'
  /\ writeLoopId (service st) = Some 2
  /\ in_flight 2 st = 1
  /\ writeBusy (service st) = false
  /\ writeLoopId (service st') = Some 2
  /\ map (fun t => (awaited t, issuedBy t)) (sending st') = [(13, 2); (12, 2)]
  /\ in_flight 2 st' = 2
  /\ made is_write st' = S (made is_write st).
Proof.
  split.
  - exists true, Examples.stale_tick_race. reflexivity.
  - vm_compute. repeat split; reflexivity.
Qed.

End LinkFacts.

(** ** The loop at work *)

Module LoopRuns.

Import Service LoopFacts.
Local Open Scope nat_scope.

Section Runs.

Variables Caller HandlersRef Awaiter : Type.
Variable handlersOf : HandlersRef -> BleHandlers Caller HandlersRef Awaiter.
Variable resume : Awaiter -> Completion unit
                  -> World Caller HandlersRef Awaiter
                  -> World Caller HandlersRef Awaiter.

Lemma tick_starts_write (st : World Caller HandlersRef Awaiter) id k c :
  timer id st = Some k ->
  writeBusy (service st) = false ->
  writeChar (service st) = Some c ->
  existsb isNaN (Object_values (getCommand k (caller st))) = false ->
  let st' := intervalFires id st in
  let command := getCommand k (caller st) in
  let payload :=
    Codec.float32_le (vx command) ++ Codec.float32_le (vy command)
    ++ Codec.float32_le (w command) in
  calls (platform st')
  = (if hasWriteValueWithoutResponse c
     then CallWriteValueWithoutResponse (characteristicId c) payload
     else CallWriteValueWithResponse (characteristicId c) payload)
    :: CallEncodeCommand command :: CallGetCommand :: calls (platform st)
  /\ sending st'
     = {| awaited := nextPromise (platform st); issuedBy := id;
          reportTo := onError k |} :: sending st
  /\ service st' = set_writeBusy true (service st)
  /\ intervals (platform st') = intervals (platform st)
  /\ caller st' = caller st.
Proof.
  intros Ht Hb Hc Hn. cbn zeta. unfold intervalFires. rewrite Ht.
  unfold tick. rewrite Hb. cbn [caller with_service record with_platform].
  rewrite Hn. unfold writeCommand.
  cbn [service with_service record with_platform writeChar set_writeBusy].
  rewrite Hc. rewrite CodecFacts.encodeCommand_bytes.
  destruct (hasWriteValueWithoutResponse c); cbn; repeat split; reflexivity.
Qed.

(** X1.  A tick of an idle loop whose command holds no NaN, on a service
    with a write characteristic: the callback fetches the command once,
    encodes it, and starts exactly one write of the twelve bytes that
    [#encodeCommand] returns, with [writeValueWithoutResponse] when the
    characteristic has that method and with [writeValueWithResponse]
    otherwise.  It then waits for that write with the busy flag set; the
    timer keeps running and the caller is not told anything. *)
Theorem tick_sends_command (st : World Caller HandlersRef Awaiter) id k c :
  timer id st = Some k ->
  writeBusy (service st) = false ->
  writeChar (service st) = Some c ->
  existsb isNaN (Object_values (getCommand k (caller st))) = false ->
  let st' := intervalFires id st in
  let command := getCommand k (caller st) in
  exists payload,
    Codec.encodeCommand command = Normal payload
    /\ List.length payload = 12
    /\ calls (platform st')
       = (if hasWriteValueWithoutResponse c
          then CallWriteValueWithoutResponse (characteristicId c) payload
          else CallWriteValueWithResponse (characteristicId c) payload)
         :: CallEncodeCommand command :: CallGetCommand :: calls (platform st)
    /\ sending st'
       = {| awaited := nextPromise (platform st); issuedBy := id;
            reportTo := onError k |} :: sending st
    /\ writeBusy (service st') = true
    /\ writeLoopId (service st') = writeLoopId (service st)
    /\ intervals (platform st') = intervals (platform st)
    /\ caller st' = caller st.
Proof.
  intros Ht Hb Hc Hn. cbn zeta.
  destruct (tick_starts_write st id Ht Hb Hc Hn) as (E1 & E2 & E3 & E4 & E5).
  eexists. split; [apply CodecFacts.encodeCommand_bytes|].
  split; [reflexivity|]. rewrite E3.
  repeat split; assumption.
Qed.

(** X2.  One turn of the loop.  The timer fires on an idle loop; while the
    write is in flight the timer fires [n] more times; the write is then
    fulfilled.  The later firings did nothing: one command was fetched and
    one write made, no error was reported, and the service, its timer and
    the caller are as they were before the turn, ready for the next
    firing. *)
Theorem loop_turn (st : World Caller HandlersRef Awaiter) id k c n v :
  timer id st = Some k ->
  writeBusy (service st) = false ->
  sending st = [] ->
  writeChar (service st) = Some c ->
  existsb isNaN (Object_values (getCommand k (caller st))) = false ->
  let st' :=
    run handlersOf resume st
        (IntervalFires _ _ _ id :: repeat (IntervalFires _ _ _ id) n
         ++ [Settles _ _ _ (nextPromise (platform st)) (Normal v)]) in
  service st' = service st
  /\ caller st' = caller st
  /\ sending st' = []
  /\ intervals (platform st') = intervals (platform st)
  /\ made is_write st' = S (made is_write st)
  /\ made is_encode st' = S (made is_encode st)
  /\ made is_onError st' = made is_onError st.
Proof.
  intros Ht Hb Hs Hc Hn. cbn zeta.
  destruct (tick_starts_write st id Ht Hb Hc Hn) as (E1 & E2 & E3 & E4 & E5).
  unfold run. cbn [fold_left step]. rewrite fold_left_app.
  set (st1 := intervalFires id st) in *.
  assert (Hk : timer id st1 = Some k).
  { unfold timer. rewrite E4. exact Ht. }
  assert (R : fold_left (step handlersOf resume)
                        (repeat (IntervalFires _ _ _ id) n) st1 = st1).
  { induction n as [|n IH]; [reflexivity|]. cbn [repeat fold_left step].
    unfold intervalFires at 1. rewrite Hk. unfold tick. rewrite E3.
    exact IH. }
  rewrite R. cbn [fold_left step]. unfold settles. rewrite E2.
  unfold awaits_tick. cbn [find awaited]. rewrite Nat.eqb_refl.
  unfold made.
  cbn [tick_resume tick_finally with_sending with_service service caller
       sending platform]. rewrite E2, Hs, E1, E3, E4, E5.
  cbn [filter awaited]. rewrite Nat.eqb_refl. cbn [negb].
  repeat split; try reflexivity.
  - destruct (service st); cbn in *. now rewrite Hb.
  - destruct (hasWriteValueWithoutResponse c); reflexivity.
  - destruct (hasWriteValueWithoutResponse c); reflexivity.
  - destruct (hasWriteValueWithoutResponse c); reflexivity.
Qed.

End Runs.

Lemma tick_sends_command_witness :
  timer 1 Examples.ready
  = Some (fresh_loop (fun _ => Examples.cruise) Examples.log_error None)
  /\ exists payload,
      Codec.encodeCommand Examples.cruise = Normal payload
      /\ List.length payload = 12
      /\ calls (platform (intervalFires 1 Examples.ready))
         = [CallWriteValueWithoutResponse 3 payload;
            CallEncodeCommand Examples.cruise;
            CallGetCommand; CallSetInterval 1 50].
Proof.
  split; [reflexivity|].
  destruct (@tick_sends_command Examples.Log unit unit Examples.ready 1 _
              Examples.rover_characteristic
              eq_refl eq_refl eq_refl eq_refl)
    as (payload & E1 & E2 & E3 & _).
  exists payload. split; [exact E1|]. split; [exact E2|]. exact E3.
Defined.

Lemma loop_turn_witness :
  timer 1 Examples.ready
  = Some (fresh_loop (fun _ => Examples.cruise) Examples.log_error None)
  /\ service (run Examples.log_handlers Examples.log_resume Examples.ready
                  [IntervalFires _ _ _ 1; IntervalFires _ _ _ 1;
                   IntervalFires _ _ _ 1; Settles _ _ _ 0 Examples.done])
     = service Examples.ready.
Proof.
  split; [reflexivity|].
  exact (proj1 (@loop_turn Examples.Log unit unit Examples.log_handlers
                  Examples.log_resume Examples.ready 1 _
                  Examples.rover_characteristic
                  2 VUndefined eq_refl eq_refl eq_refl eq_refl eq_refl)).
Defined.

Lemma single_flight_orderly_witness :
  exclusive Examples.ready
  /\ orderly Examples.log_handlers Examples.log_resume Examples.ready
             [IntervalFires _ _ _ 1; IntervalFires _ _ _ 1;
              Settles _ _ _ 0 Examples.done; StopCommandLoop _ _ _]
  /\ forall id,
      in_flight id
        (run Examples.log_handlers Examples.log_resume Examples.ready
             [IntervalFires _ _ _ 1; IntervalFires _ _ _ 1;
              Settles _ _ _ 0 Examples.done; StopCommandLoop _ _ _]) <= 1.
Proof.
  assert (E : exclusive Examples.ready) by (left; reflexivity).
  assert (O : orderly Examples.log_handlers Examples.log_resume
                Examples.ready
                [IntervalFires _ _ _ 1; IntervalFires _ _ _ 1;
                 Settles _ _ _ 0 Examples.done; StopCommandLoop _ _ _]).
  { cbn. repeat split; try reflexivity. discriminate. }
  split; [exact E|]. split; [exact O|].
  exact (proj2 (single_flight_orderly Examples.log_handlers
                  Examples.log_resume _ E O)).
Defined.

End LoopRuns.

(** ** The session: what [connect] and [disconnect] leave behind *)

Module SessionFacts.

Import Service LoopFacts LinkFacts.
Local Open Scope nat_scope.

(** X4.  [connect] assigns [#device], [#server], [#writeChar] and
    [#notifyChar] only in its last step, all four together and with the
    same characteristic for writing and for notifications.  Whenever it
    stops earlier (it is suspended again, or it fails) the four fields are
    what they were before; it never touches the loop. *)
Theorem connect_sets_session_at_end
        (Caller HandlersRef Awaiter : Type)
        (st : World Caller HandlersRef Awaiter) f outcome :
  let st' := fst (connect_resume f outcome st) in
  match snd (connect_resume f outcome st) with
  | Some (Normal _) =>
      exists d s c,
        connectStage f = AwaitStartNotifications d s c
        /\ service st'
           = set_session (Some d) (Some s) (Some c) (Some c) (service st)
        /\ platform st' = platform st
  | _ =>
      device (service st') = device (service st)
      /\ server (service st') = server (service st)
      /\ writeChar (service st') = writeChar (service st)
      /\ notifyChar (service st') = notifyChar (service st)
  end
  /\ writeLoopId (service st') = writeLoopId (service st)
  /\ writeBusy (service st') = writeBusy (service st)
  /\ intervals (platform st') = intervals (platform st).
Proof.
  destruct outcome as [v|e]; [|cbn; auto 10].
  destruct f as [p stage h a].
  destruct stage as [|d|d s|d s|d s c]; destruct v;
    cbn; try destruct (hasGatt _); cbn; eauto 10.
Qed.

Lemma dropped_not_connected dev l :
  existsb (Nat.eqb dev) (filter (fun d => negb (Nat.eqb d dev)) l) = false.
Proof.
  induction l as [|x xs IH]; [reflexivity|].
  cbn. destruct (Nat.eqb x dev) eqn:Hx; cbn; [exact IH|].
  rewrite Nat.eqb_sym, Hx. exact IH.
Qed.

(** X5.  [disconnect], once [#stopNotifications] is over, ends with a
    service that holds no session, whether stopping the notifications
    succeeded or failed (a failure is only logged).  If the service held a
    server, that server is not connected afterwards; if it held the device
    and its disconnect listener, the listener is not attached any more. *)
Theorem disconnect_closes_session (st : App.World) outcome :
  let st' := disconnect_resume App.handlersOf outcome st in
  session st' = (None, None, None, None, None, None)
  /\ (forall s, server (service st) = Some s -> connected s st' = false)
  /\ (forall d h,
         device (service st) = Some d ->
         disconnectHandler (service st) = Some h ->
         attached (deviceId d) h (deviceListeners (platform st')) = false).
Proof.
  cbn zeta. unfold disconnect_resume.
  set (st0 := stopNotifications_resume outcome st).
  assert (S0 : service st0 = set_notifyHandler None (service st)).
  { unfold st0, stopNotifications_resume. destruct outcome; reflexivity. }
  assert (L0 : link st0 = link st).
  { unfold st0, stopNotifications_resume. destruct outcome; reflexivity. }
  clearbody st0. unfold disconnect_rest.
  set (st1 := match server (service st0) with
              | Some s => if connected s st0
                          then server_disconnect App.handlersOf s st0 else st0
              | None => st0
              end).
  assert (S1 : session st1 = session st0).
  { unfold st1. destruct (server (service st0)) as [s|]; [|reflexivity].
    destruct (connected s st0); [|reflexivity].
    unfold server_disconnect. now rewrite (proj1 (fire_session _ _)). }
  assert (C1 : forall s, server (service st) = Some s ->
                         connected s st1 = false).
  { intros s Hs. unfold st1. rewrite S0. cbn [server set_notifyHandler].
    rewrite Hs. destruct (connected s st0) eqn:Hc; [|exact Hc].
    unfold server_disconnect, connected.
    pose proof (proj2 (fire_session (serverDevice s)
      (drop_connection (serverDevice s)
         (record (CallServerDisconnect (serverDevice s)) st0)))) as E.
    unfold link in E. injection E as E _ _. rewrite E. cbn.
    apply dropped_not_connected. }
  clearbody st1. unfold session in S1. rewrite S0 in S1. cbn in S1.
  injection S1 as E1 E2 E3 E4 E5 E6. rewrite E1, E6.
  split; [|split].
  - destruct (device (service st)), (disconnectHandler (service st));
      unfold session; cbn; rewrite E5; reflexivity.
  - intros s Hs. specialize (C1 s Hs). unfold connected in *.
    destruct (device (service st)), (disconnectHandler (service st));
      exact C1.
  - intros d h Hd Hh. rewrite Hd, Hh. cbn. apply attached_removed.
Qed.

Lemma disconnect_closes_session_witness :
  server (service Examples.connected_app) = Some Examples.rover_server
  /\ connected Examples.rover_server
               (disconnect_resume App.handlersOf Examples.done
                                  Examples.connected_app) = false.
Proof.
  assert (H : server (service Examples.connected_app)
              = Some Examples.rover_server) by (vm_compute; reflexivity).
  split; [exact H|].
  exact (proj1 (proj2 (disconnect_closes_session Examples.connected_app
                                                 Examples.done)) _ H).
Defined.

(** X6.  The last step of a [connect] succeeds.  The service then holds the
    whole session, the component shows "connected" and clears
    [isConnecting], and [startWriteLoop] leaves exactly one timer: a new
    one, of 50 ms, that reads [commandRef] and reports through
    [showError]; the loop is idle and nothing is shown to the user.  The
    guard of [startWriteLoop] looks at the flags of the render in which
    [connect] was called, which passed the guard of [connect]. *)
Theorem connected_starts_one_loop (st : App.World) p f d s c r v :
  timers_owned st ->
  find (awaits_tick p) (sending st) = None ->
  find (awaits_connect p) (connecting st) = Some f ->
  connectStage f = AwaitStartNotifications d s c ->
  connectAwaiter f = App.ConnectAwaitsService r ->
  App.connectionBusy r = false ->
  let st' := App.step st (App.Settles p (Normal v)) in
  (device (service st'), server (service st'),
   writeChar (service st'), notifyChar (service st'))
  = (Some d, Some s, Some c, Some c)
  /\ App.isConnected (App.state (caller st')) = true
  /\ App.isConnecting (App.state (caller st')) = false
  /\ intervals (platform st')
     = [(nextTimer (platform st),
         fresh_loop App.currentCommand App.reportError (Some 50%Z))]
  /\ writeLoopId (service st') = Some (nextTimer (platform st))
  /\ writeBusy (service st') = false
  /\ App.alerts (caller st') = App.alerts (caller st)
  /\ connecting st' = filter (fun f => negb (awaits_connect p f)) (connecting st)
  /\ disconnecting st' = disconnecting st.
Proof.
  intros Hown Ht Hf Hstage Ha Hbusy. cbn zeta. cbn [App.step].
  unfold settles. rewrite Ht, Hf.
  destruct f as [p' stage h a]. cbn in Hstage, Ha. subst stage a.
  cbn [connect_resume connectStage connectAwaiter App.resume].
  unfold App.connect_after, App.startWriteLoop.
  unfold App.connectionBusy in Hbusy. rewrite orb_comm in Hbusy.
  rewrite Hbusy.
  set (st1 := App.on (App.setIsConnected true) _).
  assert (O1 : timers_owned st1) by exact Hown.
  assert (N1 : nextTimer (platform st1) = nextTimer (platform st))
    by reflexivity.
  pose proof (stopCommandLoop_intervals O1) as I2.
  pose proof (stopCommandLoop_clears st1) as [B2 W2].
  pose proof (stopCommandLoop_nextTimer st1) as N2.
  pose proof (stopCommandLoop_session st1) as [S2 _].
  assert (C2 : caller (stopCommandLoop st1) = caller st1).
  { unfold stopCommandLoop. destruct (writeLoopId (service st1)); reflexivity. }
  assert (F2 : connecting (stopCommandLoop st1) = connecting st1
               /\ disconnecting (stopCommandLoop st1) = disconnecting st1).
  { unfold stopCommandLoop. destruct (writeLoopId (service st1));
      split; reflexivity. }
  destruct F2 as [F2 F3].
  set (st2 := stopCommandLoop st1) in *.
  destruct (startCommandLoop_idle st2 App.currentCommand App.reportError
              (Some 50%Z) W2 I2) as [I3 W3].
  assert (R3 : forall st : App.World,
             writeLoopId (service st) = None ->
             let st' := startCommandLoop App.currentCommand App.reportError
                                         (Some 50%Z) st in
             session st' = session st /\ caller st' = caller st
             /\ writeBusy (service st') = writeBusy (service st)
             /\ connecting st' = connecting st
             /\ disconnecting st' = disconnecting st).
  { intros x Hx. cbn zeta. unfold startCommandLoop. rewrite Hx.
    repeat split; reflexivity. }
  destruct (R3 st2 W2) as (S3 & C3 & B3 & F4 & F5).
  set (st3 := startCommandLoop _ _ _ st2) in *. clearbody st3.
  unfold App.connect_finally, App.on.
  cbn [service platform caller connecting disconnecting with_caller].
  rewrite I3, W3, B3, B2, C3, C2, N2, N1, F4, F2, F5, F3.
  unfold session in S3, S2. rewrite S2 in S3.
  injection S3 as E1 E2 E3 E4 _ _. rewrite E1, E2, E3, E4.
  repeat split; reflexivity.
Qed.

(** X7.  A [connect] fails, at any of its steps; the error is logged.
    When it reads as a cancellation by the user, nothing is shown:
    [isConnecting] is cleared, and the service, the platform's side of the
    link and the timers stay as they are.  Otherwise the message is shown
    once and [disconnectDevice] is run; with no earlier session in the
    service it runs to its end, and leaves no session, no loop, and all the
    flags cleared. *)
Theorem connect_failure_handling (st : App.World) p f r e :
  find (awaits_tick p) (sending st) = None ->
  find (awaits_connect p) (connecting st) = Some f ->
  connectAwaiter f = App.ConnectAwaitsService r ->
  let st' := App.step st (App.Settles p (Throw e)) in
  (App.isUserCancelledError e = true ->
   calls (platform st') = ConsoleError e :: calls (platform st)
   /\ App.alerts (caller st') = App.alerts (caller st)
   /\ App.isConnecting (App.state (caller st')) = false
   /\ App.isConnected (App.state (caller st'))
      = App.isConnected (App.state (caller st))
   /\ service st' = service st
   /\ link st' = link st
   /\ intervals (platform st') = intervals (platform st)
   /\ connecting st'
      = filter (fun f => negb (awaits_connect p f)) (connecting st)
   /\ disconnecting st' = disconnecting st)
  /\ (App.isUserCancelledError e = false ->
      server (service st) = None ->
      notifyChar (service st) = None ->
      App.alerts (caller st') = message e :: App.alerts (caller st)
      /\ App.isConnecting (App.state (caller st')) = false
      /\ App.isConnected (App.state (caller st')) = false
      /\ App.isDisconnecting (App.state (caller st')) = false
      /\ App.userDisconnectRef (caller st') = false
      /\ session st' = (None, None, None, None, None, None)
      /\ writeLoopId (service st') = None
      /\ writeBusy (service st') = false
      /\ connecting st'
         = filter (fun f => negb (awaits_connect p f)) (connecting st)
      /\ disconnecting st' = disconnecting st).
Proof.
  intros Ht Hf Ha. cbn zeta. cbn [App.step].
  unfold settles. rewrite Ht, Hf.
  cbn [connect_resume]. rewrite Ha. cbn [App.resume App.connect_after].
  destruct (App.isUserCancelledError e) eqn:Hc.
  - split; [intros _|intros; discriminate].
    vm_compute. repeat split; reflexivity.
  - split; [intros; discriminate|intros _ Hs Hn].
    destruct st as [svc plat cal snd conn disc].
    destruct svc as [dv sv wc nc nh dh wl wb]. cbn in Hs, Hn. subst sv nc.
    unfold App.disconnectDevice, disconnect, stopNotifications,
      stopCommandLoop, disconnect_rest.
    destruct wl, dv, dh; vm_compute; repeat split; reflexivity.
Qed.

Lemma connected_starts_one_loop_witness :
  timers_owned Examples.starting_notifications
  /\ App.connectionBusy App.initial_state = false
  /\ intervals
       (platform (App.step Examples.starting_notifications
                           (App.Settles 4 (Normal VUndefined))))
     = [(nextTimer (platform Examples.starting_notifications),
         fresh_loop App.currentCommand App.reportError (Some 50%Z))].
Proof.
  assert (H1 : timers_owned Examples.starting_notifications)
    by (vm_compute; reflexivity).
  assert (H2 : find (awaits_tick 4) (sending Examples.starting_notifications)
               = None) by (vm_compute; reflexivity).
  assert (H3 : find (awaits_connect 4)
                    (connecting Examples.starting_notifications)
               = Some {| connectAwaits := 4;
                         connectStage :=
                           AwaitStartNotifications
                             Examples.rover Examples.rover_server
                             Examples.rover_characteristic;
                         connectHandlers := App.AppHandlers;
                         connectAwaiter :=
                           App.ConnectAwaitsService App.initial_state |})
    by (vm_compute; reflexivity).
  split; [exact H1|]. split; [reflexivity|].
  exact (proj1 (proj2 (proj2 (proj2
    (@connected_starts_one_loop Examples.starting_notifications 4 _
       Examples.rover Examples.rover_server Examples.rover_characteristic
       App.initial_state VUndefined H1 H2 H3 eq_refl eq_refl eq_refl))))).
Defined.

Lemma connect_failure_handling_witness :
  App.isUserCancelledError (Error "GATT Error: Not supported.") = false
  /\ App.alerts
       (caller (App.step Examples.connecting_app
                         (App.Settles
                            0 (Throw (Error "GATT Error: Not supported.")))))
     = message (Error "GATT Error: Not supported.")
       :: App.alerts (caller Examples.connecting_app).
Proof.
  assert (H0 : App.isUserCancelledError (Error "GATT Error: Not supported.")
               = false) by (vm_compute; reflexivity).
  assert (H1 : find (awaits_tick 0) (sending Examples.connecting_app) = None)
    by (vm_compute; reflexivity).
  assert (H2 : find (awaits_connect 0) (connecting Examples.connecting_app)
               = Some {| connectAwaits := 0;
                         connectStage := AwaitRequestDevice;
                         connectHandlers := App.AppHandlers;
                         connectAwaiter :=
                           App.ConnectAwaitsService App.initial_state |})
    by (vm_compute; reflexivity).
  assert (H3 : server (service Examples.connecting_app) = None)
    by (vm_compute; reflexivity).
  assert (H4 : notifyChar (service Examples.connecting_app) = None)
    by (vm_compute; reflexivity).
  split; [exact H0|].
  exact (proj1 (proj2 (@connect_failure_handling Examples.connecting_app 0 _
                         App.initial_state
                         (Error "GATT Error: Not supported.")
                         H1 H2 eq_refl) H0 H3 H4)).
Defined.

Lemma disconnect_rest_held (st : App.World) d s dh :
  server (service st) = Some s ->
  device (service st) = Some d ->
  disconnectHandler (service st) = Some dh ->
  serverDevice s = deviceId d ->
  connected s st = true ->
  listenersOf (deviceId d) (deviceListeners (platform st)) = [dh] ->
  disconnect_rest App.handlersOf st
  = with_service
      (fun s => set_disconnectHandler None (set_session None None None None s))
      (with_platform
         (fun p => set_deviceListeners
                     (removeEventListener (deviceId d) dh (deviceListeners p))
                     p)
         (App.handleDisconnected
            (record (CallOnDisconnect (listenerId dh))
               (drop_connection (deviceId d)
                  (record (CallServerDisconnect (deviceId d)) st))))).
Proof.
  intros Hs Hd Hh Hsd Hc Hl. unfold disconnect_rest. rewrite Hs, Hc.
  unfold server_disconnect, fire_gattserverdisconnected. rewrite Hsd.
  change (deviceListeners
            (platform (drop_connection (deviceId d)
                         (record (CallServerDisconnect (deviceId d)) st))))
    with (deviceListeners (platform st)).
  rewrite Hl. cbn [fold_left]. destruct dh as [n []].
  cbn [handlers listenerId App.handlersOf onDisconnect].
  set (st1 := App.handleDisconnected _).
  assert (E : session st1 = session st).
  { unfold st1. now rewrite (proj1 (handleDisconnected_session _)). }
  clearbody st1. unfold session in E. rewrite Hd, Hh in E.
  injection E as -> _ _ _ _ ->. reflexivity.
Qed.

(** X14.  The user disconnects from an open session while no call of the
    service is awaited.  The click stops the loop, detaches the notification
    listener and asks the characteristic to stop notifying; when that
    request is settled, whether fulfilled or rejected, the server is closed,
    the disconnect listener runs once and is detached, and the service holds
    no session.  Nothing is shown to the user, and the component ends
    disconnected, with its flags cleared and nothing awaited. *)
Theorem user_disconnect_is_silent (st : App.World) d s c nh dh outcome :
  timers_owned st ->
  App.isConnected (App.rendered (caller st)) = true ->
  App.connectionBusy (App.rendered (caller st)) = false ->
  session st = (Some d, Some s, Some c, Some c, Some nh, Some dh) ->
  serverDevice s = deviceId d ->
  connected s st = true ->
  listenersOf (deviceId d) (deviceListeners (platform st)) = [dh] ->
  find (awaits_tick (nextPromise (platform st))) (sending st) = None ->
  connecting st = [] ->
  disconnecting st = [] ->
  let st' :=
    App.run st [App.Click; App.Settles (nextPromise (platform st)) outcome] in
  App.alerts (caller st') = App.alerts (caller st)
  /\ session st' = (None, None, None, None, None, None)
  /\ connected s st' = false
  /\ attached (deviceId d) dh (deviceListeners (platform st')) = false
  /\ attached (characteristicId c) nh
              (characteristicListeners (platform st')) = false
  /\ intervals (platform st') = []
  /\ writeLoopId (service st') = None
  /\ App.isConnected (App.state (caller st')) = false
  /\ App.isDisconnecting (App.state (caller st')) = false
  /\ App.userDisconnectRef (caller st') = false
  /\ made is_onDisconnect st' = S (made is_onDisconnect st)
  /\ connecting st' = [] /\ disconnecting st' = [].
Proof.
  intros Hown Hr Hb Hs Hsd Hc Hl Ht Hcn Hdc.
  destruct st as [svc plat cal snd conn disc].
  destruct svc as [dv sv wc nc nh' dh' wl wb].
  destruct plat as [ivs nt np nl dls cls gc cs].
  destruct cal as [cst crd cq cu ccr ch ca cn].
  destruct crd as [rc r1 r2 r3].
  unfold session, connected, timers_owned in *.
  cbn in Hs, Hr, Hb, Hsd, Hc, Ht, Hcn, Hdc, Hown.
  cbn [platform deviceListeners] in Hl.
  injection Hs as -> -> -> -> -> ->. subst conn disc r3.
  unfold App.connectionBusy in Hb. cbn in Hb.
  apply orb_false_elim in Hb. destruct Hb as [Hb1 Hb2]. subst r1 r2.
  assert (Hi : match wl with
               | Some id =>
                   filter (fun t => negb (Nat.eqb (fst t) id)) ivs
               | None => ivs
               end = []).
  { destruct wl as [id|]; [|now apply map_eq_nil in Hown].
    destruct ivs as [|[i k] [|? ?]]; try discriminate.
    injection Hown as ->. cbn. now rewrite Nat.eqb_refl. }
  clear Hown.
  cbn zeta. unfold App.run. cbn [fold_left nextPromise platform].
  match goal with
  | |- context [App.step ?s App.Click] =>
      rewrite (@UpdateFacts.click_eq s eq_refl)
  end.
  set (st1 := App.on App.after_render _).
  assert (F1 : sending st1 = snd) by (destruct wl; reflexivity).
  assert (F2 : connecting st1 = []) by (destruct wl; reflexivity).
  assert (F3 : disconnecting st1
               = [{| disconnectAwaits := np;
                     disconnectAwaiter := App.DisconnectDeviceAwaits None |}])
    by (destruct wl; reflexivity).
  set (stF := App.step st1 _).
  assert (EF : stF
               = App.disconnectDevice_after
                   (disconnect_rest App.handlersOf
                      (stopNotifications_resume outcome
                         (with_disconnecting
                            (filter (fun f => negb (awaits_disconnect np f)))
                            st1)))).
  { unfold stF. cbn [App.step]. unfold settles. rewrite F1, Ht, F2, F3.
    unfold awaits_disconnect at 1. cbn [find disconnectAwaits].
    rewrite Nat.eqb_refl. reflexivity. }
  rewrite EF. clear EF stF.
  set (st2 := stopNotifications_resume outcome _).
  assert (G1 : server (service st2) = Some s)
    by (destruct wl, outcome; reflexivity).
  assert (G2 : device (service st2) = Some d)
    by (destruct wl, outcome; reflexivity).
  assert (G3 : disconnectHandler (service st2) = Some dh)
    by (destruct wl, outcome; reflexivity).
  assert (G4 : connected s st2 = true)
    by (destruct wl, outcome; exact Hc).
  assert (G5 : listenersOf (deviceId d) (deviceListeners (platform st2)) = [dh])
    by (destruct wl, outcome; exact Hl).
  rewrite (disconnect_rest_held st2 G1 G2 G3 Hsd G4 G5).
  set (st' := App.disconnectDevice_after _).
  assert (R1 : deviceListeners (platform st')
               = removeEventListener (deviceId d) dh dls)
    by (destruct wl, outcome; reflexivity).
  assert (R2 : characteristicListeners (platform st')
               = removeEventListener (characteristicId c) nh cls)
    by (destruct wl, outcome; reflexivity).
  assert (R3 : gattConnected (platform st')
               = filter (fun x => negb (Nat.eqb x (deviceId d))) gc)
    by (destruct wl, outcome; reflexivity).
  assert (R4 : intervals (platform st') = [])
    by (destruct wl, outcome; exact Hi).
  unfold connected, made. rewrite R1, R2, R3, R4, Hsd.
  repeat split; try (destruct wl, outcome; reflexivity);
   try apply attached_removed; try apply dropped_not_connected.
  assert (R5 : disconnecting st'
               = filter (fun f => negb (awaits_disconnect np f))
                        (disconnecting st1))
    by (destruct wl, outcome; reflexivity).
  rewrite R5, F3. unfold awaits_disconnect. cbn [filter disconnectAwaits].
  now rewrite Nat.eqb_refl.
Qed.

Lemma user_disconnect_is_silent_witness :
  timers_owned Examples.connected_app
  /\ session Examples.connected_app
     = (Some Examples.rover, Some Examples.rover_server,
        Some Examples.rover_characteristic,
        Some Examples.rover_characteristic,
        Some {| listenerId := 1; handlers := App.AppHandlers |},
        Some {| listenerId := 0; handlers := App.AppHandlers |})
  /\ App.alerts
       (caller (App.run Examples.connected_app
                  [App.Click;
                   App.Settles (nextPromise (platform Examples.connected_app))
                               Examples.done]))
     = App.alerts (caller Examples.connected_app).
Proof.
  assert (H1 : timers_owned Examples.connected_app)
    by (vm_compute; reflexivity).
  assert (H2 : App.isConnected (App.rendered (caller Examples.connected_app))
               = true) by (vm_compute; reflexivity).
  assert (H3 : App.connectionBusy
                 (App.rendered (caller Examples.connected_app)) = false)
    by (vm_compute; reflexivity).
  assert (H4 : session Examples.connected_app
               = (Some Examples.rover, Some Examples.rover_server,
                  Some Examples.rover_characteristic,
                  Some Examples.rover_characteristic,
                  Some {| listenerId := 1; handlers := App.AppHandlers |},
                  Some {| listenerId := 0; handlers := App.AppHandlers |}))
    by (vm_compute; reflexivity).
  assert (H5 : connected Examples.rover_server Examples.connected_app = true)
    by (vm_compute; reflexivity).
  assert (H6 : listenersOf (deviceId Examples.rover)
                 (deviceListeners (platform Examples.connected_app))
               = [{| listenerId := 0; handlers := App.AppHandlers |}])
    by (vm_compute; reflexivity).
  assert (H7 : find (awaits_tick (nextPromise
                                    (platform Examples.connected_app)))
                    (sending Examples.connected_app) = None)
    by (vm_compute; reflexivity).
  assert (H8 : connecting Examples.connected_app = [])
    by (vm_compute; reflexivity).
  assert (H9 : disconnecting Examples.connected_app = [])
    by (vm_compute; reflexivity).
  split; [exact H1|]. split; [exact H4|].
  exact (proj1 (@user_disconnect_is_silent Examples.connected_app
                  _ _ _ _ _ Examples.done
                  H1 H2 H3 H4 eq_refl H5 H6 H7 H8 H9)).
Defined.

End SessionFacts.

(** ** Events from the link *)

Module EventFacts.

Import Service LoopFacts LinkFacts SessionFacts.
Local Open Scope nat_scope.

Lemma handleDisconnected_once (st : App.World) :
  timers_owned st ->
  let st' := App.handleDisconnected st in
  timers_owned st'
  /\ App.alerts (caller st')
     = (if App.userDisconnectRef (caller st) then App.alerts (caller st)
        else App.unexpectedly_disconnected :: App.alerts (caller st))
  /\ App.userDisconnectRef (caller st') = false
  /\ App.isConnected (App.state (caller st')) = false
  /\ App.history (caller st') = []
  /\ intervals (platform st') = []
  /\ writeLoopId (service st') = None
  /\ writeBusy (service st') = false.
Proof.
  intros Hown. cbn zeta. unfold App.handleDisconnected.
  pose proof (stopCommandLoop_intervals Hown) as I.
  pose proof (stopCommandLoop_clears st) as [B W].
  pose proof (stopCommandLoop_owned Hown) as O.
  assert (C : caller (stopCommandLoop st) = caller st).
  { unfold stopCommandLoop. destruct (writeLoopId (service st)); reflexivity. }
  set (st1 := stopCommandLoop st) in *. clearbody st1.
  cbn [App.on caller with_caller App.clearOdometry App.set_history
       App.userDisconnectRef App.setIsConnected App.set_state].
  rewrite C. destruct (App.userDisconnectRef (caller st));
    cbn; rewrite ?C; repeat split; assumption.
Qed.

Lemma handleDisconnected_all (ls : list (Listener App.HandlersRef))
      (st : App.World) :
  timers_owned st ->
  ls <> [] ->
  let st' :=
    fold_left
      (fun st l =>
         onDisconnect (App.handlersOf (handlers l))
                      (record (CallOnDisconnect (listenerId l)) st))
      ls st in
  App.alerts (caller st')
  = repeat App.unexpectedly_disconnected
           (List.length ls
            - (if App.userDisconnectRef (caller st) then 1 else 0))
    ++ App.alerts (caller st)
  /\ App.userDisconnectRef (caller st') = false
  /\ App.isConnected (App.state (caller st')) = false
  /\ App.history (caller st') = []
  /\ intervals (platform st') = []
  /\ writeLoopId (service st') = None
  /\ writeBusy (service st') = false.
Proof.
  revert st. induction ls as [|l ls IH]; intros st Hown Hne; [easy|].
  cbn zeta. cbn [fold_left]. destruct l as [n []].
  cbn [handlers listenerId App.handlersOf onDisconnect].
  set (st0 := record (CallOnDisconnect n) st).
  assert (O0 : timers_owned st0) by exact Hown.
  destruct (handleDisconnected_once O0)
    as (O1 & A1 & U1 & C1 & H1 & I1 & W1 & B1).
  change (caller st0) with (caller st) in A1.
  set (st1 := App.handleDisconnected st0) in *. clearbody st1.
  destruct ls as [|l' ls'].
  - cbn [fold_left List.length]. rewrite A1.
    destruct (App.userDisconnectRef (caller st)); cbn;
      repeat split; assumption.
  - assert (Hne' : l' :: ls' <> []) by discriminate.
    destruct (IH st1 O1 Hne') as (A2 & R). split; [|exact R].
    rewrite A2, U1, A1, Nat.sub_0_r.
    set (k := List.length (l' :: ls')).
    destruct (App.userDisconnectRef (caller st)).
    + change (List.length (_ :: l' :: ls')) with (S k).
      now rewrite Nat.sub_succ, Nat.sub_0_r.
    + change (List.length (_ :: l' :: ls')) with (S k).
      rewrite Nat.sub_0_r.
      change (App.unexpectedly_disconnected :: App.alerts (caller st))
        with ([App.unexpectedly_disconnected] ++ App.alerts (caller st)).
      rewrite app_assoc, <- repeat_cons. reflexivity.
Qed.

(** X8.  The link to a connected device is lost.  Each disconnect listener
    attached to the device runs [handleDisconnected] once.  The loop is
    stopped and its timer cancelled, the component shows "disconnected" and
    clears the odometry, and the user is told, once for each listener,
    except that the first is silent when the component had asked for the
    disconnection itself.  The service keeps the session it holds, and the
    listeners stay attached. *)
Theorem link_loss_handling (st : App.World) dev :
  timers_owned st ->
  existsb (Nat.eqb dev) (gattConnected (platform st)) = true ->
  listenersOf dev (deviceListeners (platform st)) <> [] ->
  let st' := App.step st (App.LinkLost dev) in
  let n := List.length (listenersOf dev (deviceListeners (platform st))) in
  App.alerts (caller st')
  = repeat App.unexpectedly_disconnected
           (n - (if App.userDisconnectRef (caller st) then 1 else 0))
    ++ App.alerts (caller st)
  /\ App.userDisconnectRef (caller st') = false
  /\ App.isConnected (App.state (caller st')) = false
  /\ App.history (caller st') = []
  /\ intervals (platform st') = []
  /\ writeLoopId (service st') = None
  /\ writeBusy (service st') = false
  /\ session st' = session st
  /\ deviceListeners (platform st') = deviceListeners (platform st)
  /\ existsb (Nat.eqb dev) (gattConnected (platform st')) = false.
Proof.
  intros Hown Hc Hl. cbn zeta. cbn [App.step]. unfold linkLost. rewrite Hc.
  set (st0 := drop_connection dev st).
  assert (O0 : timers_owned st0) by exact Hown.
  pose proof (handleDisconnected_all O0 Hl) as H. cbn zeta in H.
  destruct (fire_session dev st0) as [S L].
  unfold fire_gattserverdisconnected.
  change (deviceListeners (platform st0)) with (deviceListeners (platform st)).
  unfold fire_gattserverdisconnected in S, L.
  change (deviceListeners (platform st0))
    with (deviceListeners (platform st)) in S, L.
  set (st1 := fold_left _ _ st0) in *. clearbody st1.
  destruct H as (A & U & C & Hh & I & W & B).
  unfold link in L. injection L as L1 L2 _.
  rewrite L1, L2. cbn [platform st0 drop_connection with_platform
                       gattConnected set_gattConnected].
  repeat split; try assumption. apply dropped_not_connected.
Qed.

Lemma notified_all (ls : list (Listener App.HandlersRef)) v (st : App.World) :
  let st' :=
    fold_left
      (fun st l =>
         onNotify (App.handlersOf (handlers l)) v
                  (record (CallOnNotify (listenerId l)) st))
      ls st in
  service st' = service st
  /\ link st' = link st
  /\ intervals (platform st') = intervals (platform st)
  /\ sending st' = sending st
  /\ connecting st' = connecting st
  /\ disconnecting st' = disconnecting st
  /\ caller st'
     = Nat.iter (List.length ls)
         (fun a => match Codec.decodeOdometry v with
                   | Normal odometry => App.push odometry a
                   | Throw decodeError =>
                       App.showError (message decodeError) a
                   end)
         (caller st).
Proof.
  revert st. induction ls as [|l ls IH]; intros st; cbn zeta.
  - cbn. repeat split; reflexivity.
  - cbn [fold_left List.length]. destruct l as [n []].
    cbn [handlers listenerId App.handlersOf onNotify].
    destruct (IH (App.handleNotify v (record (CallOnNotify n) st)))
      as (E1 & E2 & E3 & E4 & E5 & E6 & E7).
    rewrite E1, E2, E3, E4, E5, E6, E7, Nat.iter_succ_r.
    unfold App.handleNotify.
    destruct (Codec.decodeOdometry v); repeat split; reflexivity.
Qed.

Lemma notified_data_keeps v k (a : App.AppData) :
  let a' :=
    Nat.iter k
      (fun a => match Codec.decodeOdometry v with
                | Normal odometry => App.push odometry a
                | Throw decodeError => App.showError (message decodeError) a
                end) a in
  App.state a' = App.state a
  /\ App.rendered a' = App.rendered a
  /\ App.commandRef a' = App.commandRef a
  /\ App.userDisconnectRef a' = App.userDisconnectRef a.
Proof.
  cbn zeta. induction k as [|k IH]; cbn [Nat.iter nat_rect]; [auto|].
  destruct (Codec.decodeOdometry v); exact IH.
Qed.

(** X9.  A notification, whatever its payload, changes only what is
    displayed.  Each notification listener attached to the characteristic
    decodes the value and either adds the odometry to the canvas or shows
    the decoding error; the service, the link, the timers, the pending
    calls, the flags and the command are left as they are.  When the
    characteristic has no value, nothing happens at all. *)
Theorem notification_changes_display_only (st : App.World) chr value :
  let st' := App.step st (App.Notified chr value) in
  service st' = service st
  /\ link st' = link st
  /\ intervals (platform st') = intervals (platform st)
  /\ sending st' = sending st
  /\ connecting st' = connecting st
  /\ disconnecting st' = disconnecting st
  /\ App.state (caller st') = App.state (caller st)
  /\ App.rendered (caller st') = App.rendered (caller st)
  /\ App.commandRef (caller st') = App.commandRef (caller st)
  /\ App.userDisconnectRef (caller st') = App.userDisconnectRef (caller st)
  /\ match value with
     | None => st' = st
     | Some v =>
         caller st'
         = Nat.iter
             (List.length
                (listenersOf chr (characteristicListeners (platform st))))
             (fun a => match Codec.decodeOdometry v with
                       | Normal odometry => App.push odometry a
                       | Throw decodeError =>
                           App.showError (message decodeError) a
                       end)
             (caller st)
     end.
Proof.
  cbn zeta. cbn [App.step]. unfold notified. destruct value as [v|].
  - destruct (notified_all
                (listenersOf chr (characteristicListeners (platform st))) v st)
      as (E1 & E2 & E3 & E4 & E5 & E6 & E7).
    cbn zeta in E7. rewrite E1, E2, E3, E4, E5, E6, E7.
    destruct (notified_data_keeps v
                (List.length
                   (listenersOf chr (characteristicListeners (platform st))))
                (caller st)) as (K1 & K2 & K3 & K4).
    repeat split; try reflexivity; assumption.
  - assert (E : forall (ls : list (Listener App.HandlersRef)) (x : App.World),
               fold_left (fun st _ => st) ls x = x).
    { induction ls; intros; cbn; auto. }
    rewrite E. repeat split; reflexivity.
Qed.

Lemma link_loss_handling_witness :
  timers_owned Examples.connected_app
  /\ existsb (Nat.eqb 7) (gattConnected (platform Examples.connected_app))
     = true
  /\ App.isConnected
       (App.state (caller (App.step Examples.connected_app (App.LinkLost 7))))
     = false.
Proof.
  assert (H1 : timers_owned Examples.connected_app)
    by (vm_compute; reflexivity).
  assert (H2 : existsb (Nat.eqb 7)
                       (gattConnected (platform Examples.connected_app))
               = true) by (vm_compute; reflexivity).
  assert (H3 : listenersOf 7 (deviceListeners
                                (platform Examples.connected_app)) <> [])
    by (vm_compute; discriminate).
  split; [exact H1|]. split; [exact H2|].
  exact (proj1 (proj2 (proj2
    (@link_loss_handling Examples.connected_app 7 H1 H2 H3)))).
Defined.

End EventFacts.

(** ** Errors that read as a cancellation *)

Module ErrorFacts.

Import App.
Local Open Scope string_scope.

Lemma prefix_spec a s :
  prefix a s = true <-> exists post, s = a ++ post.
Proof.
  revert s. induction a as [|x a IH]; intros s; cbn.
  - split; [intros _; now exists s|intros _; now destruct s].
  - destruct s as [|y s]; cbn.
    + split; [discriminate|intros [post H]; discriminate].
    + destruct (ascii_dec x y) as [->|N].
      * rewrite IH. split; intros [post H]; exists post.
        -- now rewrite H.
        -- now injection H.
      * split; [discriminate|]. intros [post H]. injection H as E _.
        now destruct N.
Qed.

Lemma index_none sub s :
  String.index 0 sub s = None <->
  (forall pre post, s <> pre ++ sub ++ post).
Proof.
  induction s as [|y s IH].
  - cbn. destruct sub as [|x sub].
    + split; [discriminate|]. intros H. now destruct (H "" "").
    + split; [|reflexivity]. intros _ pre post H. destruct pre; discriminate.
  - cbn [String.index].
    destruct (prefix sub (String y s)) eqn:P.
    + split; [discriminate|]. intros H.
      apply prefix_spec in P. destruct P as [post P].
      now destruct (H "" post).
    + destruct (String.index 0 sub s) eqn:I.
      * split; [discriminate|]. intros H.
        assert (N : ~ (forall pre post, s <> pre ++ sub ++ post)).
        { intros C. apply IH in C. discriminate. }
        destruct N. intros pre post E.
        apply (H (String y pre) post). cbn. now rewrite E.
      * split; [|reflexivity]. intros _ pre post E.
        destruct pre as [|z pre].
        -- cbn in E. assert (prefix sub (String y s) = true)
             by (apply prefix_spec; now exists post).
           congruence.
        -- cbn in E. injection E as _ E.
           exact (proj1 IH eq_refl pre post E).
Qed.

Lemma includes_spec s sub :
  includes s sub = true <-> exists pre post, s = pre ++ sub ++ post.
Proof.
  unfold includes. destruct (String.index 0 sub s) eqn:I.
  - split; [intros _|reflexivity].
    destruct (index_none sub s) as [_ H].
    assert (N : ~ (forall pre post, s <> pre ++ sub ++ post)).
    { intros C. apply H in C. congruence. }
    clear H I. revert N. revert sub. induction s as [|y s IH]; intros sub N.
    + destruct sub as [|x sub].
      * now exists "", "".
      * destruct N. intros pre post E. destruct pre; discriminate.
    + destruct (prefix sub (String y s)) eqn:P.
      * apply prefix_spec in P. destruct P as [post P]. now exists "", post.
      * destruct (IH sub) as (pre & post & E).
        { intros C. apply N. intros pre post E.
          destruct pre as [|z pre].
          - cbn in E. assert (prefix sub (String y s) = true)
              by (apply prefix_spec; now exists post).
            congruence.
          - cbn in E. injection E as _ E. exact (C pre post E). }
        exists (String y pre), post. cbn. now rewrite E.
  - split; [discriminate|]. intros (pre & post & E).
    now destruct (proj1 (index_none sub s) I pre post).
Qed.

Lemma toLowerCase_app a b :
  toLowerCase (a ++ b) = toLowerCase a ++ toLowerCase b.
Proof. induction a as [|x a IH]; cbn; [reflexivity|now rewrite IH]. Qed.

Lemma string_app_assoc (a b c : string) : (a ++ b) ++ c = a ++ b ++ c.
Proof. induction a as [|x a IH]; cbn; [reflexivity|now rewrite IH]. Qed.

Lemma includes_app s sub pre post :
  includes s sub = true -> includes (pre ++ s ++ post) sub = true.
Proof.
  rewrite !includes_spec. intros (p & q & ->).
  exists (pre ++ p), (q ++ post).
  now rewrite !string_app_assoc.
Qed.

(** X10.  What [isUserCancelledError] takes for a cancellation.  An error
    whose message holds one of the four phrases, in any letter case and
    anywhere in the message, is one, whatever its name; so is an error named
    NotFoundError (in any letter case) whose message holds "cancelled".  An
    error whose message does not hold "cancel" is never one: the name alone
    does not make a cancellation. *)
Theorem cancellation_phrases :
  (forall name pre phrase post,
      In (toLowerCase phrase)
         ["user cancelled"; "user canceled"; "usercancelled"; "usercanceled"] ->
      isUserCancelledError
        {| Js.name := name; message := pre ++ phrase ++ post |} = true)
  /\ (forall name pre phrase post,
         toLowerCase name = "notfounderror" ->
         toLowerCase phrase = "cancelled" ->
         isUserCancelledError
           {| Js.name := name; message := pre ++ phrase ++ post |} = true)
  /\ (forall error,
         includes (toLowerCase (message error)) "cancel" = false ->
         isUserCancelledError error = false).
Proof.
  split; [|split].
  - intros name pre phrase post H. unfold isUserCancelledError.
    cbn [message Js.name]. rewrite !toLowerCase_app.
    assert (I : forall m, includes (toLowerCase phrase) m = true ->
                          includes (toLowerCase pre ++ toLowerCase phrase
                                    ++ toLowerCase post) m = true)
      by (intros m; apply includes_app).
    cbn in H. destruct H as [H|[H|[H|[H|[]]]]].
    + rewrite (I "user cancelled"); [reflexivity|now rewrite <- H].
    + rewrite (I "user canceled"), ?orb_true_r;
        [reflexivity|now rewrite <- H].
    + rewrite (I "usercancelled"), ?orb_true_r;
        [reflexivity|now rewrite <- H].
    + rewrite (I "usercanceled"), ?orb_true_r;
        [reflexivity|now rewrite <- H].
  - intros name pre phrase post Hn Hp. unfold isUserCancelledError.
    cbn [message Js.name]. rewrite !toLowerCase_app, Hn, Hp.
    rewrite (@includes_app "cancelled" "cancelled" _ _ eq_refl).
    cbn. now rewrite !orb_true_r.
  - intros error H. destruct (isUserCancelledError error) eqn:E; [|reflexivity].
    rewrite <- H. symmetry. unfold isUserCancelledError in E.
    assert (I : forall m, includes m "cancel" = true ->
                          includes (toLowerCase (message error)) m = true ->
                          includes (toLowerCase (message error)) "cancel"
                          = true).
    { intros m Hm Hi. apply includes_spec in Hi.
      destruct Hi as (pre & post & ->). now apply includes_app. }
    repeat (apply orb_true_iff in E; destruct E as [E|E]).
    + now apply (I "user cancelled").
    + now apply (I "user canceled").
    + now apply (I "usercancelled").
    + now apply (I "usercanceled").
    + apply andb_true_iff in E. destruct E as [_ E].
      now apply (I "cancelled").
Qed.

Lemma cancellation_phrases_witness :
  isUserCancelledError
    {| Js.name := "NotFoundError";
       message := "" ++ "User Cancelled" ++ " the requestDevice() chooser." |}
  = true
  /\ isUserCancelledError
       {| Js.name := "NotFoundError";
          message := "Selection " ++ "cancelled" ++ "." |} = true
  /\ isUserCancelledError (Error "GATT operation failed for unknown reason.")
     = false.
Proof.
  destruct cancellation_phrases as (H1 & H2 & H3).
  split; [|split].
  - apply H1. left. reflexivity.
  - apply H2; reflexivity.
  - apply H3. reflexivity.
Defined.

End ErrorFacts.

(** ** The data of the component *)

Module DataFacts.

Import App.
Local Open Scope nat_scope.

Section Data.

(** A property of the component's data that each of its updates keeps. *)
Variable P : AppData -> Prop.
Hypothesis P_alert : forall m a, P a -> P (alert m a).
Hypothesis P_connecting : forall v a, P a -> P (setIsConnecting v a).
Hypothesis P_disconnecting : forall v a, P a -> P (setIsDisconnecting v a).
Hypothesis P_connected : forall v a, P a -> P (setIsConnected v a).
Hypothesis P_user : forall v a, P a -> P (set_userDisconnectRef v a).
Hypothesis P_clear : forall a, P a -> P (clearOdometry a).
Hypothesis P_push : forall o a, P a -> P (push o a).
Hypothesis P_setCommand : forall u eager a, P a -> P (setCommand u eager a).
Hypothesis P_render : forall a, P a -> P (rendering a).

Lemma keeps_refl st : keeps P st st.
Proof. intros H. exact H. Qed.

Lemma keeps_trans st1 st2 st3 : keeps P st1 st2 -> keeps P st2 st3 -> keeps P st1 st3.
Proof. unfold keeps. auto. Qed.

Lemma keeps_same st st' :
  Service.caller st' = Service.caller st -> keeps P st st'.
Proof. unfold keeps. now intros ->. Qed.

Lemma keeps_on f st : (forall a, P a -> P (f a)) -> keeps P st (on f st).
Proof. intros H Hp. apply H, Hp. Qed.

Lemma stop_caller (st : World) :
  Service.caller (Service.stopCommandLoop st) = Service.caller st.
Proof.
  unfold Service.stopCommandLoop.
  destruct (Service.writeLoopId (Service.service st)); reflexivity.
Qed.

Lemma keeps_handleDisconnected st : keeps P st (handleDisconnected st).
Proof.
  unfold handleDisconnected, keeps. intros H.
  rewrite <- (stop_caller st) in H.
  set (st1 := Service.stopCommandLoop st) in *. clearbody st1.
  cbn [on Service.caller Service.with_caller userDisconnectRef clearOdometry
       set_history setIsConnected set_state].
  apply P_user.
  destruct (userDisconnectRef (Service.caller st1)); cbn;
    [|apply P_alert]; apply P_clear, P_connected, H.
Qed.

Lemma keeps_fire dev st :
  keeps P st (Service.fire_gattserverdisconnected handlersOf dev st).
Proof.
  unfold Service.fire_gattserverdisconnected.
  generalize (Service.listenersOf dev
                (Service.deviceListeners (Service.platform st))).
  intros ls. revert st. induction ls as [|l ls IH]; intros st; cbn [fold_left].
  - apply keeps_refl.
  - destruct l as [n []].
    cbn [Service.handlers Service.listenerId handlersOf Service.onDisconnect].
    eapply keeps_trans; [|apply IH].
    exact (keeps_handleDisconnected (Service.record (CallOnDisconnect n) st)).
Qed.

Lemma keeps_linkLost dev st : keeps P st (Service.linkLost handlersOf dev st).
Proof.
  unfold Service.linkLost. destruct (existsb _ _); [|apply keeps_refl].
  exact (keeps_fire dev (Service.drop_connection dev st)).
Qed.

Lemma keeps_notified chr value st :
  keeps P st (Service.notified handlersOf chr value st).
Proof.
  unfold Service.notified.
  generalize (Service.listenersOf chr
                (Service.characteristicListeners (Service.platform st))).
  intros ls. revert st. induction ls as [|l ls IH]; intros st; cbn [fold_left].
  - apply keeps_refl.
  - destruct value as [v|]; [|apply IH].
    destruct l as [n []].
    cbn [Service.handlers Service.listenerId handlersOf Service.onNotify].
    eapply keeps_trans; [|apply IH].
    unfold handleNotify, keeps.
    destruct (Codec.decodeOdometry v); cbn; intros H;
      [apply P_push|apply P_alert]; exact H.
Qed.

Lemma keeps_disconnect_rest st :
  keeps P st (Service.disconnect_rest handlersOf st).
Proof.
  unfold Service.disconnect_rest.
  set (st1 := match Service.server (Service.service st) with
              | Some s => if Service.connected s st
                          then Service.server_disconnect handlersOf s st
                          else st
              | None => st
              end).
  assert (K : keeps P st st1).
  { unfold st1. destruct (Service.server _) as [s|]; [|apply keeps_refl].
    destruct (Service.connected s st); [|apply keeps_refl].
    unfold Service.server_disconnect.
    exact (keeps_fire _ (Service.drop_connection _
             (Service.record (CallServerDisconnect _) st))). }
  clearbody st1. eapply keeps_trans; [exact K|].
  apply keeps_same.
  destruct (Service.device (Service.service st1)),
    (Service.disconnectHandler (Service.service st1)); reflexivity.
Qed.

Lemma keeps_disconnect_resume outcome st :
  keeps P st (Service.disconnect_resume handlersOf outcome st).
Proof.
  unfold Service.disconnect_resume.
  eapply keeps_trans; [|apply keeps_disconnect_rest].
  apply keeps_same. destruct outcome; reflexivity.
Qed.

Lemma keeps_disconnectDevice_after st : keeps P st (disconnectDevice_after st).
Proof.
  unfold disconnectDevice_after, keeps. cbn. intros H.
  apply P_user, P_disconnecting, P_connected, H.
Qed.

Lemma keeps_disconnectDevice from st :
  keeps P st (fst (disconnectDevice from st)).
Proof.
  unfold disconnectDevice, keeps. intros H.
  set (st1 := Service.stopCommandLoop _).
  assert (H1 : P (Service.caller st1)).
  { unfold st1. rewrite stop_caller. cbn. apply P_disconnecting, P_user, H. }
  clearbody st1. unfold Service.disconnect, Service.stopNotifications.
  destruct (Service.notifyChar (Service.service st1)),
    (Service.notifyHandler (Service.service st1)); cbn [fst];
    try exact H1;
    apply keeps_disconnectDevice_after;
    exact (keeps_disconnect_rest
             (Service.with_service (Service.set_notifyHandler None) st1) H1).
Qed.

Lemma keeps_connect r st : keeps P st (connect r st).
Proof.
  unfold connect, keeps. intros H.
  destruct (isConnecting r || isDisconnecting r); [exact H|].
  destruct (negb _); [cbn; apply P_alert, H|].
  change (P (setIsConnecting true
               (Service.caller
                  (Service.stopCommandLoop
                     (on (set_userDisconnectRef false) st))))).
  rewrite stop_caller. cbn. apply P_connecting, P_user, H.
Qed.

Lemma keeps_startWriteLoop r st : keeps P st (startWriteLoop r st).
Proof.
  unfold startWriteLoop. destruct (_ || _); [apply keeps_refl|].
  apply keeps_same. unfold Service.startCommandLoop.
  destruct (Service.writeLoopId _); cbn; apply stop_caller.
Qed.

Lemma keeps_connect_after r c st : keeps P st (connect_after r c st).
Proof.
  unfold connect_after, connect_finally. destruct c as [[]|e].
  - eapply keeps_trans; [|apply keeps_on, P_connecting].
    eapply keeps_trans; [|apply keeps_startWriteLoop].
    apply keeps_on, P_connected.
  - destruct (isUserCancelledError e).
    + intros H. cbn. apply P_connecting, H.
    + set (st1 := on (setIsConnected false) _).
      assert (K : keeps P st st1).
      { intros H. cbn. apply P_connected, P_alert, H. }
      clearbody st1. pose proof (keeps_disconnectDevice (Some r) st1) as K2.
      destruct (disconnectDevice (Some r) st1) as [st2 b]. cbn [fst] in K2.
      destruct b.
      * intros H. cbn. apply P_connecting, K2, K, H.
      * eapply keeps_trans; eassumption.
Qed.

Lemma keeps_resume a c st : keeps P st (resume a c st).
Proof.
  destruct a as [r|from]; cbn [resume].
  - apply keeps_connect_after.
  - destruct from.
    + intros H. cbn. apply P_connecting.
      exact (keeps_disconnectDevice_after st H).
    + apply keeps_disconnectDevice_after.
Qed.

Lemma keeps_tick_catch e st :
  keeps P st (Service.tick_finally (Service.tick_catch e reportError st)).
Proof.
  unfold Service.tick_finally, Service.tick_catch, keeps.
  cbn [Service.caller Service.with_service]. rewrite stop_caller. cbn.
  apply P_alert.
Qed.

Lemma keeps_intervalFires id st :
  loops_of_app st -> keeps P st (Service.intervalFires id st).
Proof.
  intros L. unfold Service.intervalFires, Service.timer.
  destruct (find _ _) as [[id0 k]|] eqn:E; cbn [option_map snd];
    [|apply keeps_refl].
  assert (Hk : Service.onError k = reportError).
  { destruct L as [L1 _]. apply find_some in E. destruct E as [Hin _].
    rewrite Forall_forall in L1. exact (L1 _ Hin). }
  unfold Service.tick. destruct (Service.writeBusy _); [apply keeps_refl|].
  rewrite Hk. cbn [Service.caller Service.with_service Service.record
                   Service.with_platform].
  destruct (existsb _ _).
  - exact (keeps_tick_catch _
             (Service.record CallGetCommand
                (Service.with_service (Service.set_writeBusy true) st))).
  - unfold Service.writeCommand.
    cbn [Service.service Service.with_service Service.record
         Service.with_platform Service.writeChar Service.set_writeBusy].
    destruct (Service.writeChar _).
    + rewrite CodecFacts.encodeCommand_bytes. apply keeps_same. reflexivity.
    + exact (keeps_tick_catch _
               (Service.record CallGetCommand
                  (Service.with_service (Service.set_writeBusy true) st))).
Qed.

Lemma keeps_settles p outcome st :
  loops_of_app st -> keeps P st (Service.settles handlersOf resume p outcome st).
Proof.
  intros L. unfold Service.settles.
  destruct (find (Service.awaits_tick p) _) as [t|] eqn:Et.
  { assert (Ht : Service.reportTo t = reportError).
    { destruct L as [_ L2]. apply find_some in Et. destruct Et as [Hin _].
      rewrite Forall_forall in L2. exact (L2 _ Hin). }
    unfold Service.tick_resume. destruct outcome as [v|e].
    - apply keeps_same. reflexivity.
    - rewrite Ht.
      exact (keeps_tick_catch e
               (Service.with_sending
                  (filter (fun t => negb (Service.awaits_tick p t))) st)). }
  destruct (find (Service.awaits_connect p) _) as [f|].
  { set (st1 := Service.with_connecting _ st).
    assert (K : keeps P st (fst (Service.connect_resume f outcome st1))).
    { apply keeps_same. destruct outcome as [v|e]; [|reflexivity].
      destruct f as [q stage h a]. destruct stage, v; cbn;
        try destruct (hasGatt _); reflexivity. }
    destruct (Service.connect_resume f outcome st1) as [st2 [c|]];
      cbn [fst] in K; [|exact K].
    eapply keeps_trans; [exact K|apply keeps_resume]. }
  destruct (find (Service.awaits_disconnect p) _) as [f|];
    [|apply keeps_refl].
  eapply keeps_trans; [|apply keeps_resume].
  exact (keeps_disconnect_resume outcome (Service.with_disconnecting _ st)).
Qed.

Lemma keeps_step_link st e :
  is_report e = false -> loops_of_app st -> keeps P st (step st e).
Proof.
  intros He L. destruct e; try discriminate; cbn [step].
  - destruct (connectionBusy _); [apply keeps_refl|].
    eapply keeps_trans; [|apply keeps_on, P_render].
    unfold onClick. destruct (isConnected _);
      [apply keeps_disconnectDevice|apply keeps_connect].
  - apply keeps_on, P_render.
  - now apply keeps_intervalFires.
  - now apply keeps_settles.
  - apply keeps_linkLost.
  - apply keeps_notified.
Qed.

Lemma keeps_step st e : loops_of_app st -> keeps P st (step st e).
Proof.
  intros L. destruct e; try (now apply keeps_step_link).
  - apply keeps_on. intros a. apply P_setCommand.
  - apply keeps_on. intros a. apply P_setCommand.
Qed.

Lemma keeps_run es st : inv st -> keeps P st (run st es).
Proof.
  revert st. induction es as [|e es IH]; intros st I; cbn [run fold_left].
  - apply keeps_refl.
  - eapply keeps_trans; [apply keeps_step, I|].
    apply IH. now apply AppGuard.step_inv.
Qed.

Lemma reachable_keeps st :
  (forall b, P (initial_data b)) -> reachable st -> P (Service.caller st).
Proof.
  intros H0 (b & es & ->).
  exact (keeps_run es (AppGuard.initial_inv b) (H0 b)).
Qed.

End Data.

Lemma reachable_synced st : reachable st -> synced (Service.caller st).
Proof.
  apply reachable_keeps; try (intros; assumption); try reflexivity.
  intros u eager a. apply UpdateFacts.setCommand_synced.
Qed.



(** After a render the loop reads the command that the queued updaters
    leave. *)
Lemma render_reads st :
  currentCommand (Service.caller (step st Render))
  = pending_command (Service.caller st).
Proof. apply UpdateFacts.rendering_commandRef. Qed.

Lemma report_then_render st u eager :
  let report :=
    match u with
    | VelocitiesUpdate vx vy => VelocityJoystick vx vy eager
    | YawUpdate w => YawJoystick w eager
    end in
  currentCommand (Service.caller (run st [report; Render]))
  = updated u (currentCommand (Service.caller (step st Render))).
Proof.
  cbn zeta. unfold run. cbn [fold_left]. rewrite !render_reads.
  destruct u; cbn [step on Service.caller Service.with_caller];
    apply UpdateFacts.setCommand_pending.
Qed.



(** X12.  The command that the loop sends is the one that React holds.  In
    every state the component can reach, [commandRef] holds the command of
    the state.  A report of a joystick that React queues does not reach
    the loop: until the next render the loop reads the command it read
    before.  After the report and a render, the loop reads the reported
    velocities (or, when they compare equal under [===] to the ones it
    would have read without the report, those) and the yaw rate it would
    have read without the report; and likewise for the yaw joystick. *)
Theorem loop_reads_joysticks st :
  reachable st ->
  currentCommand (Service.caller st) = command (state (Service.caller st))
  /\ (forall vx vy,
         currentCommand (Service.caller (step st (VelocityJoystick vx vy false)))
         = currentCommand (Service.caller st))
  /\ (forall w,
         currentCommand (Service.caller (step st (YawJoystick w false)))
         = currentCommand (Service.caller st))
  /\ (forall vx vy eager,
         let before := currentCommand (Service.caller (step st Render)) in
         let after :=
           currentCommand
             (Service.caller (run st [VelocityJoystick vx vy eager; Render])) in
         (Types.vx after = vx \/ (Types.vx after = Types.vx before
                                  /\ strict_eq (Types.vx before) vx = true))
         /\ (Types.vy after = vy \/ (Types.vy after = Types.vy before
                                     /\ strict_eq (Types.vy before) vy = true))
         /\ Types.w after = Types.w before)
  /\ (forall w eager,
         let before := currentCommand (Service.caller (step st Render)) in
         let after :=
           currentCommand
             (Service.caller (run st [YawJoystick w eager; Render])) in
         (Types.w after = w \/ (Types.w after = Types.w before
                                /\ strict_eq (Types.w before) w = true))
         /\ Types.vx after = Types.vx before
         /\ Types.vy after = Types.vy before).
Proof.
  intros R. pose proof (reachable_synced R) as S. unfold synced in S.
  split; [exact S|]. split; [|split; [|split]].
  - intros vx vy. apply UpdateFacts.setCommand_queued.
  - intros w. apply UpdateFacts.setCommand_queued.
  - intros vx vy eager. cbn zeta.
    rewrite (report_then_render st (VelocitiesUpdate vx vy) eager).
    cbn [updated].
    destruct (strict_eq (Types.vx _) vx) eqn:E1;
      destruct (strict_eq (Types.vy _) vy) eqn:E2; cbn; auto.
  - intros w eager. cbn zeta.
    rewrite (report_then_render st (YawUpdate w) eager).
    cbn [updated].
    destruct (strict_eq (Types.w _) w) eqn:E1; cbn; auto.
Qed.

(** X13.  The canvas keeps at most 400 odometry samples.  In every state
    the component can reach the history holds at most 400 samples; [push]
    appends the new sample, and drops the oldest one when there were 400
    already. *)
Theorem odometry_history_bounded st :
  reachable st ->
  let h := history (Service.caller st) in
  List.length h <= 400
  /\ forall odometry,
      history (push odometry (Service.caller st))
      = (if List.length h =? 400 then tl h else h) ++ [odometry].
Proof.
  intros R. cbn zeta.
  assert (B : List.length (history (Service.caller st)) <= 400).
  { revert R. apply (@reachable_keeps (fun a => List.length (history a) <= 400));
      try (intros; assumption); try (intros; cbn; lia).
    - intros o a H. unfold push. cbn [history set_history].
      destruct (400 <? List.length (history a ++ [o])) eqn:E;
        [|apply Nat.ltb_ge in E; exact E].
      destruct (history a) as [|x h]; [discriminate|].
      cbn [app tl]. rewrite length_app. cbn [List.length] in *. lia.
    - intros u eager a H.
      pose proof (UpdateFacts.setCommand_beside u eager a) as E.
      unfold beside_command in E. injection E as _ _ _ _ _ E _ _.
      now rewrite E.
    - intros a H. rewrite UpdateFacts.rendering_eq. exact H. }
  split; [exact B|]. intros o. unfold push. cbn [history set_history].
  rewrite length_app. cbn [List.length].
  destruct (List.length (history (Service.caller st)) =? 400) eqn:E.
  - apply Nat.eqb_eq in E. rewrite E. cbn [Nat.add Nat.ltb Nat.leb].
    replace (400 <? 400 + 1) with true by (symmetry; apply Nat.ltb_lt; lia).
    destruct (history (Service.caller st)); [discriminate|reflexivity].
  - apply Nat.eqb_neq in E.
    replace (400 <? List.length (history (Service.caller st)) + 1) with false
      by (symmetry; apply Nat.ltb_ge; lia).
    reflexivity.
Qed.

Lemma untouched_step st e :
  untouched st ->
  untouched (step st e)
  /\ alerts (Service.caller (step st e))
     = (if is_click e then [no_web_bluetooth] else [])
       ++ alerts (Service.caller st).
Proof.
  intros (Hs & Hp & H1 & H2 & H3 & Hn & Hf & Hr).
  destruct st as [svc plat cal snd conn disc]. cbn in *. subst.
  destruct cal as [cst crd cq cu ccr ch ca cn].
  destruct cst as [c1 f1 f2 f3]. destruct crd as [c2 r1 r2 r3].
  cbn in *. injection Hf as -> -> ->. injection Hr as -> -> ->. subst cn.
  destruct e; [| |cbn..].
  - rewrite UpdateFacts.click_eq by reflexivity. cbn.
    repeat split; reflexivity.
  - cbn [step]. rewrite UpdateFacts.render_eq. cbn.
    repeat split; reflexivity.
  - unfold untouched, on, Service.with_caller, setCommandVelocities.
    cbn [Service.service Service.platform Service.sending Service.connecting
         Service.disconnecting Service.caller is_click app].
    match goal with
    | |- context [setCommand ?u ?e ?a] =>
        pose proof (UpdateFacts.setCommand_beside u e a) as E;
        set (a' := setCommand u e a) in *
    end.
    unfold beside_command in E. cbn in E.
    injection E as E1 E2 E3 E4 _ _ E7 E8.
    rewrite E1, E2, E3, E4, E7, E8. cbn. repeat split; reflexivity.
  - unfold untouched, on, Service.with_caller, setCommandYaw.
    cbn [Service.service Service.platform Service.sending Service.connecting
         Service.disconnecting Service.caller is_click app].
    match goal with
    | |- context [setCommand ?u ?e ?a] =>
        pose proof (UpdateFacts.setCommand_beside u e a) as E;
        set (a' := setCommand u e a) in *
    end.
    unfold beside_command in E. cbn in E.
    injection E as E1 E2 E3 E4 _ _ E7 E8.
    rewrite E1, E2, E3, E4, E7, E8. cbn. repeat split; reflexivity.
  - repeat split; reflexivity.
  - repeat split; reflexivity.
  - repeat split; reflexivity.
  - unfold Service.notified. cbn. repeat split; reflexivity.
Qed.

(** X11.  Where the browser has no Web Bluetooth, the component never
    touches the platform: whatever happens, the service stays as it was
    created, no platform call is made, no timer runs and nothing is
    awaited; each click on the button shows the message that Web Bluetooth
    is missing, and nothing else is ever shown. *)
Theorem no_bluetooth_no_calls es :
  let st := run (initial false) es in
  Service.service st = Service.new_service HandlersRef
  /\ Service.platform st = Service.new_platform AppData HandlersRef
  /\ awaiters st = []
  /\ Service.sending st = []
  /\ alerts (Service.caller st)
     = repeat no_web_bluetooth (List.length (filter is_click es)).
Proof.
  cbn zeta.
  assert (G : forall es st,
             untouched st ->
             untouched (run st es)
             /\ alerts (Service.caller (run st es))
                = repeat no_web_bluetooth (List.length (filter is_click es))
                  ++ alerts (Service.caller st)).
  { clear es. induction es as [|e es IH]; intros st U; cbn [run fold_left].
    - split; [exact U|reflexivity].
    - destruct (untouched_step e U) as [U1 A1].
      destruct (IH _ U1) as [U2 A2]. split; [exact U2|].
      unfold run in A2. rewrite A2, A1. cbn [filter].
      destruct (is_click e); cbn [List.length repeat app]; [|reflexivity].
      change (no_web_bluetooth :: alerts (Service.caller st))
        with ([no_web_bluetooth] ++ alerts (Service.caller st)).
      now rewrite app_assoc, <- repeat_cons. }
  destruct (G es (initial false)) as [U A].
  { repeat split; reflexivity. }
  destruct U as (Hs & Hp & H1 & H2 & H3 & _).
  change (alerts (Service.caller (initial false))) with (@nil string) in A.
  rewrite app_nil_r in A.
  unfold awaiters. rewrite H2, H3. repeat split; assumption.
Qed.

Lemma loop_reads_joysticks_witness :
  reachable Examples.connected_app
  /\ currentCommand (Service.caller Examples.connected_app)
     = command (state (Service.caller Examples.connected_app))
  /\ currentCommand
       (Service.caller
          (step Examples.connected_app (YawJoystick Examples.n_1_5 false)))
     = currentCommand (Service.caller Examples.connected_app).
Proof.
  assert (R : reachable Examples.connected_app)
    by (exists true, (Examples.connects_from 0); reflexivity).
  split; [exact R|].
  pose proof (loop_reads_joysticks R) as (H1 & _ & H3 & _).
  split; [exact H1|exact (H3 Examples.n_1_5)].
Defined.

Lemma odometry_history_bounded_witness :
  reachable Examples.connected_app
  /\ List.length (history (Service.caller Examples.connected_app)) <= 400.
Proof.
  assert (R : reachable Examples.connected_app)
    by (exists true, (Examples.connects_from 0); reflexivity).
  split; [exact R|]. exact (proj1 (odometry_history_bounded R)).
Defined.

End DataFacts.

(** ** Arithmetic on numbers *)

Module NumberFacts.

Import Number Float32Facts.
Local Open Scope Z_scope.

















Lemma neg_valid x : is_number x = true -> is_number (neg x) = true.
Proof. destruct x; auto. Qed.




End NumberFacts.

(** ** The joysticks *)

Module JoystickFacts.

Import Number NumberFacts YawJoystick.
Local Open Scope Z_scope.



(** X16.  A track of zero width.  When the rectangle of the track has
    width 0 and the pointer is at its left edge, the ratio is 0/0:
    [handlePointer] reports NaN.  The updater of [setCommandYaw] stores it
    whatever the command was (NaN is not [===] to anything): once React
    has called it, after the next render whether it was queued or not, the
    command that the loop reads has a NaN field. *)
Theorem zero_width_track_reports_nan (x : number) (s : bool) (id : nat)
        (j : Refs) (st : App.World) (eager : bool) :
  is_finite x = true ->
  let rect := {| left := x; width := S754_zero s |} in
  let event := {| pointerId := id; clientX := x |} in
  let st' := App.run st [App.YawJoystick S754_nan eager; App.Render] in
  snd (handlePointer (Some rect) event j) = Some S754_nan
  /\ w (App.currentCommand (Service.caller st')) = S754_nan
  /\ existsb isNaN
       (Service.Object_values (App.currentCommand (Service.caller st')))
     = true.
Proof.
  intros Hx. cbn zeta. split.
  - assert (E : sub x x = zero).
    { destruct x as [sx|sx| |sx m e]; try discriminate.
      - destruct sx; reflexivity.
      - unfold sub, SFsub. rewrite Z.sub_diag. reflexivity. }
    unfold handlePointer, ratio. cbn [clientX left width fst snd].
    rewrite E. destruct s; reflexivity.
  - assert (E : w (App.currentCommand
                     (Service.caller
                        (App.run st [App.YawJoystick S754_nan eager;
                                     App.Render])))
                = S754_nan).
    { unfold App.run. cbn [fold_left]. unfold App.currentCommand.
      cbn [App.step App.render App.on Service.caller Service.with_caller].
      rewrite UpdateFacts.rendering_commandRef.
      unfold App.setCommandYaw. rewrite UpdateFacts.setCommand_pending.
      cbn [App.updated].
      assert (N : App.strict_eq
                    (w (App.pending_command (Service.caller st)))
                    S754_nan = false).
      { unfold App.strict_eq, SFeqb.
        destruct (w (App.pending_command (Service.caller st)));
          reflexivity. }
      rewrite N. reflexivity. }
    split; [exact E|]. unfold Service.Object_values. cbn [existsb].
    rewrite E. cbn. now rewrite !orb_true_r.
Qed.

Lemma zero_width_track_reports_nan_witness :
  is_finite Examples.n_1_5 = true
  /\ snd (handlePointer (Some {| left := Examples.n_1_5; width := zero |})
                        {| pointerId := 0; clientX := Examples.n_1_5 |}
                        initial)
     = Some S754_nan.
Proof.
  split; [reflexivity|].
  exact (proj1 (@zero_width_track_reports_nan Examples.n_1_5 false 0%nat
                  initial (App.initial true) false eq_refl)).
Defined.

(** The literals, and the radius of the velocity joystick
    ([152 / 2 - 12] is 64). *)
Example literal_values :
  of_int 1 = one /\ of_int 2 = two /\ of_int 12 = twelve
  /\ of_int 50 = fifty /\ of_int 152 = n_152
  /\ VelocityJoystick.JOYSTICK_RADIUS = of_int 64.
Proof. vm_compute. repeat split; reflexivity. Qed.

(** The yaw rate reported for a pointer at the left edge of the track
    (1), in its middle (-0), three quarters along (-0.5) and beyond its right
    edge (-1); three quarters along, the knob is put at 75%. *)
Example yaw_values :
  map (fun x => snd (handlePointer (Some Examples.track)
                                   (Examples.pointer_at x) initial))
      [10; 110; 160; 400]
  = [Some one; Some (S754_zero true);
     Some (S754_finite true 4503599627370496 (-53)); Some (neg one)]
  /\ option_map leftPercent
       (knob (fst (handlePointer (Some Examples.track)
                                 (Examples.pointer_at 160) initial)))
     = Some (of_int 75).
Proof. vm_compute. split; reflexivity. Qed.

End JoystickFacts.

(** ** The component with its joysticks *)

Module ControlsFacts.

Import Controls DataFacts.

Section Math.

Variable Math_hypot : number -> number -> number.
Variable Math_atan2 : number -> number -> number.
Variable Math_cos : number -> number.
Variable Math_sin : number -> number.









(** The yaw joystick is pressed three quarters along its track (-0.5),
    React renders, and the pointer leaves the track: the joystick is
    released at once, but until React renders again the loop reads -0.5;
    after that render it reads 0. *)
Example leave_waits_for_render :
  let c :=
    run Math_hypot Math_atan2 Math_cos Math_sin (initial true)
        [AtYaw (YawJoystick.PointerDown (Some Examples.track)
                                        (Examples.pointer_at 160)) false;
         Render;
         AtYaw YawJoystick.PointerLeave false] in
  let command c := App.currentCommand (Service.caller (app c)) in
  YawJoystick.activeRef (yaw c) = false
  /\ w (command c) = S754_finite true 4503599627370496 (-53)
  /\ w (command (step Math_hypot Math_atan2 Math_cos Math_sin c Render))
     = Number.zero.
Proof. vm_compute. repeat split; reflexivity. Qed.

End Math.

End ControlsFacts.
